(** * jetstream-pytorch: model registry, checkpoint loading and the Gemma model

    A shallow embedding of
      - [src/jetstream_pt/fetch_models.py]
      - [src/jetstream_pt/third_party/gemma/model.py]
    together with the properties their specification states about them.

    Conventions of the embedding.
      - A Python [int] is a [Z]; [%] and [//] are [Z.modulo] and [Z.div]
        (both round towards minus infinity, as Python does), and a zero
        divisor raises [ZeroDivisionError] explicitly.
      - A Python exception is a constructor of [exn]; a function that can
        raise returns a [result].
      - A [dict] with string keys is a [gmap string _].
      - Floating-point tensors are idealised: their elements are real
        numbers ([R]), so rounding is outside the embedding. *)

From Stdlib Require Import ZArith List String Ascii Bool Reals Lra Lia.
From stdpp Require Import gmap strings list fin_maps.

Set Default Proof Using "Type".

(** ** Python exceptions and fallible computations *)

Inductive exn : Type :=
  | AssertionError
  | AttributeError
  | ZeroDivisionError
  | IndexError
  | ValueError
  | RuntimeError
  | HTTPError (status_code : Z).

Inductive result (A : Type) : Type :=
  | Ok (a : A)
  | Raise (e : exn).
Arguments Ok {A} a.
Arguments Raise {A} e.

(** Sequencing: the first exception raised aborts the rest.  The instances
    give [result] the notation [x ← r; k] for it. *)
#[global] Instance result_ret : MRet result := fun A a => Ok a.

#[global] Instance result_bind : MBind result := fun A B k r =>
  match r with
  | Ok a => k a
  | Raise e => Raise e
  end.

(** Code that also mutates objects threads a state [S]; a mutation made
    before an exception is raised stays made. *)
Definition M (S A : Type) : Type := S -> result A * S.

#[global] Instance M_ret {S} : MRet (M S) := fun A a s => (Ok a, s).

#[global] Instance M_bind {S} : MBind (M S) := fun A B k m s =>
  match m s with
  | (Ok a, s') => k a s'
  | (Raise e, s') => (Raise e, s')
  end.

Definition lift {S A} (r : result A) : M S A := fun s => (r, s).
Definition get_state {S} : M S S := fun s => (Ok s, s).
Definition modify {S} (f : S -> S) : M S unit := fun s => (Ok tt, f s).

(** [assert c] *)
Definition assert (c : bool) : result unit :=
  if c then Ok tt else Raise AssertionError.

Definition is_ok {A : Type} (r : result A) : bool :=
  match r with Ok _ => true | Raise _ => false end.

(** ** The tensor operations the sources use

    A tensor is its shape together with the element at each multi-index;
    storage and strides are abstracted away, so [transpose], [view] and the
    like re-address the same elements exactly as the library does.  The
    element at an index outside the shape is unspecified.  Dimension
    arguments are integers and may be negative, counting from the end.
    The definitions follow the documented behaviour of [torch]; they are
    the library the sources are written against, not code of the
    repository. *)

Module Torch.

Record Tensor (A : Type) : Type := mkTensor {
  shape : list nat;
  elem : list nat -> A;
}.
Arguments mkTensor {A} shape elem.
Arguments shape {A} t.
Arguments elem {A} t idx.

Definition ndim {A} (t : Tensor A) : nat := length (shape t).

Definition numel (s : list nat) : nat := fold_right Nat.mul 1%nat s.

(** [size t d]: the extent of dimension [d] (0 when there is none). *)
Definition size {A} (t : Tensor A) (d : nat) : nat := default 0%nat (shape t !! d).

Fixpoint in_range (s idx : list nat) : bool :=
  match s, idx with
  | [], [] => true
  | n :: s', i :: idx' => (i <? n)%nat && in_range s' idx'
  | _, _ => false
  end.

(** All multi-indices of a shape, in row-major order. *)
Fixpoint indices (s : list nat) : list (list nat) :=
  match s with
  | [] => [[]]
  | n :: s' => i ← seq 0 n; (fun idx => i :: idx) <$> indices s'
  end.

(** A dimension argument, wrapped into [0, rank). *)
Definition wrap_dim (rank : nat) (d : Z) : result nat :=
  if ((0 <=? d) && (d <? Z.of_nat rank))%Z then Ok (Z.to_nat d)
  else if ((- Z.of_nat rank <=? d) && (d <? 0))%Z then Ok (Z.to_nat (d + Z.of_nat rank))
  else Raise IndexError.

Definition swap {X} (l : list X) (i j : nat) : list X :=
  match l !! i, l !! j with
  | Some a, Some b => <[i:=b]> (<[j:=a]> l)
  | _, _ => l
  end.

(** [t.transpose(d0, d1)] *)
Definition transpose {A} (t : Tensor A) (d0 d1 : Z) : result (Tensor A) :=
  i ← wrap_dim (ndim t) d0;
  j ← wrap_dim (ndim t) d1;
  Ok {| shape := swap (shape t) i j;
        elem := fun idx => elem t (swap idx i j) |}.

(** Elementwise map; dtype casts ([.float()], [.type_as(x)]) are the
    identity on idealised elements. *)
Definition tmap {A B} (f : A -> B) (t : Tensor A) : Tensor B :=
  {| shape := shape t; elem := fun idx => f (elem t idx) |}.

Definition float {A} (t : Tensor A) : Tensor A := t.
Definition type_as {A} (t other : Tensor A) : Tensor A := t.

(** [t.narrow(d, start, len)] *)
Definition narrow {A} (t : Tensor A) (d start len : nat) : Tensor A :=
  {| shape := <[d:=len]> (shape t);
     elem := fun idx => elem t (alter (Nat.add start) d idx) |}.

(** [torch.split(t, split_size, d)] for a positive [split_size]. *)
Definition split {A} (t : Tensor A) (split_size d : nat) : list (Tensor A) :=
  let D := size t d in
  let num_splits := Nat.max ((D + split_size - 1) / split_size) 1 in
  (fun k => narrow t d (k * split_size) (Nat.min split_size (D - k * split_size)))
    <$> seq 0 num_splits.

(** [torch.chunk(t, chunks, dim)]: pieces of [ceil(D / chunks)] elements,
    the last one shorter; an empty dimension gives [chunks] empty pieces. *)
Definition chunk {A} (t : Tensor A) (chunks : nat) (dim : Z) : result (list (Tensor A)) :=
  d ← wrap_dim (ndim t) dim;
  if (chunks =? 0)%nat then Raise RuntimeError
  else
    let D := size t d in
    let split_size := ((D + chunks - 1) / chunks)%nat in
    if (split_size =? 0)%nat
    then Ok (replicate chunks (narrow t d 0 0))
    else Ok (split t split_size d).

Definition insert_at {X} (d : nat) (x : X) (l : list X) : list X :=
  take d l ++ x :: drop d l.

Definition shape_eqb (s1 s2 : list nat) : bool := bool_decide (s1 = s2).

(** [torch.stack(ts, dim)]: a new dimension that selects among [ts]. *)
Definition stack {A} (ts : list (Tensor A)) (dim : Z) : result (Tensor A) :=
  match ts with
  | [] => Raise RuntimeError
  | t0 :: rest =>
      if forallb (fun t => shape_eqb (shape t) (shape t0)) rest
      then
        d ← wrap_dim (S (ndim t0)) dim;
        Ok {| shape := insert_at d (length ts) (shape t0);
              elem := fun idx => elem (nth (default 0%nat (idx !! d)) ts t0) (delete d idx) |}
      else Raise RuntimeError
  end.

Fixpoint cat_at {A} (dflt : A) (ts : list (Tensor A)) (d : nat) (idx : list nat) (i : nat) : A :=
  match ts with
  | [] => dflt
  | t :: ts' =>
      if (i <? size t d)%nat then elem t (<[d:=i]> idx)
      else cat_at dflt ts' d idx (i - size t d)
  end.

(** [torch.cat(ts, dim)]: the pieces laid end to end along [dim]. *)
Definition cat {A} (ts : list (Tensor A)) (dim : Z) : result (Tensor A) :=
  match ts with
  | [] => Raise RuntimeError
  | t0 :: rest =>
      d ← wrap_dim (ndim t0) dim;
      if forallb (fun t => shape_eqb (delete d (shape t)) (delete d (shape t0))) rest
      then
        Ok {| shape := <[d := sum_list ((fun t => size t d) <$> ts)]> (shape t0);
              elem := fun idx => cat_at (elem t0 idx) ts d idx (default 0%nat (idx !! d)) |}
      else Raise RuntimeError
  end.

(** [torch.view_as_complex]: the last dimension, of extent 2, holds the
    real and the imaginary part. *)
Definition view_as_complex {A} (t : Tensor A) : result (Tensor (A * A)) :=
  match last (shape t) with
  | Some 2%nat =>
      Ok {| shape := removelast (shape t);
            elem := fun idx => (elem t (idx ++ [0%nat]), elem t (idx ++ [1%nat])) |}
  | _ => Raise RuntimeError
  end.

(** [torch.view_as_real] *)
Definition view_as_real {A} (t : Tensor (A * A)) : Tensor A :=
  {| shape := shape t ++ [2%nat];
     elem := fun idx =>
       let z := elem t (removelast idx) in
       match last idx with
       | Some 0%nat => fst z
       | _ => snd z
       end |}.

(** Row-major addressing. *)
Fixpoint flat_index (s idx : list nat) : nat :=
  match s, idx with
  | _ :: s', i :: idx' => (i * numel s' + flat_index s' idx')%nat
  | _, _ => 0%nat
  end.

Fixpoint unflatten (s : list nat) (k : nat) : list nat :=
  match s with
  | [] => []
  | _ :: s' => (k / numel s')%nat :: unflatten s' (k mod numel s')%nat
  end.

(** The shape a [reshape]/[view] call asks for, with at most one [-1]
    entry inferred from the number of elements. *)
Definition infer_size (requested : list Z) (n : nat) : result (list nat) :=
  if forallb (fun d => (-1 <=? d)%Z) requested then
    let known := filter (fun d => d ≠ (-1)%Z) requested in
    let newsize := numel (Z.to_nat <$> known) in
    match (length requested - length known)%nat with
    | 0%nat => if (n =? newsize)%nat then Ok (Z.to_nat <$> requested) else Raise RuntimeError
    | 1%nat =>
        if (0 <? newsize)%nat && (n mod newsize =? 0)%nat
        then Ok ((fun d => if (d =? -1)%Z then (n / newsize)%nat else Z.to_nat d) <$> requested)
        else Raise RuntimeError
    | _ => Raise RuntimeError
    end
  else Raise RuntimeError.

(** [t.reshape] with the requested sizes as arguments; [t.view] is the
    same function on the contiguous tensors the sources apply it to. *)
Definition reshape {A} (t : Tensor A) (requested : list Z) : result (Tensor A) :=
  s ← infer_size requested (numel (shape t));
  Ok {| shape := s;
        elem := fun idx => elem t (unflatten (shape t) (flat_index s idx)) |}.

Definition view {A} (t : Tensor A) (requested : list Z) : result (Tensor A) :=
  reshape t requested.

(** Broadcasting of two shapes, aligned at their last dimensions. *)
Fixpoint broadcast_rev (r1 r2 : list nat) : result (list nat) :=
  match r1, r2 with
  | [], r => Ok r
  | r, [] => Ok r
  | n :: r1', m :: r2' =>
      rest ← broadcast_rev r1' r2';
      if (n =? m)%nat then Ok (n :: rest)
      else if (n =? 1)%nat then Ok (m :: rest)
      else if (m =? 1)%nat then Ok (n :: rest)
      else Raise RuntimeError
  end.

Definition broadcast_shapes (s1 s2 : list nat) : result (list nat) :=
  r ← broadcast_rev (rev s1) (rev s2); Ok (rev r).

(** The index of an operand of shape [s] that a result index reads. *)
Definition broadcast_index (s idx : list nat) : list nat :=
  zip_with (fun n i => if (n =? 1)%nat then 0%nat else i) s
           (drop (length idx - length s) idx).

Definition binary {A B C} (op : A -> B -> C) (t : Tensor A) (u : Tensor B)
    : result (Tensor C) :=
  s ← broadcast_shapes (shape t) (shape u);
  Ok {| shape := s;
        elem := fun idx => op (elem t (broadcast_index (shape t) idx))
                            (elem u (broadcast_index (shape u) idx)) |}.

(** [t[index]] with an integer tensor as index (advanced indexing along
    dimension 0; the result is a new tensor, not a view). *)
Definition wrap_index (n : nat) (i : Z) : option nat :=
  if ((0 <=? i) && (i <? Z.of_nat n))%Z then Some (Z.to_nat i)
  else if ((- Z.of_nat n <=? i) && (i <? 0))%Z then Some (Z.to_nat (i + Z.of_nat n))
  else None.

Definition index {A} (t : Tensor A) (ix : Tensor Z) : result (Tensor A) :=
  match shape t with
  | [] => Raise IndexError
  | n :: s' =>
      if forallb (fun idx => bool_decide (is_Some (wrap_index n (elem ix idx))))
                 (indices (shape ix))
      then
        let r := ndim ix in
        Ok {| shape := shape ix ++ s';
              elem := fun idx =>
                elem t (default 0%nat (wrap_index n (elem ix (take r idx))) :: drop r idx) |}
      else Raise IndexError
  end.

(** [torch.arange(start, end, step)] on integers, for a positive step. *)
Definition arange (start end_ step : Z) : result (Tensor Z) :=
  if (step <=? 0)%Z then Raise RuntimeError
  else if (end_ <? start)%Z then Raise RuntimeError
  else Ok {| shape := [Z.to_nat ((end_ - start + step - 1) / step)];
             elem := fun idx => (start + Z.of_nat (default 0%nat (head idx)) * step)%Z |}.

(** [t[:stop]] on the first dimension. *)
Definition slice_to {A} (t : Tensor A) (stop : Z) : result (Tensor A) :=
  match shape t with
  | [] => Raise IndexError
  | n :: s' =>
      let len :=
        if (stop <? 0)%Z then Z.to_nat (Z.of_nat n + stop)
        else Nat.min (Z.to_nat stop) n in
      Ok {| shape := len :: s'; elem := elem t |}
  end.

(** [torch.outer(a, b)] of two vectors. *)
Definition outer {A B C} (op : A -> B -> C) (a : Tensor A) (b : Tensor B)
    : result (Tensor C) :=
  match shape a, shape b with
  | [n], [m] =>
      Ok {| shape := [n; m];
            elem := fun idx =>
              op (elem a (take 1 idx)) (elem b (drop 1 idx)) |}
  | _, _ => Raise RuntimeError
  end.

Definition ones_like (t : Tensor R) : Tensor R := tmap (fun _ => 1%R) t.

(** [torch.polar(abs, angle)] *)
Definition polar (abs angle : Tensor R) : result (Tensor (R * R)) :=
  binary (fun a th => (a * cos th, a * sin th)%R) abs angle.

(** [t % n] for an integer tensor and an integer: the remainder with the
    sign of the divisor; a zero divisor is an error. *)
Definition remainder (t : Tensor Z) (n : Z) : result (Tensor Z) :=
  if (n =? 0)%Z then Raise RuntimeError
  else Ok (tmap (fun a => (a mod n)%Z) t).

(** [t.t()]: the transpose of a matrix (a vector is returned as it is). *)
Definition t_ {A} (t : Tensor A) : result (Tensor A) :=
  match ndim t with
  | 0%nat | 1%nat => Ok t
  | 2%nat => transpose t 0 1
  | _ => Raise RuntimeError
  end.

(** [torch.matmul(t, u)] for a matrix [u] and a [t] of one or more
    dimensions, the case the sources use. *)
Definition matmul (t u : Tensor R) : result (Tensor R) :=
  match shape u, last (shape t) with
  | [k; m], Some k' =>
      if (k =? k')%nat
      then Ok {| shape := removelast (shape t) ++ [m];
                 elem := fun idx =>
                   fold_right Rplus 0%R
                     ((fun j => (elem t (removelast idx ++ [j])
                                 * elem u [j; default 0%nat (last idx)])%R) <$> seq 0 k) |}
      else Raise RuntimeError
  | _, _ => Raise RuntimeError
  end.

(** Sum of [g 0 .. g (n-1)], and of [f] over all indices of a shape. *)
Definition sum_n (n : nat) (g : nat -> R) : R :=
  fold_right Rplus 0%R (g <$> seq 0 n).

Fixpoint sum_over (s : list nat) (f : list nat -> R) : R :=
  match s with
  | [] => f []
  | n :: s' => sum_n n (fun i => sum_over s' (fun idx => f (i :: idx)))
  end.

(** A complex tensor all of whose elements have modulus 1. *)
Definition unit_modulus (f : Tensor (R * R)) : Prop :=
  forall idx, in_range (shape f) idx = true ->
    ((elem f idx).1 * (elem f idx).1 + (elem f idx).2 * (elem f idx).2 = 1)%R.

(** The Euclidean norm of a tensor, [torch.linalg.norm(t)]. *)
Definition sqnorm (t : Tensor R) : R :=
  sum_over (shape t) (fun idx => (elem t idx * elem t idx)%R).
Definition linalg_norm (t : Tensor R) : R := sqrt (sqnorm t).

(** [t.mean(dim, keepdim=True)]: the mean along one dimension, which
    stays in the shape with extent 1. *)
Definition mean_keepdim (t : Tensor R) (dim : Z) : result (Tensor R) :=
  d ← wrap_dim (ndim t) dim;
  Ok {| shape := <[d := 1%nat]> (shape t);
        elem := fun idx =>
          (sum_n (size t d) (fun i => elem t (<[d := i]> idx)) / INR (size t d))%R |}.

(** [t.pow(2)], [torch.rsqrt(t)], and the scalar operation [t + c]. *)
Definition pow2 (t : Tensor R) : Tensor R := tmap (fun v => (v * v)%R) t.
Definition rsqrt (t : Tensor R) : Tensor R := tmap (fun v => (1 / sqrt v)%R) t.
Definition add_scalar (t : Tensor R) (c : R) : Tensor R := tmap (fun v => (v + c)%R) t.

(** [F.gelu(t, approximate="tanh")] *)
Definition gelu_tanh (t : Tensor R) : Tensor R :=
  tmap (fun v =>
          (0.5 * v * (1 + tanh (sqrt (2 / PI) * (v + 0.044715 * (v * v * v)))))%R) t.

(** [t.contiguous()] changes the layout in memory, not the elements. *)
Definition contiguous {A} (t : Tensor A) : Tensor A := t.

End Torch.

(** ** third_party/gemma/model.py *)

Module Gemma.

Import Torch.

(** The arithmetic the rotary embedding needs of its elements; the
    instance at [R] is the idealised floating point, the one at [Z] lets
    the functions be run on small inputs. *)
Class Arith (A : Type) : Type := {
  add : A -> A -> A;
  sub : A -> A -> A;
  mul : A -> A -> A;
}.

#[global] Instance R_arith : Arith R := {| add := Rplus; sub := Rminus; mul := Rmult |}.
#[global] Instance Z_arith : Arith Z := {| add := Z.add; sub := Z.sub; mul := Z.mul |}.

(** Multiplication of complex numbers, as pairs (real, imaginary). *)
Definition cmul {A} `{Arith A} (z w : A * A) : A * A :=
  (sub (mul z.1 w.1) (mul z.2 w.2), add (mul z.1 w.2) (mul z.2 w.1)).

(** [theta ** e]: for a positive base, the real power. *)
Definition pow (theta e : R) : R := Rpower theta e.

Definition precompute_freqs_cis (dim end_ : Z) (theta : R) : result (Tensor (R * R)) :=
  ar ← arange 0 dim 2;
  ar ← slice_to ar (dim / 2);
  let freqs := tmap (fun k => (1 / pow theta (IZR k / IZR dim))%R) (float ar) in
  t ← arange 0 end_ 1;
  freqs ← outer (fun t f => (IZR t * f)%R) t freqs;
  let freqs := float freqs in
  polar (ones_like freqs) freqs.

(** [x.shape[i]] *)
Definition shape_at {A} (x : Tensor A) (i : nat) : result nat :=
  match shape x !! i with
  | Some n => Ok n
  | None => Raise IndexError
  end.

Definition reshape_for_broadcast {A B} (freqs_cis : Tensor A) (x : Tensor B)
    : result (Tensor A) :=
  let ndim := ndim x in
  _ ← assert (1 <? ndim)%nat;
  s0 ← shape_at x 0;
  s2 ← shape_at x 2;
  s3 ← shape_at x 3;
  _ ← assert (shape_eqb (shape freqs_cis) [s0; s2; s3]);
  let shape := imap (fun i d => if bool_decide (i ≠ 1%nat) then Z.of_nat d else 1%Z) (shape x) in
  view freqs_cis shape.

Definition apply_rotary_emb {A} `{Arith A} (x : Tensor A) (freqs_cis : Tensor (A * A))
    : result (Tensor A) :=
  xt ← transpose x 1 2;
  halves ← chunk (float xt) 2 (-1);
  stacked ← stack halves (-1);
  x_ ← view_as_complex stacked;
  freqs_cis ← reshape_for_broadcast freqs_cis x_;
  prod ← binary cmul x_ freqs_cis;
  let x_out := type_as (view_as_real prod) x in
  parts ← chunk x_out 2 (-1);
  x_out ← cat parts (-2);
  s0 ← shape_at x_out 0;
  s1 ← shape_at x_out 1;
  s2 ← shape_at x_out 2;
  x_out ← reshape x_out [Z.of_nat s0; Z.of_nat s1; Z.of_nat s2; (-1)%Z];
  transpose x_out 1 2.

(** *** Configuration objects

    Modelled from the spec: [GemmaConfig] ([gemma/config.py]) and the
    engine environment ([jetstream_pt/environment.py]) are not among the
    sources.  The records hold the attributes the sources read: the
    per-model static configuration (layer, head and kv-head counts, head
    dimension) and the environment's cache length and quantization and
    sharding switches. *)

Record QuantConfig : Type := {
  enable_weight_quantization : bool;
  enable_kv_quantization : bool;
}.

Record Env : Type := {
  device : string;
  cache_len : Z;
  shard_on_batch : bool;
  quant_config : QuantConfig;
}.

Definition set_device (env : Env) (d : string) : Env :=
  {| device := d; cache_len := cache_len env;
     shard_on_batch := shard_on_batch env; quant_config := quant_config env |}.

Record GemmaConfig : Type := {
  vocab_size : Z;
  max_position_embeddings : Z;
  num_hidden_layers : Z;
  num_attention_heads : Z;
  num_key_value_heads : Z;
  hidden_size : Z;
  intermediate_size : Z;
  head_dim : Z;
  rms_norm_eps : R;
  config_device : string;
  (** absent from some configurations: read with [getattr] and a default *)
  rope_theta : option R;
}.

Definition set_config_device (c : GemmaConfig) (d : string) : GemmaConfig :=
  {| vocab_size := vocab_size c;
     max_position_embeddings := max_position_embeddings c;
     num_hidden_layers := num_hidden_layers c;
     num_attention_heads := num_attention_heads c;
     num_key_value_heads := num_key_value_heads c;
     hidden_size := hidden_size c;
     intermediate_size := intermediate_size c;
     head_dim := head_dim c;
     rms_norm_eps := rms_norm_eps c;
     config_device := d;
     rope_theta := rope_theta c |}.

(** *** Python integer arithmetic that can raise *)

Definition py_mod (a b : Z) : result Z :=
  if (b =? 0)%Z then Raise ZeroDivisionError else Ok (a mod b)%Z.

Definition py_floordiv (a b : Z) : result Z :=
  if (b =? 0)%Z then Raise ZeroDivisionError else Ok (a / b)%Z.

(** The value of [n ** -0.5] for an int [n]: a float for a positive [n],
    a complex number for a negative one, an error for zero. *)
Inductive pynum : Type :=
  | PyFloat (x : R)
  | PyComplex (re im : R).

Definition pow_neg_half (n : Z) : result pynum :=
  if (n =? 0)%Z then Raise ZeroDivisionError
  else if (0 <? n)%Z then Ok (PyFloat (/ sqrt (IZR n)))
  else Ok (PyComplex 0 (- / sqrt (IZR (- n)))).

(** *** Sub-modules as constructed

    The constructors of [torch.nn.Linear], [torch.nn.Embedding] and of the
    classes of [jetstream_pt.layers] are library code: a constructed
    sub-module is represented by the class chosen and the arguments it
    was given. *)

Inductive LinearClass : Type :=
  | TorchLinear
  | WeightOnlyPerChannelQuantizedLinear.

Record Linear : Type := {
  linear_class : LinearClass;
  in_features : Z;
  out_features : Z;
  bias : bool;
  linear_device : string;
  linear_kwargs : option QuantConfig;
}.

Inductive KernelClass : Type :=
  | AttentionKernel
  | Int8KVAttentionKernel.

Record Kernel : Type := {
  kernel_class : KernelClass;
  kernel_env : Env;
  kernel_layer_id : nat;
}.

Record GemmaAttention : Type := {
  attn_env : Env;
  num_heads : Z;
  num_kv_heads : Z;
  num_queries_per_kv : Z;
  attn_hidden_size : Z;
  attn_head_dim : Z;
  q_size : Z;
  kv_size : Z;
  scaling : pynum;
  wq : Linear;
  wk : Linear;
  wv : Linear;
  o_proj : Linear;
  attn_hf_names : list (string * string);
  attn_sharding : list (string * Z);
  attention_kernel : Kernel;
}.

Definition GemmaAttention_init (hidden_size num_heads num_kv_heads head_dim : Z)
    (device : string) (env : Env) (layer_id : nat) : result GemmaAttention :=
  r ← py_mod num_heads num_kv_heads;
  _ ← assert (r =? 0)%Z;
  num_queries_per_kv ← py_floordiv num_heads num_kv_heads;
  let q_size := (num_heads * head_dim)%Z in
  let kv_size := (num_kv_heads * head_dim)%Z in
  scaling ← pow_neg_half head_dim;
  let quantized := enable_weight_quantization (quant_config env) in
  let Linear_ := if quantized then WeightOnlyPerChannelQuantizedLinear else TorchLinear in
  let linear_kwargs := if quantized then Some (quant_config env) else None in
  let mk i o := Build_Linear Linear_ i o false device linear_kwargs in
  let Kernel_ :=
    if enable_kv_quantization (quant_config env)
    then Int8KVAttentionKernel else AttentionKernel in
  Ok {| attn_env := env;
        num_heads := num_heads;
        num_kv_heads := num_kv_heads;
        num_queries_per_kv := num_queries_per_kv;
        attn_hidden_size := hidden_size;
        attn_head_dim := head_dim;
        q_size := q_size;
        kv_size := kv_size;
        scaling := scaling;
        wq := mk hidden_size (num_heads * head_dim)%Z;
        wk := mk hidden_size (num_kv_heads * head_dim)%Z;
        wv := mk hidden_size (num_kv_heads * head_dim)%Z;
        o_proj := mk (num_heads * head_dim)%Z hidden_size;
        attn_hf_names := [("wk", "k_proj"); ("wv", "v_proj"); ("wq", "q_proj")];
        attn_sharding :=
          [("wk.weight", 0%Z); ("wv.weight", 0%Z); ("wq.weight", 0%Z);
           ("o_proj.weight", 1%Z)]
          ++ (if quantized
              then [("wk.weight_scaler", 0%Z); ("wv.weight_scaler", 0%Z);
                    ("wq.weight_scaler", 0%Z); ("o_proj.weight_scaler", (-1)%Z)]
              else []);
        attention_kernel := Build_Kernel Kernel_ env layer_id |}.

Record RMSNorm : Type := {
  eps : R;
  add_unit_offset : bool;
  norm_dim : Z;
  norm_device : string;
}.

Definition RMSNorm_init (dim : Z) (eps : R) (device : string) : RMSNorm :=
  {| eps := eps; add_unit_offset := true; norm_dim := dim; norm_device := device |}.

Record GemmaMLP : Type := {
  gate_proj : Linear;
  up_proj : Linear;
  down_proj : Linear;
  mlp_sharding : list (string * Z);
}.

Definition GemmaMLP_init (hidden_size intermediate_size : Z) (device : string)
    (env : Env) : GemmaMLP :=
  let quantized := enable_weight_quantization (quant_config env) in
  let Linear_ := if quantized then WeightOnlyPerChannelQuantizedLinear else TorchLinear in
  let linear_kwargs := if quantized then Some (quant_config env) else None in
  let mk i o := Build_Linear Linear_ i o false device linear_kwargs in
  {| gate_proj := mk hidden_size intermediate_size;
     up_proj := mk hidden_size intermediate_size;
     down_proj := mk intermediate_size hidden_size;
     mlp_sharding :=
       [("gate_proj.weight", 0%Z); ("up_proj.weight", 0%Z); ("down_proj.weight", 1%Z);
        ("gate_proj.bias", 0%Z); ("up_proj.bias", 0%Z); ("down_proj.bias", (-1)%Z)]
       ++ (if quantized
           then [("gate_proj.weight_scaler", 0%Z); ("up_proj.weight_scaler", 0%Z);
                 ("down_proj.weight_scaler", (-1)%Z)]
           else []) |}.

Record GemmaDecoderLayer : Type := {
  self_attn : GemmaAttention;
  mlp : GemmaMLP;
  input_layernorm : RMSNorm;
  post_attention_layernorm : RMSNorm;
}.

Definition GemmaDecoderLayer_init (config : GemmaConfig) (env : Env) (layer_id : nat)
    : result GemmaDecoderLayer :=
  self_attn ← GemmaAttention_init (hidden_size config) (num_attention_heads config)
                 (num_key_value_heads config) (head_dim config) (config_device config)
                 env layer_id;
  Ok {| self_attn := self_attn;
        mlp := GemmaMLP_init (hidden_size config) (intermediate_size config)
                 (config_device config) env;
        input_layernorm :=
          RMSNorm_init (hidden_size config) (rms_norm_eps config) (config_device config);
        post_attention_layernorm :=
          RMSNorm_init (hidden_size config) (rms_norm_eps config) (config_device config) |}.

Inductive EmbeddingClass : Type :=
  | TorchEmbedding
  | Int8Embedding.

Record Embedding : Type := {
  embedding_class : EmbeddingClass;
  num_embeddings : Z;
  embedding_dim : Z;
  embedding_device : string;
}.

(** *** The library underneath

    What is called here and is neither in the sources nor a tensor
    operation above: applying a linear layer or an embedding (their
    weights live in [torch] or [jetstream_pt.layers]), the attention
    kernel of [jetstream_pt.layers], and the current value of a
    parameter.  The attention kernel writes the new keys and values into
    the cache object it is handed, so it returns the cache as it leaves
    it. *)

Abbreviation FTensor := (Tensor R).
Abbreviation ITensor := (Tensor Z).
Abbreviation CTensor := (Tensor (R * R)).

Class Backend (Cache : Type) : Type := {
  linear_forward : Linear -> FTensor -> result FTensor;
  kernel_forward :
    Kernel -> FTensor -> FTensor -> FTensor -> FTensor -> Cache ->
    option ITensor -> option ITensor -> option ITensor -> option ITensor ->
    result FTensor * Cache;
  rmsnorm_weight : RMSNorm -> FTensor;
  embedding_forward : Embedding -> ITensor -> result FTensor;
  embedding_weight : Embedding -> FTensor;
  embedding_weight_scaler : Embedding -> option FTensor;
}.

Section Forward.

Context {Cache : Type} `{Backend Cache}.

(** [env.apply_sharding(t, axis=...)] annotates a tensor for the compiler
    and leaves its shape and elements alone. *)
Definition apply_sharding {A} (env : Env) (t : Tensor A) (axis : Z) : Tensor A := t.

(** [GemmaAttention.forward]; the state is the cache object passed in. *)
Definition GemmaAttention_forward (self : GemmaAttention)
    (hidden_states : FTensor) (freqs_cis : CTensor) (mask : FTensor)
    (start end_ ragged_batch_index ragged_block_index : option ITensor)
    : M Cache FTensor :=
  let hidden_states_shape := shape hidden_states in
  _ ← lift (assert (length hidden_states_shape =? 3)%nat);
  '(batch_size, input_len) ← lift (match hidden_states_shape with
                                   | [batch_size; input_len; _] => Ok (batch_size, input_len)
                                   | _ => Raise ValueError
                                   end);
  xq ← lift (linear_forward (wq self) hidden_states);
  xk ← lift (linear_forward (wk self) hidden_states);
  xv ← lift (linear_forward (wv self) hidden_states);
  xq ← lift (view xq [Z.of_nat batch_size; (-1)%Z; num_heads self; attn_head_dim self]);
  xk ← lift (view xk [Z.of_nat batch_size; (-1)%Z; num_kv_heads self; attn_head_dim self]);
  xv ← lift (view xv [Z.of_nat batch_size; (-1)%Z; num_kv_heads self; attn_head_dim self]);
  let shard_axis := if shard_on_batch (attn_env self) then 0%Z else 2%Z in
  let xq := apply_sharding (attn_env self) xq shard_axis in
  let xk := apply_sharding (attn_env self) xk shard_axis in
  let xv := apply_sharding (attn_env self) xv shard_axis in
  (* Positional embedding. *)
  xq ← lift (apply_rotary_emb xq freqs_cis);
  xk ← lift (apply_rotary_emb xk freqs_cis);
  (* Write new kv cache. *)
  xk ← lift (transpose xk 1 2);
  xv ← lift (transpose xv 1 2);
  xq ← lift (transpose xq 1 2);
  output ← (fun cache =>
    kernel_forward (attention_kernel self) xq xk xv mask cache
      start end_ ragged_batch_index ragged_block_index);
  output ← lift (transpose output 1 2);
  output ← lift (view (contiguous output)
                   [Z.of_nat batch_size; Z.of_nat input_len; (-1)%Z]);
  output ← lift (linear_forward (o_proj self) output);
  mret output.

(** [RMSNorm._norm] and [RMSNorm.forward] *)
Definition RMSNorm__norm (self : RMSNorm) (x : FTensor) : result FTensor :=
  m ← mean_keepdim (pow2 x) (-1);
  binary Rmult x (rsqrt (add_scalar m (eps self))).

Definition RMSNorm_forward (self : RMSNorm) (x : FTensor) : result FTensor :=
  x' ← RMSNorm__norm self (float x);
  let x := type_as x' x in
  if add_unit_offset self
  then binary Rmult x (tmap (fun w => (1 + w)%R) (rmsnorm_weight self))
  else binary Rmult x (rmsnorm_weight self).

(** [GemmaMLP.forward] *)
Definition GemmaMLP_forward (self : GemmaMLP) (x : FTensor) : result FTensor :=
  gate ← linear_forward (gate_proj self) x;
  let gate := gelu_tanh gate in
  up ← linear_forward (up_proj self) x;
  fuse ← binary Rmult gate up;
  outputs ← linear_forward (down_proj self) fuse;
  Ok outputs.

(** [GemmaDecoderLayer.forward]; the state is the cache object passed in. *)
Definition GemmaDecoderLayer_forward (self : GemmaDecoderLayer)
    (hidden_states : FTensor) (freqs_cis : CTensor) (mask : FTensor)
    (start end_ ragged_batch_index ragged_block_index : option ITensor)
    : M Cache FTensor :=
  (* Self Attention *)
  let residual := hidden_states in
  hidden_states ← lift (RMSNorm_forward (input_layernorm self) hidden_states);
  hidden_states ← GemmaAttention_forward (self_attn self) hidden_states freqs_cis mask
                     start end_ ragged_batch_index ragged_block_index;
  hidden_states ← lift (binary Rplus residual hidden_states);
  (* MLP *)
  let residual := hidden_states in
  hidden_states ← lift (RMSNorm_forward (post_attention_layernorm self) hidden_states);
  hidden_states ← lift (GemmaMLP_forward (mlp self) hidden_states);
  hidden_states ← lift (binary Rplus residual hidden_states);
  mret hidden_states.

Record GemmaModel : Type := {
  config : GemmaConfig;
  model_vocab_size : Z;
  env : Env;
  layers : list GemmaDecoderLayer;
  norm : RMSNorm;
  embedder : Embedding;
  hf_names : list (string * string);
  (** the buffers registered with [register_buffer], by name *)
  buffers : gmap string CTensor;
}.

Definition register_buffer (self : GemmaModel) (name : string) (t : CTensor) : GemmaModel :=
  {| config := config self; model_vocab_size := model_vocab_size self;
     env := env self; layers := layers self; norm := norm self;
     embedder := embedder self; hf_names := hf_names self;
     buffers := <[name := t]> (buffers self) |}.

(** [for layer_id in range(n): self.layers.append(GemmaDecoderLayer(...))] *)
Fixpoint build_layers (config : GemmaConfig) (env : Env) (ids : list nat)
    : result (list GemmaDecoderLayer) :=
  match ids with
  | [] => Ok []
  | layer_id :: rest =>
      l ← GemmaDecoderLayer_init config env layer_id;
      ls ← build_layers config env rest;
      Ok (l :: ls)
  end.

Definition GemmaModel_init (config : GemmaConfig) (env : Env) : result GemmaModel :=
  layers ← build_layers config env (seq 0 (Z.to_nat (num_hidden_layers config)));
  let norm := RMSNorm_init (hidden_size config) (rms_norm_eps config) (config_device config) in
  let Embedding_ :=
    if enable_weight_quantization (quant_config env) then Int8Embedding else TorchEmbedding in
  let embedder :=
    Build_Embedding Embedding_ (vocab_size config) (hidden_size config) (config_device config) in
  let self := {|
    config := config; model_vocab_size := vocab_size config; env := env;
    layers := layers; norm := norm; embedder := embedder;
    hf_names := [("embedder", "model.embed_tokens"); ("layers", "model.layers");
                 ("norm", "model.norm")];
    buffers := ∅ |} in
  let rope_theta := default 10000%R (rope_theta config) in
  freqs_cis ← precompute_freqs_cis (head_dim config)
                 (max_position_embeddings config * 2) rope_theta;
  Ok (register_buffer self "freqs_cis" freqs_cis).

(** The arguments one decoder layer is called with. *)
Record LayerCall : Type := {
  call_layer : nat;
  call_hidden_states : FTensor;
  call_freqs_cis : CTensor;
  call_cache : nat;
  call_mask : FTensor;
  call_start : option ITensor;
  call_end : option ITensor;
  call_ragged_batch_index : option ITensor;
  call_ragged_block_index : option ITensor;
}.

(** What a forward pass can change: the model object, the list of cache
    objects it is handed, and, for the record, the calls made to decoder
    layers so far (most recent last). *)
Record State : Type := {
  self_ : GemmaModel;
  caches : list Cache;
  calls : list LayerCall;
}.

Definition log_call (c : LayerCall) : M State unit :=
  modify (fun st => {| self_ := self_ st; caches := caches st; calls := calls st ++ [c] |}).

(** Run a layer on the cache object [caches[i]], which it mutates in place. *)
Definition with_cache {A} (i : nat) (f : M Cache A) : M State A := fun st =>
  match caches st !! i with
  | None => (Raise IndexError, st)
  | Some cache =>
      let '(r, cache') := f cache in
      (r, {| self_ := self_ st; caches := <[i := cache']> (caches st); calls := calls st |})
  end.

(** [self.freqs_cis] *)
Definition get_buffer (name : string) : M State CTensor := fun st =>
  match buffers (self_ st) !! name with
  | Some t => (Ok t, st)
  | None => (Raise AttributeError, st)
  end.

(** [end = None if start is None else (start + input_pos) % self.env.cache_len] *)
Definition end_cursor (self : GemmaModel) (start : option ITensor) (input_pos : ITensor)
    : result (option ITensor) :=
  match start with
  | None => Ok None
  | Some start =>
      s ← binary Z.add start input_pos;
      e ← remainder s (cache_len (env self));
      Ok (Some e)
  end.

(** The loop over [range(len(self.layers))].  The argument [caches[i]] is
    evaluated, and can raise, before the layer is called; the call is put
    on record as it is made. *)
Fixpoint forward_layers (self : GemmaModel) (ids : list nat)
    (hidden_states : FTensor) (freqs_cis : CTensor) (mask : FTensor)
    (start end_ ragged_batch_index ragged_block_index : option ITensor)
    : M State FTensor :=
  match ids with
  | [] => mret hidden_states
  | i :: rest =>
      match layers self !! i with
      | None => lift (Raise IndexError)
      | Some layer =>
          _ ← with_cache i (mret tt);
          _ ← log_call {| call_layer := i; call_hidden_states := hidden_states;
                          call_freqs_cis := freqs_cis; call_cache := i;
                          call_mask := mask; call_start := start; call_end := end_;
                          call_ragged_batch_index := ragged_batch_index;
                          call_ragged_block_index := ragged_block_index |};
          hidden_states ← with_cache i
            (GemmaDecoderLayer_forward layer hidden_states freqs_cis mask
               start end_ ragged_batch_index ragged_block_index);
          forward_layers self rest hidden_states freqs_cis mask
            start end_ ragged_batch_index ragged_block_index
      end
  end.

(** [GemmaModel.forward].  [hidden_size ** 0.5] is the real square root,
    for the positive hidden sizes configurations have. *)
Definition GemmaModel_forward (tokens input_pos : ITensor) (mask : FTensor)
    (start ragged_batch_index ragged_block_index : option ITensor)
    : M State FTensor :=
  st ← get_state;
  let self := self_ st in
  '(bsz, seqlen) ← lift (match shape tokens with
                         | [bsz; seqlen] => Ok (bsz, seqlen)
                         | _ => Raise ValueError
                         end);
  table ← get_buffer "freqs_cis";
  freqs_cis ← lift (index table input_pos);
  freqs_cis ← lift (reshape freqs_cis [Z.of_nat bsz; Z.of_nat seqlen; (-1)%Z]);
  hidden_states ← lift (embedding_forward (embedder self) tokens);
  let hidden_states :=
    tmap (fun v => (v * sqrt (IZR (hidden_size (config self))))%R) hidden_states in
  end_ ← lift (end_cursor self start input_pos);
  hidden_states ← forward_layers self (seq 0 (length (layers self)))
                     hidden_states freqs_cis mask
                     start end_ ragged_batch_index ragged_block_index;
  hidden_states ← lift (RMSNorm_forward (norm self) hidden_states);
  let embedder_weight := embedding_weight (embedder self) in
  embedder_weight ← lift (match embedding_weight_scaler (embedder self) with
                          | Some scaler => binary Rmult embedder_weight scaler
                          | None => Ok embedder_weight
                          end);
  wt ← lift (t_ embedder_weight);
  logits ← lift (matmul hidden_states wt);
  mret logits.

(** [GemmaModel.from_hf_model_id]; [get_model_config] is the function of
    [gemma/config.py]. *)
Definition hf_model_names : gmap string string :=
  list_to_map [("google/gemma-2b", "2b"); ("google/gemma-2b-it", "2b");
               ("google/gemma-7b", "7b"); ("google/gemma-7b-it", "7b")].

Definition from_hf_model_id (get_model_config : string -> result GemmaConfig)
    (model_id : string) (env : Env) (is_tiny : bool) : result GemmaModel :=
  match hf_model_names !! model_id with
  | None => Raise AssertionError
  | Some name =>
      _ ← assert (negb (String.eqb name ""));
      args ← get_model_config name;
      let args := set_config_device args "meta" in
      GemmaModel_init args env
  end.

(** A sequence of forward passes on the same model and caches; a pass
    that raises does not stop the caller from making the next one. *)
Record ForwardArgs : Type := {
  arg_tokens : ITensor;
  arg_input_pos : ITensor;
  arg_mask : FTensor;
  arg_start : option ITensor;
  arg_ragged_batch_index : option ITensor;
  arg_ragged_block_index : option ITensor;
}.

Definition forward_call (a : ForwardArgs) : M State FTensor :=
  GemmaModel_forward (arg_tokens a) (arg_input_pos a) (arg_mask a) (arg_start a)
    (arg_ragged_batch_index a) (arg_ragged_block_index a).

Definition forward_calls (args : list ForwardArgs) (st : State) : State :=
  fold_left (fun st a => (forward_call a st).2) args st.

End Forward.

End Gemma.

(** ** fetch_models.py *)

Module FetchModels.

Local Open Scope Z_scope.

(** The absl flags the module defines, with their defaults. *)
Record Flags : Type := {
  working_dir : string;
  hf_token : string;
  internal_use_random_weights : bool;
  internal_use_tiny_model : bool;
  override_max_cache_length : Z;
}.

Definition default_flags : Flags := {|
  working_dir := "checkpoints";
  hf_token := "";
  internal_use_random_weights := false;
  internal_use_tiny_model := false;
  override_max_cache_length := -1;
|}.

(** The three model classes the table refers to. *)
Inductive ModelClass : Type :=
  | LlamaTransformer
  | MixtralTransformer
  | GemmaModel.

Record ModelInfo : Type := {
  model_class : ModelClass;
  num_layers : Z;
  num_kv_heads : Z;
  head_dim : Z;
  n_reps : Z;
}.

Definition _llama2_7 := Build_ModelInfo LlamaTransformer 32 32 128 1.
Definition _llama2_13 := Build_ModelInfo LlamaTransformer 40 40 128 1.
Definition _llama2_70 := Build_ModelInfo LlamaTransformer 80 8 128 8.
Definition _llama3_8 := Build_ModelInfo LlamaTransformer 32 8 128 4.
Definition _llama3_70 := _llama2_70.
Definition _llama3_1_8b := _llama3_8.
Definition _llama3_2_1b := Build_ModelInfo LlamaTransformer 16 8 64 4.
Definition _llama3_3_70b := _llama2_70.

Definition _mixtral_87 := Build_ModelInfo MixtralTransformer 32 8 128 4.

Definition _gemma_2b := Build_ModelInfo GemmaModel 18 1 256 8.
Definition _gemma_7b := Build_ModelInfo GemmaModel 28 16 256 1.

Definition model_id_table : list (string * ModelInfo) := [
  ("meta-llama/Llama-2-7b-chat-hf", _llama2_7);
  ("meta-llama/Llama-2-7b-hf", _llama2_7);
  ("meta-llama/Llama-2-13b-chat-hf", _llama2_13);
  ("meta-llama/Llama-2-13b-hf", _llama2_13);
  ("meta-llama/Llama-2-70b-hf", _llama2_70);
  ("meta-llama/Llama-2-70b-chat-hf", _llama2_70);
  ("meta-llama/Meta-Llama-3-8B", _llama3_8);
  ("meta-llama/Meta-Llama-3-8B-Instruct", _llama3_8);
  ("meta-llama/Meta-Llama-3-70B", _llama3_70);
  ("meta-llama/Meta-Llama-3-70B-Instruct", _llama3_70);
  ("meta-llama/Llama-3.1-8B", _llama3_1_8b);
  ("meta-llama/Llama-3.1-8B-Instruct", _llama3_1_8b);
  ("meta-llama/Llama-3.2-1B", _llama3_2_1b);
  ("meta-llama/Llama-3.2-1B-Instruct", _llama3_2_1b);
  ("meta-llama/Llama-3.3-70B", _llama3_3_70b);
  ("meta-llama/Llama-3.3-70B-Instruct", _llama3_3_70b);
  ("google/gemma-2b", _gemma_2b);
  ("google/gemma-2b-it", _gemma_2b);
  ("google/gemma-7b", _gemma_7b);
  ("google/gemma-7b-it", _gemma_7b);
  ("mistralai/Mixtral-8x7B-v0.1", _mixtral_87);
  ("mistralai/Mixtral-8x7B-Instruct-v0.1", _mixtral_87);
  ("deepseek-ai/DeepSeek-R1-Distill-Llama-8B", _llama3_1_8b);
  ("deepseek-ai/DeepSeek-R1-Distill-Llama-70B", _llama3_3_70b)
].

(** The dict literal: its keys are pairwise distinct ([model_id_table_NoDup]
    below), so building it from the list loses nothing. *)
Definition model_id_to_class : gmap string ModelInfo :=
  list_to_map model_id_table.

(** [os.path.join a b] on a POSIX system, for two components. *)
Definition startswith (s p : string) : bool := String.prefix p s.

Definition endswith (s suf : string) : bool :=
  let n := String.length s in
  let k := String.length suf in
  (k <=? n)%nat && String.eqb (String.substring (n - k) k s) suf.

Definition os_path_join (a b : string) : string :=
  if startswith b "/" then b
  else if String.eqb a "" || endswith a "/" then a +:+ b
  else a +:+ "/" +:+ b.

Definition _model_dir (F : Flags) (repo_id : string) : string :=
  os_path_join (working_dir F) repo_id.

Definition _hf_dir (F : Flags) (repo_id : string) : string :=
  os_path_join (_model_dir F repo_id) "hf_original".

Definition _int_dir (F : Flags) (repo_id : string) : string :=
  os_path_join (_model_dir F repo_id) "converted_int8".

(** Modelled from the spec: [JetEngineEnvironmentData] is declared in
    [jetstream_pt/environment.py], which is not among the sources.  The
    record has the keyword arguments the constructor call passes, and the
    two attributes the function assigns afterwards ([cache_shape],
    [num_layers]); the spec gives the cache shape as the 4-tuple
    (batch_size, num_kv_heads, cache_length, head_dim). *)
Record JetEngineEnvironmentData : Type := {
  tokenizer_path : string;
  checkpoint_path : string;
  checkpoint_format : string;
  batch_size : Z;
  max_decode_length : Z;
  max_input_sequence_length : Z;
  cache_sequence_length : Z;
  bf16_enable : bool;
  sharding_config_path : string;
  shard_on_batch : bool;
  env_n_reps : Z;
  cache_shape : list Z;
  env_num_layers : Z;
}.

Definition set_cache_shape (e : JetEngineEnvironmentData) (s : list Z) :=
  {| tokenizer_path := tokenizer_path e;
     checkpoint_path := checkpoint_path e;
     checkpoint_format := checkpoint_format e;
     batch_size := batch_size e;
     max_decode_length := max_decode_length e;
     max_input_sequence_length := max_input_sequence_length e;
     cache_sequence_length := cache_sequence_length e;
     bf16_enable := bf16_enable e;
     sharding_config_path := sharding_config_path e;
     shard_on_batch := shard_on_batch e;
     env_n_reps := env_n_reps e;
     cache_shape := s;
     env_num_layers := env_num_layers e |}.

Definition set_num_layers (e : JetEngineEnvironmentData) (n : Z) :=
  {| tokenizer_path := tokenizer_path e;
     checkpoint_path := checkpoint_path e;
     checkpoint_format := checkpoint_format e;
     batch_size := batch_size e;
     max_decode_length := max_decode_length e;
     max_input_sequence_length := max_input_sequence_length e;
     cache_sequence_length := cache_sequence_length e;
     bf16_enable := bf16_enable e;
     sharding_config_path := sharding_config_path e;
     shard_on_batch := shard_on_batch e;
     env_n_reps := env_n_reps e;
     cache_shape := cache_shape e;
     env_num_layers := n |}.

(** Reading an attribute of the value [dict.get] returned: [None] has no
    attributes. *)
Definition getattr {A B : Type} (o : option A) (f : A -> B) : result B :=
  match o with
  | Some a => Ok (f a)
  | None => Raise AttributeError
  end.

Definition construct_env_data_from_model_id (F : Flags)
    (repo_id : string) (batch_size input_length output_length : Z)
    : result JetEngineEnvironmentData :=
  let tokenizer_path := os_path_join (_hf_dir F repo_id) "tokenizer.model" in
  let checkpoint_path := _hf_dir F repo_id in
  let checkpoint_format := "safetensors" in
  let shard_on_batch := false in
  let max_cache_length :=
    if 0 <? override_max_cache_length F
    then override_max_cache_length F
    else input_length + output_length in
  let model_info := model_id_to_class !! repo_id in
  n_reps_ ← getattr model_info n_reps;
  let env_data := {|
    tokenizer_path := tokenizer_path;
    checkpoint_path := checkpoint_path;
    checkpoint_format := checkpoint_format;
    batch_size := batch_size;
    max_decode_length := output_length;
    max_input_sequence_length := input_length;
    cache_sequence_length := max_cache_length;
    bf16_enable := true;
    sharding_config_path := "";
    shard_on_batch := shard_on_batch;
    env_n_reps := n_reps_;
    cache_shape := [];
    env_num_layers := 0 |} in
  num_kv_heads_ ← getattr model_info num_kv_heads;
  head_dim_ ← getattr model_info head_dim;
  let env_data := set_cache_shape env_data
    [batch_size; num_kv_heads_; max_cache_length; head_dim_] in
  num_layers_ ← getattr model_info num_layers;
  let env_data := set_num_layers env_data num_layers_ in
  Ok env_data.

(** *** Checkpoint files and the world outside

    A checkpoint tensor has a dtype besides its elements.  The file
    system is seen through [glob.glob], [os.path.exists] and
    [safetensors.safe_open]; a file opened with [safe_open] lists its keys
    with the tensor [get_tensor] returns for each, in the order of
    [f.keys()]. *)

Inductive DType : Type :=
  | float32
  | float16
  | bfloat16
  | int8.

Record StoredTensor : Type := {
  dtype : DType;
  data : Torch.Tensor R;
}.

Record World : Type := {
  glob : string -> list string;
  path_exists : string -> bool;
  safe_open : string -> list (string * StoredTensor);
  environ : gmap string string;
  stdout : list string;
  (** the state of the global random generator *)
  rng : nat;
}.

Definition print (line : string) (W : World) : World :=
  {| glob := glob W; path_exists := path_exists W; safe_open := safe_open W;
     environ := environ W; stdout := stdout W ++ [line]; rng := rng W |}.

Definition next_rng (W : World) : World :=
  {| glob := glob W; path_exists := path_exists W; safe_open := safe_open W;
     environ := environ W; stdout := stdout W; rng := S (rng W) |}.

(** The token handed to the hub: a string, or [True]. *)
Inductive Token : Type :=
  | TokenStr (s : string)
  | TokenTrue.

(** A model object as [from_hf_model_id] returns it.  The Gemma class is
    among the sources; the Llama and Mixtral classes are not, and a model
    of theirs is represented by the arguments of the call that built it. *)
Inductive BuiltModel : Type :=
  | BuiltGemma (m : Gemma.GemmaModel)
  | BuiltOther (cls : ModelClass) (repo_id : string) (env : Gemma.Env) (is_tiny : bool).

(** The weights [load_state_dict] bound to a model, with the flags of the
    call. *)
Record Binding : Type := {
  bound_weights : gmap string StoredTensor;
  assign : bool;
  strict : bool;
}.

(** A model object: its structure and, once [load_state_dict] has run,
    the weights bound to it. *)
Record ModelObject : Type := {
  built : BuiltModel;
  binding : option Binding;
}.

(** What the functions below call that is neither in the sources nor
    modelled above: the numerics of a dtype cast, the Gemma configuration
    table, the Llama and Mixtral constructors, the methods the model
    classes inherit from [torch.nn.Module] and [ModuleBase], the random
    generator, and the hub client.  Each may raise. *)
Class Collaborators : Type := {
  round_to : DType -> R -> R;
  get_model_config : string -> result Gemma.GemmaConfig;
  other_from_hf_model_id :
    ModelClass -> string -> Gemma.Env -> bool -> result unit;
  state_dict : BuiltModel -> list (string * (list nat * DType));
  rand : list nat -> DType -> nat -> Torch.Tensor R;
  convert_hf_weights :
    BuiltModel -> gmap string StoredTensor -> result (gmap string StoredTensor);
  load_state_dict_check :
    BuiltModel -> gmap string StoredTensor -> bool -> bool -> result unit;
  makedirs : string -> M World unit;
  snapshot_download :
    string -> string -> Token -> list string -> M World unit;
}.

Section Loading.

Context `{Collaborators}.

(** [t.to(d)] *)
Definition to (t : StoredTensor) (d : DType) : StoredTensor :=
  {| dtype := d; data := Torch.tmap (round_to d) (data t) |}.

Definition _load_weights (directory : string) : M World (gmap string StoredTensor) :=
  W ← get_state;
  let safetensors_files := glob W (os_path_join directory "*.safetensors") in
  let state_dict :=
    fold_left (fun state_dict file_path =>
      fold_left (fun state_dict '(key, tensor) =>
                   <[key := to tensor bfloat16]> state_dict)
                (safe_open W file_path) state_dict)
      safetensors_files ∅ in
  (* Load the state_dict into the model *)
  if bool_decide (state_dict = ∅)
  then lift (Raise AssertionError)
  else mret state_dict.

(** Every (key, tensor) pair [_load_weights] meets, file by file. *)
Definition tensors_found (W : World) (directory : string) : list (string * StoredTensor) :=
  file_path ← glob W (os_path_join directory "*.safetensors");
  safe_open W file_path.

Definition store (state_dict : gmap string StoredTensor) (entry : string * StoredTensor)
    : gmap string StoredTensor :=
  let '(key, tensor) := entry in <[key := to tensor bfloat16]> state_dict.

Definition _make_random_model_weights (model : BuiltModel)
    : M World (gmap string StoredTensor) :=
  fold_left (fun acc '(key, (val_shape, val_dtype)) =>
      result ← acc;
      W ← get_state;
      let new_weights := {| dtype := val_dtype; data := rand val_shape val_dtype (rng W) |} in
      _ ← modify next_rng;
      mret (<[key := new_weights]> result))
    (state_dict model) (mret ∅).

(** [try: body except HTTPError as e: handler(e); raise e] *)
Definition reraising_HTTPError {A} (body : M World A) (handler : Z -> World -> World)
    : M World A := fun W =>
  match body W with
  | (Raise (HTTPError status_code), W') =>
      (Raise (HTTPError status_code), handler status_code W')
  | other => other
  end.

Definition _hf_download (repo_id dest_directory : string) (hf_token : option string)
    : M World unit :=
  _ ← makedirs dest_directory;
  reraising_HTTPError
    (W ← get_state;
     let falsy (t : option string) :=
       match t with None => true | Some s => String.eqb s "" end in
     let hf_token := if falsy hf_token then environ W !! "HF_TOKEN" else hf_token in
     let token :=
       match hf_token with
       | Some s => if String.eqb s "" then TokenTrue else TokenStr s
       | None => TokenTrue
       end in
     snapshot_download repo_id dest_directory token
       ["model*.safetensors"; "*.json"; "*.model"])
    (fun status_code W =>
       if (status_code =? 401)%Z
       then print "OR, pass `hf_token=...` explicitly."
              (print ("Please use huggingface-cli login to authenticate "
                      +:+ "to download private checkpoints.") W)
       else W).

(** [model_info.model_class.from_hf_model_id(repo_id, env, is_tiny)] *)
Definition class_from_hf_model_id (cls : ModelClass) (repo_id : string)
    (env : Gemma.Env) (is_tiny : bool) : result BuiltModel :=
  match cls with
  | GemmaModel =>
      m ← Gemma.from_hf_model_id get_model_config repo_id env is_tiny;
      Ok (BuiltGemma m)
  | _ =>
      _ ← other_from_hf_model_id cls repo_id env is_tiny;
      Ok (BuiltOther cls repo_id env is_tiny)
  end.

(** [model.load_state_dict(weights, assign=..., strict=...)] *)
Definition load_state_dict (model : ModelObject) (weights : gmap string StoredTensor)
    (assign strict : bool) : result ModelObject :=
  _ ← load_state_dict_check (built model) weights assign strict;
  Ok {| built := built model;
        binding := Some {| bound_weights := weights; assign := assign; strict := strict |} |}.

(** The state of [instantiate_model_from_repo_id]: the world, and the
    environment object it is passed and mutates. *)
Record IState : Type := {
  world : World;
  env : Gemma.Env;
}.

Definition in_world {A} (f : M World A) : M IState A := fun st =>
  let '(r, W) := f (world st) in (r, {| world := W; env := env st |}).

Definition set_env_device (d : string) : M IState unit :=
  modify (fun st => {| world := world st; env := Gemma.set_device (env st) d |}).

Definition instantiate_model_from_repo_id (F : Flags) (repo_id : string)
    : M IState ModelObject :=
  let model_dir := _hf_dir F repo_id in
  st ← get_state;
  _ ← (if negb (internal_use_random_weights F)
          && (negb (path_exists (world st) model_dir)
              || bool_decide (glob (world st) (os_path_join model_dir "*.safetensors") = []))
       then
         (* no weights has been downloaded *)
         in_world (_hf_download repo_id model_dir (Some (hf_token F)))
       else mret tt);
  let model_info := model_id_to_class !! repo_id in
  match model_info with
  | None => lift (Raise AssertionError)
  | Some model_info =>
      _ ← set_env_device "meta";
      st ← get_state;
      model ← lift (class_from_hf_model_id (model_class model_info) repo_id (env st)
                      (internal_use_tiny_model F));
      let model := {| built := model; binding := None |} in
      weights ← (if internal_use_random_weights F || internal_use_tiny_model F
                 then in_world (_make_random_model_weights (built model))
                 else
                   weights ← in_world (_load_weights model_dir);
                   lift (convert_hf_weights (built model) weights));
      lift (load_state_dict model weights true false)
  end.

End Loading.

End FetchModels.

(** ** Small inputs

    Concrete configurations, tensors and worlds on which the definitions
    above are run below. *)

Module Examples.

Import Torch FetchModels Gemma.

(** A vector (3, 4) at batch row 0, position 0, head 0, and the table
    slice that rotates it by a quarter turn. *)
Definition x_3_4 : Tensor R :=
  {| shape := [1; 1; 1; 2];
     elem := fun idx => match idx with [_; _; _; 0] => 3%R | _ => 4%R end |}.

Definition quarter_turn : Tensor (R * R) :=
  {| shape := [1; 1; 1]; elem := fun _ => (0%R, 1%R) |}.

(** Two batch rows, three positions, two heads, integer elements. *)
Definition x_2_3_2_4 : Tensor Z :=
  {| shape := [2; 3; 2; 4];
     elem := fun idx =>
       match idx with
       | [b; s; h; j] => Z.of_nat (1000 * b + 100 * s + 10 * h + j)
       | _ => 0%Z
       end |}.

Definition table_2_3_2 : Tensor (Z * Z) :=
  {| shape := [2; 3; 2];
     elem := fun idx =>
       match idx with
       | [b; s; k] => (Z.of_nat (b + 1), Z.of_nat (10 * s + k + 1))
       | _ => (0%Z, 0%Z)
       end |}.

(** The elements of a tensor, in row-major order. *)
Definition to_list {A} (t : Tensor A) : list A := elem t <$> indices (shape t).

(** A small configuration, with linear layers that repeat the first
    component of their input and a kernel that returns the queries and
    counts its writes to the cache. *)
Definition tiny_config : GemmaConfig := {|
  vocab_size := 4;
  max_position_embeddings := 2;
  num_hidden_layers := 2;
  num_attention_heads := 2;
  num_key_value_heads := 1;
  hidden_size := 4;
  intermediate_size := 8;
  head_dim := 2;
  rms_norm_eps := (1 / 1000000)%R;
  config_device := "cpu";
  rope_theta := None |}.

Definition tiny_env : Env := {|
  device := "cpu"; cache_len := 4; shard_on_batch := false;
  quant_config := {| enable_weight_quantization := false;
                     enable_kv_quantization := false |} |}.

Definition identity_backend : Backend nat := {|
  linear_forward := fun l x =>
    Ok {| shape := removelast (shape x) ++ [Z.to_nat (out_features l)];
          elem := fun idx => elem x (removelast idx ++ [0]) |};
  kernel_forward := fun _ xq _ _ _ writes _ _ _ _ => (Ok xq, S writes);
  rmsnorm_weight := fun n => {| shape := [Z.to_nat (norm_dim n)]; elem := fun _ => 0%R |};
  embedding_forward := fun e tokens =>
    Ok {| shape := shape tokens ++ [Z.to_nat (embedding_dim e)];
          elem := fun idx => IZR (elem tokens (removelast idx)) |};
  embedding_weight := fun e =>
    {| shape := [Z.to_nat (num_embeddings e); Z.to_nat (embedding_dim e)];
       elem := fun _ => 1%R |};
  embedding_weight_scaler := fun _ => None |}.

Definition tiny_args (pos : Z) : ForwardArgs := {|
  arg_tokens := {| shape := [1; 1]; elem := fun _ => 3%Z |};
  arg_input_pos := {| shape := [1]; elem := fun _ => pos |};
  arg_mask := {| shape := [1; 1; 1; 4]; elem := fun _ => 0%R |};
  arg_start := Some {| shape := [1]; elem := fun _ => 3%Z |};
  arg_ragged_batch_index := None;
  arg_ragged_block_index := None |}.


(** A world with one checkpoint file for Gemma 2b, holding one float32
    tensor, and collaborators that accept what they are given. *)
Definition accepting_collaborators : Collaborators := {|
  round_to := fun _ x => x;
  get_model_config := fun _ => Ok tiny_config;
  other_from_hf_model_id := fun _ _ _ _ => Ok tt;
  state_dict := fun _ => [("model.norm.weight", ([4%nat], float32))];
  rand := fun s _ seed => {| Torch.shape := s; Torch.elem := fun _ => INR seed |};
  convert_hf_weights := fun _ weights => Ok weights;
  load_state_dict_check := fun _ _ _ _ => Ok tt;
  makedirs := fun _ => mret tt;
  snapshot_download := fun _ _ _ _ => mret tt |}.

Definition gemma_2b_world : World := {|
  glob := fun pattern =>
    if String.eqb pattern "checkpoints/google/gemma-2b/hf_original/*.safetensors"
    then ["checkpoints/google/gemma-2b/hf_original/model.safetensors"] else [];
  path_exists := fun path => String.eqb path "checkpoints/google/gemma-2b/hf_original";
  safe_open := fun _ =>
    [("model.norm.weight",
      {| dtype := float32;
         data := {| Torch.shape := [4%nat]; Torch.elem := fun _ => 0%R |} |})];
  environ := ∅;
  stdout := [];
  rng := 0 |}.

Definition gemma_2b_state : IState :=
  {| world := gemma_2b_world; FetchModels.env := tiny_env |}.

End Examples.

(** ** Further notions

    Quantities and conditions the properties of the later sections are
    stated with, and two more small inputs. *)

Module Notions.

Import Torch FetchModels.

(** The mean of the squares of the vector at batch row [b], position [s]. *)
Definition mean_square (x : Tensor R) (D b s : nat) : R :=
  (sum_n D (fun i => elem x [b; s; i] * elem x [b; s; i]) / INR D)%R.

(** The world after [n] draws from the random generator. *)
Definition fresh_world (W : World) (n : nat) : World :=
  {| glob := glob W; path_exists := path_exists W; safe_open := safe_open W;
     environ := environ W; stdout := stdout W; rng := rng W + n |}.

(** The token [_hf_download] hands to the hub: the explicit one if it is
    not empty, else the environment's if it is set and not empty, else
    [True]. *)
Definition chosen_token (hf_token : option string) (W : World) : Token :=
  match hf_token with
  | Some (String c s) => TokenStr (String c s)
  | _ =>
      match environ W !! "HF_TOKEN" with
      | Some (String c s) => TokenStr (String c s)
      | _ => TokenTrue
      end
  end.

(** The world after the two lines [_hf_download] prints on a 401. *)
Definition login_hint (W : World) : World :=
  print "OR, pass `hf_token=...` explicitly."
    (print "Please use huggingface-cli login to authenticate to download private checkpoints."
       W).

(** The condition under which [instantiate_model_from_repo_id] goes to
    the hub. *)
Definition needs_download (F : Flags) (repo_id : string) (W : World) : bool :=
  negb (internal_use_random_weights F)
  && (negb (path_exists W (_hf_dir F repo_id))
      || bool_decide (glob W (os_path_join (_hf_dir F repo_id) "*.safetensors") = [])).

(** The flags with [internal_use_tiny_model] set to [b]. *)
Definition with_tiny_model (F : Flags) (b : bool) : Flags :=
  {| working_dir := working_dir F; hf_token := hf_token F;
     internal_use_random_weights := internal_use_random_weights F;
     internal_use_tiny_model := b;
     override_max_cache_length := override_max_cache_length F |}.

(** A quarter turn as an angle, and a tensor of ones. *)
Definition quarter_angle : Tensor R :=
  {| shape := [1; 1; 1]; elem := fun _ => (PI / 2)%R |}.

Definition ones_1_1_4 : Tensor R := {| shape := [1; 1; 4]; elem := fun _ => 1%R |}.

End Notions.

(** * Properties *)

(** ** Fallible computations *)

Lemma bind_Ok {A B : Type} (r : result A) (k : A -> result B) (b : B) :
  r ≫= k = Ok b -> exists a, r = Ok a /\ k a = Ok b.
Proof. destruct r as [a|e]; simpl; [eauto | discriminate]. Qed.

Lemma bind_Ok_l {A B : Type} (a : A) (k : A -> result B) : Ok a ≫= k = k a.
Proof. reflexivity. Qed.

(** ** Stateful computations *)

Lemma M_bind_run {S A B : Type} (m : M S A) (k : A -> M S B) (s : S) :
  (m ≫= k) s
  = match m s with
    | (Ok a, s') => k a s'
    | (Raise e, s') => (Raise e, s')
    end.
Proof. reflexivity. Qed.

Lemma M_bind_lift {S A B : Type} (r : result A) (k : A -> M S B) (s : S) :
  (lift r ≫= k) s
  = match r with
    | Ok a => k a s
    | Raise e => (Raise e, s)
    end.
Proof. rewrite M_bind_run. unfold lift. destruct r; reflexivity. Qed.

Lemma M_bind_Ok {S A B : Type} (m : M S A) (k : A -> M S B) (s s' : S) (b : B) :
  (m ≫= k) s = (Ok b, s') <-> exists a s1, m s = (Ok a, s1) /\ k a s1 = (Ok b, s').
Proof.
  rewrite M_bind_run. destruct (m s) as [[a|e] s1].
  - split; [eauto|]. intros (a' & s1' & Heq & Hk). injection Heq as <- <-. exact Hk.
  - split; [discriminate|]. intros (a' & s1' & Heq & _). discriminate.
Qed.

Lemma lift_Ok {S A : Type} (r : result A) (s s' : S) (a : A) :
  lift r s = (Ok a, s') <-> r = Ok a /\ s' = s.
Proof.
  unfold lift. split.
  - intros Heq. injection Heq as -> ->. auto.
  - intros [-> ->]. reflexivity.
Qed.

(** From a successful run of [lift r ≫= k], the value [r] returned and
    the run of [k]. *)
Ltac run_inversion H x Hx :=
  let s := fresh "s" in
  apply M_bind_Ok in H as (x & s & Hx & H);
  apply lift_Ok in Hx as [Hx ->].

(** ** Tensor operations *)

Module TorchFacts.

Import Torch.

(** *** Indices and row-major addressing *)

Lemma in_range_length (s idx : list nat) :
  in_range s idx = true -> length idx = length s.
Proof.
  revert idx. induction s as [|n s IH]; intros [|i idx]; simpl; try discriminate.
  - reflexivity.
  - intros Hin. apply andb_true_iff in Hin as [_ Hin]. f_equal. apply IH, Hin.
Qed.

Lemma flat_index_lt (s idx : list nat) :
  in_range s idx = true -> (flat_index s idx < numel s)%nat.
Proof.
  revert idx. induction s as [|n s IH]; intros [|i idx]; simpl; try discriminate.
  - lia.
  - intros Hin. apply andb_true_iff in Hin as [Hi Hin].
    apply Nat.ltb_lt in Hi. specialize (IH idx Hin). nia.
Qed.

Lemma unflatten_flat_index (s idx : list nat) :
  in_range s idx = true -> unflatten s (flat_index s idx) = idx.
Proof.
  revert idx. induction s as [|n s IH]; intros [|i idx]; simpl; try discriminate.
  - reflexivity.
  - intros Hin. apply andb_true_iff in Hin as [Hi Hin].
    pose proof (flat_index_lt s idx Hin) as Hlt.
    assert (numel s <> 0)%nat as Hne by lia.
    f_equal.
    + rewrite Nat.div_add_l by assumption.
      rewrite Nat.div_small by assumption. lia.
    + rewrite Nat.add_comm, Nat.Div0.mod_add.
      rewrite Nat.mod_small by assumption. apply IH, Hin.
Qed.

(** A trailing dimension of extent 1 does not change the address. *)
Lemma numel_app_1 (s : list nat) : numel (s ++ [1%nat]) = numel s.
Proof. induction s as [|n s IH]; simpl; [reflexivity | rewrite IH; reflexivity]. Qed.

Lemma flat_index_app_1 (s idx : list nat) :
  length idx = length s ->
  flat_index (s ++ [1%nat]) (idx ++ [0%nat]) = flat_index s idx.
Proof.
  revert idx. induction s as [|n s IH]; intros [|i idx]; simpl; try discriminate.
  - reflexivity.
  - intros Hlen. rewrite numel_app_1, IH by lia. reflexivity.
Qed.

Lemma in_range_app_1 (s idx : list nat) :
  in_range s idx = true -> in_range (s ++ [1%nat]) (idx ++ [0%nat]) = true.
Proof.
  revert idx. induction s as [|n s IH]; intros [|i idx]; simpl; try discriminate.
  - reflexivity.
  - intros Hin. apply andb_true_iff in Hin as [Hi Hin].
    rewrite Hi, IH by assumption. reflexivity.
Qed.

(** *** Shapes that broadcast to themselves *)

Lemma shape_eqb_refl (s : list nat) : shape_eqb s s = true.
Proof. unfold shape_eqb. apply bool_decide_eq_true_2. reflexivity. Qed.

Lemma broadcast_rev_same (r : list nat) : broadcast_rev r r = Ok r.
Proof.
  induction r as [|n r IH]; simpl; [reflexivity|].
  rewrite IH. simpl. rewrite Nat.eqb_refl. reflexivity.
Qed.

Lemma broadcast_shapes_same (s : list nat) : broadcast_shapes s s = Ok s.
Proof.
  unfold broadcast_shapes. rewrite broadcast_rev_same. simpl.
  rewrite rev_involutive. reflexivity.
Qed.

Lemma broadcast_index_same (s idx : list nat) :
  in_range s idx = true -> broadcast_index s idx = idx.
Proof.
  intros Hin. unfold broadcast_index.
  rewrite (in_range_length s idx Hin), Nat.sub_diag, drop_0.
  revert idx Hin. induction s as [|n s IH]; intros [|i idx]; simpl; try discriminate.
  - reflexivity.
  - intros Hin. apply andb_true_iff in Hin as [Hi Hin]. apply Nat.ltb_lt in Hi.
    rewrite IH by assumption.
    destruct (n =? 1)%nat eqn:Hn; [|reflexivity].
    apply Nat.eqb_eq in Hn. f_equal. lia.
Qed.

(** An elementwise operation on two tensors of one shape. *)
Lemma binary_same_shape {A B C} (op : A -> B -> C) (t : Tensor A) (u : Tensor B) :
  shape t = shape u ->
  exists r,
    binary op t u = Ok r
    /\ shape r = shape t
    /\ forall idx, in_range (shape t) idx = true ->
         elem r idx = op (elem t idx) (elem u idx).
Proof.
  intros Hshape. unfold binary. rewrite <- Hshape, broadcast_shapes_same. simpl.
  eexists. split; [reflexivity|]. split; [reflexivity|].
  intros idx Hin. simpl. rewrite broadcast_index_same by assumption. reflexivity.
Qed.

(** *** Sums over a shape *)

Lemma sum_over_cons (n : nat) (s : list nat) (f : list nat -> R) :
  sum_over (n :: s) f = sum_n n (fun i => sum_over s (fun idx => f (i :: idx))).
Proof. reflexivity. Qed.

Lemma sum_seq_ext (g g' : nat -> R) (a n : nat) :
  (forall i, (a <= i < a + n)%nat -> g i = g' i) ->
  fold_right Rplus 0%R (g <$> seq a n) = fold_right Rplus 0%R (g' <$> seq a n).
Proof.
  revert a. induction n as [|n IH]; intros a Hext; simpl; [reflexivity|].
  rewrite Hext by lia. f_equal. apply IH. intros i Hi. apply Hext. lia.
Qed.

Lemma sum_n_ext (n : nat) (g g' : nat -> R) :
  (forall i, (i < n)%nat -> g i = g' i) -> sum_n n g = sum_n n g'.
Proof. intros Hext. apply sum_seq_ext. intros i Hi. apply Hext. lia. Qed.

Lemma sum_seq_shift (g : nat -> R) (a k n : nat) :
  fold_right Rplus 0%R (g <$> seq (a + k) n)
  = fold_right Rplus 0%R ((fun i => g (i + k)%nat) <$> seq a n).
Proof.
  revert a. induction n as [|n IH]; intros a; simpl; [reflexivity|].
  f_equal. apply (IH (S a)).
Qed.

Lemma sum_seq_plus (g g' : nat -> R) (a n : nat) :
  (fold_right Rplus 0 (g <$> seq a n) + fold_right Rplus 0 (g' <$> seq a n))%R
  = fold_right Rplus 0%R ((fun i => g i + g' i)%R <$> seq a n).
Proof.
  revert a. induction n as [|n IH]; intros a; simpl; [lra|].
  rewrite <- IH. unfold fmap. lra.
Qed.

(** A sum over [2K] terms, paired up as the rotary embedding pairs the
    components of a vector: term [j] with term [j + K]. *)
Lemma sum_n_halves (K : nat) (g : nat -> R) :
  sum_n (K + K) g = sum_n K (fun j => (g j + g (j + K)%nat)%R).
Proof.
  unfold sum_n. rewrite seq_app, fmap_app, fold_right_app.
  rewrite <- sum_seq_plus.
  rewrite <- (sum_seq_shift g 0 K K). simpl.
  generalize (fold_right Rplus 0%R (g <$> seq K K)). intros r.
  generalize (seq 0 K). intros l. unfold fmap.
  induction l as [|i l IH]; simpl; [lra|]. rewrite IH. lra.
Qed.

(** *** The operations at the shapes the rotary embedding uses

    Each lemma gives the result of one call: that it succeeds, the shape
    of the tensor it returns, and its elements in terms of the elements
    of the arguments. *)

Lemma chunk_halves {A} (t : Tensor A) (dim : Z) (d K : nat) :
  wrap_dim (ndim t) dim = Ok d ->
  size t d = (K + K)%nat ->
  chunk t 2 dim = Ok [narrow t d 0 K; narrow t d K K].
Proof.
  intros Hd HD. unfold chunk. rewrite Hd. cbn [mbind result_bind Nat.eqb].
  rewrite HD.
  assert ((K + K + 2 - 1) / 2 = K)%nat as ->
    by (symmetry; apply (Nat.div_unique _ 2 _ 1); lia).
  destruct K as [|K]; [reflexivity|]. cbn [Nat.eqb].
  unfold split. rewrite HD.
  assert ((S K + S K + S K - 1) / S K = 2)%nat as ->
    by (symmetry; apply (Nat.div_unique _ (S K) _ K); lia).
  change (Nat.max 2 1) with 2%nat. cbn [seq fmap list_fmap].
  rewrite !Nat.min_l by lia.
  repeat f_equal; lia.
Qed.

Lemma transpose_1_2 {A} (t : Tensor A) (a b c d : nat) :
  shape t = [a; b; c; d] ->
  exists r,
    transpose t 1 2 = Ok r
    /\ shape r = [a; c; b; d]
    /\ forall i j k l, elem r [i; j; k; l] = elem t [i; k; j; l].
Proof.
  intros Hs. unfold transpose, ndim. rewrite Hs.
  eexists. split; [reflexivity|]. split; reflexivity.
Qed.

Lemma chunk_last_4 {A} (t : Tensor A) (a b c K : nat) :
  shape t = [a; b; c; (K + K)%nat] ->
  exists lo hi,
    chunk t 2 (-1) = Ok [lo; hi]
    /\ shape lo = [a; b; c; K] /\ shape hi = [a; b; c; K]
    /\ (forall i j k l, elem lo [i; j; k; l] = elem t [i; j; k; l])
    /\ (forall i j k l, elem hi [i; j; k; l] = elem t [i; j; k; (K + l)%nat]).
Proof.
  intros Hs.
  exists (narrow t 3 0 K), (narrow t 3 K K).
  split.
  { apply chunk_halves.
    - unfold ndim. rewrite Hs. reflexivity.
    - unfold size. rewrite Hs. reflexivity. }
  unfold narrow. simpl. rewrite Hs. repeat split.
Qed.

Lemma chunk_last_5 {A} (t : Tensor A) (a b c d : nat) :
  shape t = [a; b; c; d; 2%nat] ->
  exists lo hi,
    chunk t 2 (-1) = Ok [lo; hi]
    /\ shape lo = [a; b; c; d; 1%nat] /\ shape hi = [a; b; c; d; 1%nat]
    /\ (forall i j k l m, elem lo [i; j; k; l; m] = elem t [i; j; k; l; m])
    /\ (forall i j k l m, elem hi [i; j; k; l; m] = elem t [i; j; k; l; S m]).
Proof.
  intros Hs.
  exists (narrow t 4 0 1), (narrow t 4 1 1).
  split.
  { apply (chunk_halves t (-1) 4 1).
    - unfold ndim. rewrite Hs. reflexivity.
    - unfold size. rewrite Hs. reflexivity. }
  unfold narrow. simpl. rewrite Hs. repeat split.
Qed.

Lemma stack_pair_last {A} (t u : Tensor A) (a b c d : nat) :
  shape t = [a; b; c; d] ->
  shape u = [a; b; c; d] ->
  exists r,
    stack [t; u] (-1) = Ok r
    /\ shape r = [a; b; c; d; 2%nat]
    /\ (forall i j k l, elem r [i; j; k; l; 0%nat] = elem t [i; j; k; l])
    /\ (forall i j k l, elem r [i; j; k; l; 1%nat] = elem u [i; j; k; l]).
Proof.
  intros Ht Hu. unfold stack, ndim. cbn [forallb]. rewrite Ht, Hu, shape_eqb_refl.
  eexists. split; [reflexivity|]. repeat split.
Qed.

Lemma view_as_complex_5 {A} (t : Tensor A) (a b c d : nat) :
  shape t = [a; b; c; d; 2%nat] ->
  exists r,
    view_as_complex t = Ok r
    /\ shape r = [a; b; c; d]
    /\ forall i j k l,
         elem r [i; j; k; l] = (elem t [i; j; k; l; 0%nat], elem t [i; j; k; l; 1%nat]).
Proof.
  intros Hs. unfold view_as_complex. rewrite Hs.
  eexists. split; [reflexivity|]. repeat split.
Qed.

Lemma view_as_real_4 {A} (t : Tensor (A * A)) (a b c d : nat) :
  shape t = [a; b; c; d] ->
  shape (view_as_real t) = [a; b; c; d; 2%nat]
  /\ (forall i j k l, elem (view_as_real t) [i; j; k; l; 0%nat] = (elem t [i; j; k; l]).1)
  /\ (forall i j k l, elem (view_as_real t) [i; j; k; l; 1%nat] = (elem t [i; j; k; l]).2).
Proof. intros Hs. unfold view_as_real. simpl. rewrite Hs. repeat split. Qed.

Lemma infer_size_exact (s : list nat) (n : nat) :
  n = numel s -> infer_size (Z.of_nat <$> s) n = Ok s.
Proof.
  intros ->. unfold infer_size.
  assert (forallb (fun d => (-1 <=? d)%Z) (Z.of_nat <$> s) = true) as ->.
  { induction s as [|k s IH]; [reflexivity|].
    rewrite fmap_cons. cbn [forallb].
    rewrite IH, andb_true_r. apply Z.leb_le. lia. }
  assert (filter (fun d => d ≠ (-1)%Z) (Z.of_nat <$> s) = Z.of_nat <$> s) as ->.
  { induction s as [|k s IH]; [reflexivity|].
    rewrite fmap_cons, filter_cons_True by lia. f_equal. exact IH. }
  rewrite Nat.sub_diag.
  assert (Z.to_nat <$> (Z.of_nat <$> s) = s) as ->.
  { induction s as [|k s IH]; [reflexivity|].
    rewrite !fmap_cons, Nat2Z.id. f_equal. exact IH. }
  rewrite Nat.eqb_refl. reflexivity.
Qed.

Lemma infer_size_last (a b c m n : nat) :
  (0 < a * b * c)%nat ->
  n = (a * b * c * m)%nat ->
  infer_size [Z.of_nat a; Z.of_nat b; Z.of_nat c; (-1)%Z] n = Ok [a; b; c; m].
Proof.
  intros Hpos ->. unfold infer_size.
  assert (forall k, (-1 <=? Z.of_nat k)%Z = true) as Hge
    by (intros k; apply Z.leb_le; lia).
  cbn [forallb]. rewrite !Hge. cbn [andb Z.leb Z.compare Pos.compare Pos.compare_cont].
  rewrite !filter_cons_True by lia.
  rewrite filter_cons_False by (intros Hne; apply Hne; reflexivity).
  rewrite filter_nil.
  cbn [length Nat.sub fmap list_fmap numel fold_right]. rewrite !Nat2Z.id.
  assert (a * (b * (c * 1)) = a * b * c)%nat as -> by lia.
  assert ((0 <? a * b * c)%nat = true) as -> by (apply Nat.ltb_lt; assumption).
  rewrite Nat.mul_comm, Nat.Div0.mod_mul. cbn [Nat.eqb andb].
  rewrite Nat.div_mul by lia.
  assert (forall k, (Z.of_nat k =? -1)%Z = false) as Hne
    by (intros k; apply Z.eqb_neq; lia).
  rewrite !Hne. reflexivity.
Qed.

Lemma binary_broadcast_heads {A B C} (op : A -> B -> C)
    (t : Tensor A) (u : Tensor B) (a b c d : nat) :
  shape t = [a; b; c; d] ->
  shape u = [a; 1%nat; c; d] ->
  exists r,
    binary op t u = Ok r
    /\ shape r = [a; b; c; d]
    /\ forall i j k l, (i < a)%nat -> (j < b)%nat -> (k < c)%nat -> (l < d)%nat ->
         elem r [i; j; k; l] = op (elem t [i; j; k; l]) (elem u [i; 0%nat; k; l]).
Proof.
  intros Ht Hu. unfold binary. rewrite Ht, Hu.
  assert (broadcast_shapes [a; b; c; d] [a; 1%nat; c; d] = Ok [a; b; c; d]) as ->.
  { unfold broadcast_shapes. cbn [rev app broadcast_rev mbind result_bind].
    rewrite !Nat.eqb_refl. destruct (b =? 1)%nat; reflexivity. }
  cbn [mbind result_bind].
  eexists. split; [reflexivity|]. split; [reflexivity|].
  intros i j k l Hi Hj Hk Hl. cbn [elem].
  unfold broadcast_index. cbn [length Nat.sub drop zip_with].
  assert (forall n i0, (i0 < n)%nat -> (if (n =? 1)%nat then 0%nat else i0) = i0) as Hsel.
  { intros n i0 Hlt. destruct (n =? 1)%nat eqn:Hn; [|reflexivity].
    apply Nat.eqb_eq in Hn. lia. }
  rewrite !Hsel by assumption. reflexivity.
Qed.

Lemma cat_pair_rows {A} (t u : Tensor A) (a b c d : nat) :
  shape t = [a; b; c; d; 1%nat] ->
  shape u = [a; b; c; d; 1%nat] ->
  exists r,
    cat [t; u] (-2) = Ok r
    /\ shape r = [a; b; c; (d + d)%nat; 1%nat]
    /\ (forall i j k l m, (l < d)%nat -> elem r [i; j; k; l; m] = elem t [i; j; k; l; m])
    /\ (forall i j k l m, (l < d)%nat ->
          elem r [i; j; k; (d + l)%nat; m] = elem u [i; j; k; l; m]).
Proof.
  intros Ht Hu. unfold cat, Torch.ndim. rewrite Ht.
  change (wrap_dim (length [a; b; c; d; 1%nat]) (-2)) with (Ok (A:=nat) 3%nat).
  rewrite bind_Ok_l. cbn [forallb].
  rewrite Hu, shape_eqb_refl. cbn [andb]. unfold size. cbn [fmap list_fmap]. rewrite Ht, Hu.
  eexists. split; [reflexivity|].
  split; [cbn; f_equal; f_equal; f_equal; f_equal; lia|].
  split.
  - intros i j k l m Hl. cbn [elem lookup list_lookup default from_option cat_at].
    unfold size. rewrite Ht. cbn [lookup list_lookup default from_option].
    unfold Datatypes.id. apply Nat.ltb_lt in Hl. rewrite Hl. reflexivity.
  - intros i j k l m Hl. cbn [elem lookup list_lookup default from_option cat_at].
    unfold size. rewrite Ht, Hu. cbn [lookup list_lookup default from_option].
    unfold Datatypes.id.
    assert ((d + l <? d)%nat = false) as -> by (apply Nat.ltb_ge; lia).
    assert ((d + l - d <? d)%nat = true) as -> by (apply Nat.ltb_lt; lia).
    cbn. repeat f_equal. lia.
Qed.

Lemma reshape_drop_last {A} (t : Tensor A) (a b c d : nat) :
  shape t = [a; b; c; d; 1%nat] ->
  (0 < a)%nat -> (0 < b)%nat -> (0 < c)%nat ->
  exists r,
    reshape t [Z.of_nat a; Z.of_nat b; Z.of_nat c; (-1)%Z] = Ok r
    /\ shape r = [a; b; c; d]
    /\ forall i j k l, (i < a)%nat -> (j < b)%nat -> (k < c)%nat -> (l < d)%nat ->
         elem r [i; j; k; l] = elem t [i; j; k; l; 0%nat].
Proof.
  intros Hs Ha Hb Hc. unfold reshape. rewrite Hs.
  rewrite (infer_size_last a b c d) by (simpl; nia).
  cbn [mbind result_bind].
  eexists. split; [reflexivity|]. split; [reflexivity|].
  intros i j k l Hi Hj Hk Hl. cbn [elem].
  assert (in_range [a; b; c; d] [i; j; k; l] = true) as Hin.
  { simpl. rewrite andb_true_r.
    repeat (apply andb_true_iff; split); apply Nat.ltb_lt; assumption. }
  rewrite <- (flat_index_app_1 [a; b; c; d] [i; j; k; l]) by reflexivity.
  change ([a; b; c; d] ++ [1%nat]) with [a; b; c; d; 1%nat].
  rewrite unflatten_flat_index; [reflexivity|].
  apply (in_range_app_1 [a; b; c; d] [i; j; k; l] Hin).
Qed.

Lemma arange_nonneg (start stop step : Z) :
  (0 < step)%Z -> (start <= stop)%Z ->
  arange start stop step
  = Ok {| shape := [Z.to_nat ((stop - start + step - 1) / step)];
          elem := fun idx => (start + Z.of_nat (default 0%nat (head idx)) * step)%Z |}.
Proof.
  intros Hstep Hle. unfold arange.
  assert ((step <=? 0)%Z = false) as -> by (apply Z.leb_gt; lia).
  assert ((stop <? start)%Z = false) as -> by (apply Z.ltb_ge; lia).
  reflexivity.
Qed.

End TorchFacts.

(** ** third_party/gemma/model.py: the rotary embedding *)

Module RotaryFacts.

Import Torch Gemma TorchFacts Examples.

Lemma reshape_for_broadcast_4 {A B} (f : Tensor A) (x : Tensor B) (a b c d : nat) :
  shape f = [a; c; d] ->
  shape x = [a; b; c; d] ->
  exists r,
    reshape_for_broadcast f x = Ok r
    /\ shape r = [a; 1%nat; c; d]
    /\ forall i k l, (i < a)%nat -> (k < c)%nat -> (l < d)%nat ->
         elem r [i; 0%nat; k; l] = elem f [i; k; l].
Proof.
  intros Hf Hx. unfold reshape_for_broadcast, shape_at, Torch.ndim.
  rewrite Hx, Hf. cbn [length Nat.ltb Nat.leb assert mbind result_bind lookup list_lookup].
  rewrite shape_eqb_refl. cbn [assert mbind result_bind].
  unfold view, reshape. rewrite Hf.
  change (imap _ [a; b; c; d]) with (Z.of_nat <$> [a; 1%nat; c; d]).
  rewrite infer_size_exact by (simpl; lia).
  cbn [mbind result_bind].
  eexists. split; [reflexivity|]. split; [reflexivity|].
  intros i k l Hi Hk Hl. cbn [elem].
  replace (flat_index [a; 1%nat; c; d] [i; 0%nat; k; l])
    with (flat_index [a; c; d] [i; k; l]) by (simpl; lia).
  rewrite unflatten_flat_index; [reflexivity|].
  simpl. rewrite !andb_true_r.
  repeat (apply andb_true_iff; split); apply Nat.ltb_lt; assumption.
Qed.

(** The rotary embedding, element by element: with the last dimension
    split in halves, component [j] of the first half and component [j] of
    the second are the real and imaginary part of a complex number, which
    is multiplied by the table entry for that batch row, position and
    [j]. *)
Section Elements.
Context {A} `{Arith A}.
Lemma apply_rotary_emb_elem (x : Tensor A) (f : Tensor (A*A)) (B S H0 K : nat) :
  shape x = [B; S; H0; (K + K)%nat] ->
  shape f = [B; S; K] ->
  (0 < B)%nat -> (0 < S)%nat -> (0 < H0)%nat ->
  exists out, apply_rotary_emb x f = Ok out
    /\ shape out = [B; S; H0; (K + K)%nat]
    /\ forall b s h j, (b < B)%nat -> (s < S)%nat -> (h < H0)%nat -> (j < K)%nat ->
         let z := cmul (elem x [b; s; h; j], elem x [b; s; h; (K + j)%nat]) (elem f [b; s; j]) in
         elem out [b; s; h; j] = z.1 /\ elem out [b; s; h; (K + j)%nat] = z.2.
Proof.
  intros Hx Hf HB HS HH.
  unfold apply_rotary_emb.
  destruct (transpose_1_2 x _ _ _ _ Hx) as (xt & -> & Hxt & Ext). rewrite bind_Ok_l.
  unfold float.
  destruct (chunk_last_4 xt _ _ _ _ Hxt) as (lo & hi & -> & Hlo & Hhi & Elo & Ehi).
  rewrite bind_Ok_l.
  destruct (stack_pair_last lo hi _ _ _ _ Hlo Hhi) as (st & -> & Hst & Est0 & Est1).
  rewrite bind_Ok_l.
  destruct (view_as_complex_5 st _ _ _ _ Hst) as (x_ & -> & Hx_ & Ex_).
  rewrite bind_Ok_l.
  destruct (reshape_for_broadcast_4 f x_ _ _ _ _ Hf Hx_) as (fb & -> & Hfb & Efb).
  rewrite bind_Ok_l.
  destruct (binary_broadcast_heads cmul x_ fb _ _ _ _ Hx_ Hfb) as (prod & -> & Hprod & Eprod).
  rewrite bind_Ok_l. unfold type_as.
  destruct (view_as_real_4 prod _ _ _ _ Hprod) as (Hre & Ere0 & Ere1).
  destruct (chunk_last_5 _ _ _ _ _ Hre) as (re & im & -> & Hshre & Hshim & Er & Ei).
  rewrite bind_Ok_l.
  destruct (cat_pair_rows re im _ _ _ _ Hshre Hshim) as (ct & -> & Hct & Ect0 & Ect1).
  rewrite bind_Ok_l.
  unfold shape_at. rewrite Hct. cbn [lookup list_lookup]. rewrite !bind_Ok_l.
  destruct (reshape_drop_last ct _ _ _ _ Hct HB HH HS) as (rs & -> & Hrs & Ers).
  rewrite bind_Ok_l.
  destruct (transpose_1_2 rs _ _ _ _ Hrs) as (out & -> & Hout & Eout).
  exists out. split; [reflexivity|]. split; [assumption|].
  intros b s h j Hb Hs Hh Hj. cbv zeta.
  rewrite !Eout, !Ers by lia.
  rewrite Ect0, Ect1 by lia.
  rewrite Er, Ei, Ere0, Ere1, Eprod by lia.
  rewrite Ex_, Est0, Est1, Elo, Ehi, !Ext, Efb by lia.
  split; reflexivity.
Qed.
End Elements.

Lemma rotation_preserves_pair (xr xi c s : R) :
  (c * c + s * s = 1)%R ->
  ((xr * c - xi * s) * (xr * c - xi * s) + (xr * s + xi * c) * (xr * s + xi * c)
   = xr * xr + xi * xi)%R.
Proof.
  intros Hunit.
  replace ((xr * c - xi * s) * (xr * c - xi * s) + (xr * s + xi * c) * (xr * s + xi * c))%R
    with ((xr * xr + xi * xi) * (c * c + s * s))%R by ring.
  rewrite Hunit. ring.
Qed.

(** C2. For a head dimension [dim >= 0], a length [end_ >= 0] and a base
    [theta > 0], [precompute_freqs_cis] returns a table of shape
    [end_ x dim // 2] whose entry at position [t] and index [i] is
    (cos a, sin a) for the angle [a = t / theta ^ (2 i / dim)], a complex
    number of modulus 1.  (Over the reals; [theta ^ e] is the real power.) *)
Theorem precompute_freqs_cis_table (dim end_ : Z) (theta : R) :
  (0 <= dim)%Z -> (0 <= end_)%Z -> (0 < theta)%R ->
  exists table,
    precompute_freqs_cis dim end_ theta = Ok table
    /\ shape table = [Z.to_nat end_; Z.to_nat (dim / 2)]
    /\ forall t i, (t < Z.to_nat end_)%nat -> (i < Z.to_nat (dim / 2))%nat ->
         let angle := (INR t / Rpower theta (2 * INR i / IZR dim))%R in
         elem table [t; i] = (cos angle, sin angle)
         /\ ((elem table [t; i]).1 * (elem table [t; i]).1
             + (elem table [t; i]).2 * (elem table [t; i]).2 = 1)%R.
Proof.
  intros Hdim Hend Htheta. unfold precompute_freqs_cis.
  rewrite (arange_nonneg 0 dim 2) by lia. rewrite bind_Ok_l.
  unfold slice_to at 1. cbn [shape]. 
  assert ((dim / 2 <? 0)%Z = false) as -> by (apply Z.ltb_ge; apply Z.div_pos; lia).
  assert (Nat.min (Z.to_nat (dim / 2)) (Z.to_nat ((dim - 0 + 2 - 1) / 2)) = Z.to_nat (dim / 2)) as ->.
  { apply Nat.min_l. apply Z2Nat.inj_le.
    - apply Z.div_pos; lia.
    - apply Z.div_pos; lia.
    - apply Z.div_le_mono; lia. }
  rewrite bind_Ok_l.
  rewrite (arange_nonneg 0 end_ 1) by lia. rewrite bind_Ok_l.
  replace ((end_ - 0 + 1 - 1) / 1)%Z with end_ by (rewrite Z.div_1_r; lia).
  unfold outer, float, tmap. cbn [shape]. rewrite bind_Ok_l.
  unfold polar, ones_like, tmap. cbn [shape elem].
  match goal with
  | |- context [binary ?op ?a ?b] =>
      destruct (binary_same_shape op a b) as (table & -> & Hshape & Helem);
        [reflexivity|]
  end.
  exists table. split; [reflexivity|]. cbn [shape] in Hshape, Helem.
  split.
  { exact Hshape. }
  intros t i Ht Hi. cbv zeta.
  assert (elem table [t; i]
          = (cos (INR t / Rpower theta (2 * INR i / IZR dim)),
             sin (INR t / Rpower theta (2 * INR i / IZR dim)))) as ->.
  { rewrite Helem.
    - cbn [elem take drop head default from_option].
      unfold Datatypes.id, pow.
      assert (IZR (0 + Z.of_nat t * 1) * (1 / Rpower theta (IZR (0 + Z.of_nat i * 2) / IZR dim))
              = INR t / Rpower theta (2 * INR i / IZR dim))%R as ->.
      { rewrite !Z.add_0_l, Z.mul_1_r, mult_IZR, <- !INR_IZR_INZ.
        replace (INR i * 2)%R with (2 * INR i)%R by ring.
        unfold Rdiv. rewrite Rmult_1_l. reflexivity. }
      f_equal; ring.
    - simpl. rewrite andb_true_r. apply andb_true_iff. split; apply Nat.ltb_lt; lia. }
  split; [reflexivity|]. cbn [fst snd].
  pose proof (sin2_cos2 (INR t / Rpower theta (2 * INR i / IZR dim))) as Hunit.
  unfold Rsqr in Hunit. lra.
Qed.

Lemma precompute_freqs_cis_table_witness :
  exists table,
    precompute_freqs_cis 4 2 10000 = Ok table
    /\ shape table = [Z.to_nat 2; Z.to_nat (4 / 2)]
    /\ forall t i, (t < Z.to_nat 2)%nat -> (i < Z.to_nat (4 / 2))%nat ->
         let angle := (INR t / Rpower 10000 (2 * INR i / IZR 4))%R in
         elem table [t; i] = (cos angle, sin angle)
         /\ ((elem table [t; i]).1 * (elem table [t; i]).1
             + (elem table [t; i]).2 * (elem table [t; i]).2 = 1)%R.
Proof. apply (precompute_freqs_cis_table 4 2 10000); [lia | lia | lra]. Defined.

(** C3. For a tensor [x] of shape (B, S, H, 2K) and a table slice of
    shape (B, S, K) whose entries have modulus 1, [apply_rotary_emb]
    returns a tensor of the shape of [x] in which every rotated pair of
    components (component [j] and component [K + j] of a vector) has the
    Euclidean norm it had in [x]; hence so has every vector, and the whole
    tensor: the norm of the result is the norm of [x].  (Exactly, over the
    reals.) *)
Theorem apply_rotary_emb_preserves_norm
    (x : Tensor R) (freqs_cis : Tensor (R * R)) (B S H K : nat) :
  shape x = [B; S; H; (2 * K)%nat] ->
  shape freqs_cis = [B; S; K] ->
  (0 < B)%nat -> (0 < S)%nat -> (0 < H)%nat ->
  unit_modulus freqs_cis ->
  exists out,
    apply_rotary_emb x freqs_cis = Ok out
    /\ shape out = shape x
    /\ (forall b s h j, (b < B)%nat -> (s < S)%nat -> (h < H)%nat -> (j < K)%nat ->
          (elem out [b; s; h; j] * elem out [b; s; h; j]
           + elem out [b; s; h; (K + j)%nat] * elem out [b; s; h; (K + j)%nat]
           = elem x [b; s; h; j] * elem x [b; s; h; j]
             + elem x [b; s; h; (K + j)%nat] * elem x [b; s; h; (K + j)%nat])%R)
    /\ (forall b s h, (b < B)%nat -> (s < S)%nat -> (h < H)%nat ->
          sum_n (2 * K) (fun j => (elem out [b; s; h; j] * elem out [b; s; h; j])%R)
          = sum_n (2 * K) (fun j => (elem x [b; s; h; j] * elem x [b; s; h; j])%R))
    /\ linalg_norm out = linalg_norm x.
Proof.
  intros Hx Hf HB HS HH Hunit.
  replace (2 * K)%nat with (K + K)%nat in * by lia.
  destruct (apply_rotary_emb_elem x freqs_cis B S H K Hx Hf HB HS HH)
    as (out & Hout & Hshape & Helem).
  assert (forall b s h j, (b < B)%nat -> (s < S)%nat -> (h < H)%nat -> (j < K)%nat ->
            (elem out [b; s; h; j] * elem out [b; s; h; j]
             + elem out [b; s; h; (K + j)%nat] * elem out [b; s; h; (K + j)%nat]
             = elem x [b; s; h; j] * elem x [b; s; h; j]
               + elem x [b; s; h; (K + j)%nat] * elem x [b; s; h; (K + j)%nat])%R)
    as Hpairs.
  { intros b s h j Hb Hs Hh Hj.
    destruct (Helem b s h j Hb Hs Hh Hj) as [-> ->].
    unfold cmul. cbn [fst snd add sub mul R_arith].
    apply rotation_preserves_pair. apply Hunit. rewrite Hf. simpl.
    rewrite andb_true_r. repeat (apply andb_true_iff; split); apply Nat.ltb_lt; assumption. }
  assert (forall b s h, (b < B)%nat -> (s < S)%nat -> (h < H)%nat ->
            sum_n (K + K) (fun j => (elem out [b; s; h; j] * elem out [b; s; h; j])%R)
            = sum_n (K + K) (fun j => (elem x [b; s; h; j] * elem x [b; s; h; j])%R))
    as Hvectors.
  { intros b s h Hb Hs Hh. rewrite !sum_n_halves.
    apply sum_n_ext. intros j Hj.
    rewrite (Nat.add_comm j K). apply Hpairs; assumption. }
  exists out. split; [assumption|]. split; [congruence|].
  split; [assumption|]. split; [assumption|].
  unfold linalg_norm, sqnorm. f_equal. rewrite Hshape, Hx.
  cbn [sum_over].
  apply sum_n_ext. intros b Hb.
  apply sum_n_ext. intros s Hs.
  apply sum_n_ext. intros h Hh.
  apply Hvectors; assumption.
Qed.

Lemma apply_rotary_emb_preserves_norm_witness :
  exists out,
    apply_rotary_emb x_3_4 quarter_turn = Ok out
    /\ shape out = shape x_3_4
    /\ (forall b s h j, (b < 1)%nat -> (s < 1)%nat -> (h < 1)%nat -> (j < 1)%nat ->
          (elem out [b; s; h; j] * elem out [b; s; h; j]
           + elem out [b; s; h; (1 + j)%nat] * elem out [b; s; h; (1 + j)%nat]
           = elem x_3_4 [b; s; h; j] * elem x_3_4 [b; s; h; j]
             + elem x_3_4 [b; s; h; (1 + j)%nat] * elem x_3_4 [b; s; h; (1 + j)%nat])%R)
    /\ (forall b s h, (b < 1)%nat -> (s < 1)%nat -> (h < 1)%nat ->
          sum_n (2 * 1) (fun j => (elem out [b; s; h; j] * elem out [b; s; h; j])%R)
          = sum_n (2 * 1)
              (fun j => (elem x_3_4 [b; s; h; j] * elem x_3_4 [b; s; h; j])%R))
    /\ linalg_norm out = linalg_norm x_3_4.
Proof.
  apply (apply_rotary_emb_preserves_norm x_3_4 quarter_turn 1 1 1 1);
    [reflexivity | reflexivity | lia | lia | lia |].
  intros idx _. simpl. lra.
Defined.

(** The embedding run on integers: each vector (a, b, c, d) is paired as
    (a + c i, b + d i) and each pair multiplied by its table entry. *)
Example apply_rotary_emb_2_3_2_4 :
  (fun out => (shape out, take 8 (to_list out)))
    <$> (match apply_rotary_emb x_2_3_2_4 table_2_3_2 with
         | Ok out => Some out | Raise _ => None end)
  = Some ([2; 3; 2; 4], [-2; -5; 2; 5; -2; -15; 22; 35]%Z).
Proof. vm_compute. reflexivity. Qed.

(** A table slice for another number of positions is refused. *)
Example apply_rotary_emb_wrong_table :
  apply_rotary_emb x_2_3_2_4
    {| shape := [2; 4; 2]; elem := elem table_2_3_2 |} = Raise AssertionError.
Proof. vm_compute. reflexivity. Qed.

(** An odd last dimension cannot be split into pairs. *)
Example apply_rotary_emb_odd :
  apply_rotary_emb {| shape := [1; 1; 1; 5]; elem := fun _ => 0%Z |}
    {| shape := [1; 1; 2]; elem := fun _ => (1%Z, 0%Z) |} = Raise RuntimeError.
Proof. vm_compute. reflexivity. Qed.

End RotaryFacts.

(** ** third_party/gemma/model.py: construction of the attention module *)

Module GemmaAttentionFacts.

Import Gemma Examples.
Local Open Scope Z_scope.

Lemma GemmaAttention_init_zero_kv_heads
    hidden_size num_heads head_dim device env layer_id :
  GemmaAttention_init hidden_size num_heads 0 head_dim device env layer_id
  = Raise ZeroDivisionError.
Proof. reflexivity. Qed.

Lemma GemmaAttention_init_not_divisible
    hidden_size num_heads num_kv_heads head_dim device env layer_id :
  num_kv_heads <> 0 ->
  num_heads mod num_kv_heads <> 0 ->
  GemmaAttention_init hidden_size num_heads num_kv_heads head_dim device env layer_id
  = Raise AssertionError.
Proof.
  intros Hkv Hmod. unfold GemmaAttention_init, py_mod.
  apply Z.eqb_neq in Hkv. rewrite Hkv. simpl.
  apply Z.eqb_neq in Hmod. rewrite Hmod. reflexivity.
Qed.

Lemma GemmaAttention_init_zero_head_dim
    hidden_size num_heads num_kv_heads device env layer_id :
  num_kv_heads <> 0 ->
  num_heads mod num_kv_heads = 0 ->
  GemmaAttention_init hidden_size num_heads num_kv_heads 0 device env layer_id
  = Raise ZeroDivisionError.
Proof.
  intros Hkv Hmod. unfold GemmaAttention_init, py_mod, py_floordiv.
  apply Z.eqb_neq in Hkv. rewrite Hkv. simpl.
  rewrite Hmod. reflexivity.
Qed.

Lemma GemmaAttention_init_divisible
    hidden_size num_heads num_kv_heads head_dim device env layer_id :
  num_kv_heads <> 0 ->
  num_heads mod num_kv_heads = 0 ->
  head_dim <> 0 ->
  exists self,
    GemmaAttention_init hidden_size num_heads num_kv_heads head_dim device env layer_id
    = Ok self
    /\ num_queries_per_kv self = num_heads / num_kv_heads
    /\ Gemma.num_heads self = num_heads
    /\ Gemma.num_kv_heads self = num_kv_heads.
Proof.
  intros Hkv Hmod Hhd. unfold GemmaAttention_init, py_mod, py_floordiv.
  apply Z.eqb_neq in Hkv. rewrite Hkv. simpl.
  rewrite Hmod. simpl.
  unfold pow_neg_half. apply Z.eqb_neq in Hhd. rewrite Hhd.
  destruct (0 <? head_dim); simpl; eexists; repeat split.
Qed.

(** Eight query heads sharing one kv head divide evenly, and with a head
    dimension of zero construction still fails: [head_dim ** -0.5] raises
    [ZeroDivisionError]. *)
Lemma GemmaAttention_init_divisible_fails :
  8 mod 1 = 0
  /\ GemmaAttention_init 2048 8 1 0 "meta" tiny_env 0 = Raise ZeroDivisionError.
Proof. split; reflexivity. Qed.

(** C4 (as amended). Constructing [GemmaAttention] with [num_heads] not
    evenly divisible by [num_kv_heads] fails at construction (the
    assertion fails; a zero [num_kv_heads] fails the division before it);
    when divisible and [head_dim] is not zero, the attributes are set up
    and [num_queries_per_kv = num_heads // num_kv_heads]. *)
Theorem GemmaAttention_init_divisibility
    hidden_size num_heads num_kv_heads head_dim device env layer_id :
  (num_kv_heads = 0 \/ num_heads mod num_kv_heads <> 0 ->
   is_ok (GemmaAttention_init hidden_size num_heads num_kv_heads head_dim
            device env layer_id) = false)
  /\ (num_kv_heads <> 0 ->
      num_heads mod num_kv_heads = 0 ->
      head_dim <> 0 ->
      exists self,
        GemmaAttention_init hidden_size num_heads num_kv_heads head_dim device env layer_id
        = Ok self
        /\ num_queries_per_kv self = num_heads / num_kv_heads).
Proof.
  split.
  - intros Hbad. destruct (Z.eq_dec num_kv_heads 0) as [->|Hkv].
    + rewrite GemmaAttention_init_zero_kv_heads. reflexivity.
    + destruct Hbad as [?|Hmod]; [contradiction|].
      rewrite GemmaAttention_init_not_divisible by assumption. reflexivity.
  - intros Hkv Hmod Hhd.
    destruct (GemmaAttention_init_divisible hidden_size num_heads num_kv_heads head_dim
                device env layer_id Hkv Hmod Hhd) as [self [Hok [Hq _]]].
    eauto.
Qed.

Lemma GemmaAttention_init_divisibility_witness :
  exists self,
    GemmaAttention_init 2048 8 1 256 "meta" tiny_env 0 = Ok self
    /\ num_queries_per_kv self = 8 / 1.
Proof.
  apply (proj2 (GemmaAttention_init_divisibility 2048 8 1 256 "meta" tiny_env 0));
    [lia | reflexivity | lia].
Defined.

Example GemmaAttention_init_8_over_3 :
  GemmaAttention_init 2048 8 3 256 "meta" tiny_env 0 = Raise AssertionError.
Proof. reflexivity. Qed.

End GemmaAttentionFacts.

(** ** third_party/gemma/model.py: the decoder layer and the model *)

Module GemmaModelFacts.

Import Torch Gemma Examples.

#[local] Existing Instance identity_backend.

Section ForwardFacts.

Context {Cache : Type} `{Backend Cache}.

(** C6. [GemmaDecoderLayer.forward] returns [out], leaving the cache as
    [cache'], exactly when: the input layer norm of [x] gives [n1];
    attention on [n1] (with the cache and cursors passed in) gives [a] and
    leaves the cache as [cache']; the residual sum [x + a] is [h1]; the
    post-attention layer norm of [h1] gives [n2]; the feed-forward block
    on [n2] gives [m]; and the residual sum [h1 + m] is [out].  Each step
    consumes the result of the one before, which fixes their order. *)
Theorem GemmaDecoderLayer_forward_residuals
    (self : GemmaDecoderLayer) (x : FTensor) (freqs_cis : CTensor) (mask : FTensor)
    (start end_ ragged_batch_index ragged_block_index : option ITensor)
    (cache cache' : Cache) (out : FTensor) :
  GemmaDecoderLayer_forward self x freqs_cis mask start end_
    ragged_batch_index ragged_block_index cache = (Ok out, cache')
  <-> exists n1 a h1 n2 m,
        RMSNorm_forward (input_layernorm self) x = Ok n1
        /\ GemmaAttention_forward (self_attn self) n1 freqs_cis mask start end_
             ragged_batch_index ragged_block_index cache = (Ok a, cache')
        /\ binary Rplus x a = Ok h1
        /\ RMSNorm_forward (post_attention_layernorm self) h1 = Ok n2
        /\ GemmaMLP_forward (mlp self) n2 = Ok m
        /\ binary Rplus h1 m = Ok out.
Proof.
  unfold GemmaDecoderLayer_forward. split.
  - intros Hrun.
    run_inversion Hrun n1 Hn1.
    apply M_bind_Ok in Hrun as (a & c & Ha & Hrun).
    run_inversion Hrun h1 Hh1.
    run_inversion Hrun n2 Hn2.
    run_inversion Hrun m Hm.
    run_inversion Hrun o Ho.
    injection Hrun as <- <-.
    exists n1, a, h1, n2, m. repeat split; assumption.
  - intros (n1 & a & h1 & n2 & m & Hn1 & Ha & Hh1 & Hn2 & Hm & Ho).
    rewrite M_bind_lift, Hn1, M_bind_run, Ha.
    rewrite M_bind_lift, Hh1, M_bind_lift, Hn2, M_bind_lift, Hm, M_bind_lift, Ho.
    reflexivity.
Qed.

(** *** The calls a forward pass makes to the decoder layers *)

Lemma with_cache_frame {A} (i : nat) (f : M Cache A) (st : State) :
  self_ (with_cache i f st).2 = self_ st
  /\ calls (with_cache i f st).2 = calls st.
Proof.
  unfold with_cache. destruct (caches st !! i) as [cache|]; [|auto].
  destruct (f cache) as [r cache']. auto.
Qed.

Lemma log_call_run (c : LayerCall) (st : State (Cache:=Cache)) :
  log_call c st
  = (Ok tt, {| self_ := self_ st; caches := caches st; calls := calls st ++ [c] |}).
Proof. reflexivity. Qed.

(** What the loop over the layers adds to the record of calls: one call
    per layer reached, each with the [start] and [end_] the loop was
    given; the model object is left alone. *)
Lemma forward_layers_calls (self : GemmaModel) (ids : list nat)
    (hidden_states : FTensor) (freqs_cis : CTensor) (mask : FTensor)
    (start end_ rbi rbk : option ITensor) (st : State) :
  let run := forward_layers self ids hidden_states freqs_cis mask start end_ rbi rbk st in
  self_ run.2 = self_ st
  /\ exists new_calls,
       calls run.2 = calls st ++ new_calls
       /\ Forall (fun c => call_start c = start /\ call_end c = end_) new_calls
       /\ (is_ok run.1 = true -> call_layer <$> new_calls = ids).
Proof.
  revert hidden_states st.
  induction ids as [|i ids IH]; intros hidden_states st; simpl.
  - split; [reflexivity|]. exists []. rewrite app_nil_r. auto.
  - destruct (layers self !! i) as [layer|]; simpl.
    2: { split; [reflexivity|]. exists []. rewrite app_nil_r.
         repeat split; [constructor | discriminate]. }
    rewrite M_bind_run.
    destruct (with_cache_frame i (mret tt) st) as [Hself0 Hcalls0].
    destruct (with_cache i (mret tt) st) as [[[]|e0] st0]; simpl in Hself0, Hcalls0.
    2: { split; [assumption|]. exists []. rewrite app_nil_r.
         repeat split; [assumption | constructor | discriminate]. }
    rewrite M_bind_run, log_call_run. cbv beta iota.
    rewrite M_bind_run.
    match goal with
    | |- context [with_cache i ?f ?s] =>
        destruct (with_cache_frame i f s) as [Hself1 Hcalls1];
        destruct (with_cache i f s) as [[h1|e1] st1]
    end; simpl in Hself1, Hcalls1.
    + specialize (IH h1 st1). simpl in IH.
      destruct IH as [Hself2 (rest & Hcalls2 & Hall & Hids)].
      split; [congruence|].
      eexists (_ :: rest). split; [|split].
      * rewrite Hcalls2, Hcalls1, Hcalls0, <- app_assoc. reflexivity.
      * constructor; [split; reflexivity | assumption].
      * intros Hok. simpl. f_equal. apply Hids, Hok.
    + split; [simpl; congruence|].
      eexists [_]. split; [|split].
      * simpl. rewrite Hcalls1, Hcalls0. reflexivity.
      * constructor; [split; reflexivity | constructor].
      * discriminate.
Qed.

(** A forward pass leaves the model object as it found it. *)
Lemma GemmaModel_forward_self (tokens input_pos : ITensor) (mask : FTensor)
    (start rbi rbk : option ITensor) (st : State) :
  self_ (GemmaModel_forward tokens input_pos mask start rbi rbk st).2 = self_ st.
Proof.
  unfold GemmaModel_forward.
  rewrite M_bind_run. unfold get_state at 1.
  rewrite M_bind_lift.
  destruct (shape tokens) as [|bsz [|seqlen [|]]]; try reflexivity.
  rewrite M_bind_run. unfold get_buffer at 1.
  destruct (buffers (self_ st) !! "freqs_cis") as [table|]; [|reflexivity].
  rewrite M_bind_lift. destruct (index table input_pos) as [f1|]; [|reflexivity].
  rewrite M_bind_lift. destruct (reshape f1 _) as [f2|]; [|reflexivity].
  rewrite M_bind_lift.
  destruct (embedding_forward (embedder (self_ st)) tokens) as [h0|]; [|reflexivity].
  rewrite M_bind_lift.
  destruct (end_cursor (self_ st) start input_pos) as [end_|]; [|reflexivity].
  rewrite M_bind_run.
  match goal with
  | |- context [forward_layers ?m ?ids ?h ?f ?k ?s ?e ?a ?b ?st0] =>
      destruct (forward_layers_calls m ids h f k s e a b st0) as [Hself _];
      destruct (forward_layers m ids h f k s e a b st0) as [[h1|] st1]
  end; simpl in Hself; [|assumption].
  rewrite M_bind_lift. destruct (RMSNorm_forward _ h1) as [h2|]; [|assumption].
  rewrite M_bind_lift.
  match goal with |- context [match ?w with Ok _ => _ | Raise _ => _ end] =>
    destruct w as [w1|] end; [|assumption].
  rewrite M_bind_lift. destruct (t_ w1) as [wt|]; [|assumption].
  rewrite M_bind_lift. destruct (matmul h2 wt) as [logits|]; assumption.
Qed.

(** The end cursor of two tensors of one shape, element by element. *)
Lemma end_cursor_elements (self : GemmaModel) (start input_pos e : ITensor) :
  shape start = shape input_pos ->
  end_cursor self (Some start) input_pos = Ok (Some e) ->
  shape e = shape start
  /\ forall idx, in_range (shape start) idx = true ->
       elem e idx = ((elem start idx + elem input_pos idx) mod cache_len (env self))%Z.
Proof.
  intros Hshape Hend. unfold end_cursor in Hend.
  destruct (TorchFacts.binary_same_shape Z.add start input_pos Hshape)
    as (sum & Hsum & Hsum_shape & Hsum_elem).
  rewrite Hsum, bind_Ok_l in Hend. unfold remainder in Hend.
  destruct (cache_len (env self) =? 0)%Z; [discriminate|].
  injection Hend as <-. split; [exact Hsum_shape|].
  intros idx Hin. simpl. rewrite Hsum_elem by assumption. reflexivity.
Qed.

(** C1. In every call of [GemmaModel.forward], each call made to a
    decoder layer passes on [start] unchanged and, as the end cursor,
    [None] when [start] is [None] and otherwise the tensor
    [(start + input_pos) % cache_len] for the environment's cache length
    (elementwise, the sum being broadcast).  When the pass returns, the
    layers were called once each, in order. *)
Theorem GemmaModel_forward_end_cursor (tokens input_pos : ITensor) (mask : FTensor)
    (start rbi rbk : option ITensor) (st : State) :
  let run := GemmaModel_forward tokens input_pos mask start rbi rbk st in
  exists new_calls,
    calls run.2 = calls st ++ new_calls
    /\ (forall c, c ∈ new_calls ->
          call_start c = start
          /\ match start with
             | None => call_end c = None
             | Some start =>
                 exists sum,
                   binary Z.add start input_pos = Ok sum
                   /\ call_end c
                      = Some (tmap (fun a => (a mod cache_len (env (self_ st)))%Z) sum)
             end)
    /\ (is_ok run.1 = true ->
        call_layer <$> new_calls = seq 0 (length (layers (self_ st)))).
Proof.
  cbv zeta.
  set (P := fun run : result FTensor * State (Cache:=Cache) =>
    exists new_calls,
      calls run.2 = calls st ++ new_calls
      /\ (forall c, c ∈ new_calls ->
            call_start c = start
            /\ match start with
               | None => call_end c = None
               | Some start =>
                   exists sum,
                     binary Z.add start input_pos = Ok sum
                     /\ call_end c
                        = Some (tmap (fun a => (a mod cache_len (env (self_ st)))%Z) sum)
               end)
      /\ (is_ok run.1 = true ->
          call_layer <$> new_calls = seq 0 (length (layers (self_ st))))).
  change (P (GemmaModel_forward tokens input_pos mask start rbi rbk st)).
  assert (forall e, P (Raise e, st)) as Hnone.
  { intros e. exists []. simpl. rewrite app_nil_r. repeat split.
    - inversion H0.
    - inversion H0.
    - discriminate. }
  unfold GemmaModel_forward.
  rewrite M_bind_run. unfold get_state at 1.
  rewrite M_bind_lift.
  destruct (shape tokens) as [|bsz [|seqlen [|]]]; try apply Hnone.
  rewrite M_bind_run. unfold get_buffer at 1.
  destruct (buffers (self_ st) !! "freqs_cis") as [table|]; [|apply Hnone].
  rewrite M_bind_lift.
  destruct (index table input_pos) as [f1|e]; [|apply Hnone].
  rewrite M_bind_lift. destruct (reshape f1 _) as [f2|e]; [|apply Hnone].
  rewrite M_bind_lift.
  destruct (embedding_forward (embedder (self_ st)) tokens) as [h0|e]; [|apply Hnone].
  rewrite M_bind_lift.
  destruct (end_cursor (self_ st) start input_pos) as [end_|e] eqn:Hend; [|apply Hnone].
  clear Hnone.
  assert (match start with
          | None => end_ = None
          | Some start =>
              exists sum,
                binary Z.add start input_pos = Ok sum
                /\ end_ = Some (tmap (fun a => (a mod cache_len (env (self_ st)))%Z) sum)
          end) as Hcursor.
  { unfold end_cursor in Hend. destruct start as [s|].
    - apply bind_Ok in Hend as (sum & Hsum & Hend).
      apply bind_Ok in Hend as (e & Hrem & Hend).
      injection Hend as <-. exists sum. split; [assumption|].
      unfold remainder in Hrem.
      destruct (cache_len (env (self_ st)) =? 0)%Z; [discriminate|].
      injection Hrem as <-. reflexivity.
    - injection Hend as <-. reflexivity. }
  rewrite M_bind_run.
  match goal with
  | |- context [forward_layers ?m ?ids ?h ?f ?k ?s ?e ?a ?b ?st0] =>
      destruct (forward_layers_calls m ids h f k s e a b st0)
        as [_ (new_calls & Hcalls & Hall & Hids)];
      destruct (forward_layers m ids h f k s e a b st0) as [r1 st1]
  end; simpl in Hcalls, Hids.
  assert (forall r, (is_ok r = true -> is_ok r1 = true) -> P (r, st1)) as Hdone.
  { intros r Hr. exists new_calls. split; [assumption|]. split.
    - intros c Hc. rewrite Forall_forall in Hall. destruct (Hall c Hc) as [-> ->].
      split; [reflexivity|]. destruct start; assumption.
    - intros Hok. apply Hids, Hr, Hok. }
  destruct r1 as [h1|e1]; [|apply Hdone; auto].
  rewrite M_bind_lift.
  destruct (RMSNorm_forward _ h1) as [h2|]; [|apply Hdone; auto].
  rewrite M_bind_lift.
  match goal with |- context [match ?w with Ok _ => _ | Raise _ => _ end] =>
    destruct w as [w1|] end; [|apply Hdone; auto].
  rewrite M_bind_lift. destruct (t_ w1) as [wt|]; [|apply Hdone; auto].
  rewrite M_bind_lift. destruct (matmul h2 wt) as [logits|]; apply Hdone; auto.
Qed.

(** *** The rotary table of a model *)

Lemma forward_calls_self (args : list ForwardArgs) (st : State (Cache:=Cache)) :
  self_ (forward_calls args st) = self_ st.
Proof.
  unfold forward_calls. revert st.
  induction args as [|a args IH]; intros st; simpl.
  - reflexivity.
  - rewrite IH. apply GemmaModel_forward_self.
Qed.

Lemma GemmaModel_init_buffers (config : GemmaConfig) (env : Env) (m : GemmaModel) :
  GemmaModel_init config env = Ok m ->
  exists table,
    precompute_freqs_cis (head_dim config) (max_position_embeddings config * 2)
      (default 10000%R (rope_theta config)) = Ok table
    /\ buffers m = {["freqs_cis" := table]}.
Proof.
  unfold GemmaModel_init. intros Hinit.
  apply bind_Ok in Hinit as (ls & _ & Hinit).
  apply bind_Ok in Hinit as (table & Htable & Hinit).
  injection Hinit as <-. exists table. split; [assumption|].
  unfold register_buffer. simpl. apply insert_empty.
Qed.

(** C7. The model's [freqs_cis] buffer is the table
    [precompute_freqs_cis(head_dim, 2 * max_position_embeddings, rope_theta)]
    computed and registered by the constructor, and after any sequence of
    forward passes, on any caches, it is still that table. *)
Theorem freqs_cis_fixed_at_construction
    (config : GemmaConfig) (env : Env) (m : GemmaModel)
    (caches0 : list Cache) (args : list ForwardArgs) :
  GemmaModel_init config env = Ok m ->
  exists table,
    precompute_freqs_cis (head_dim config) (max_position_embeddings config * 2)
      (default 10000%R (rope_theta config)) = Ok table
    /\ buffers m !! "freqs_cis" = Some table
    /\ buffers (self_ (forward_calls args
                         {| self_ := m; caches := caches0; calls := [] |}))
         !! "freqs_cis" = Some table.
Proof.
  intros Hinit.
  destruct (GemmaModel_init_buffers config env m Hinit) as (table & Htable & Hbuf).
  exists table. split; [assumption|].
  rewrite forward_calls_self. simpl.
  rewrite Hbuf, lookup_singleton_eq. auto.
Qed.

End ForwardFacts.

Lemma GemmaModel_init_config (config : GemmaConfig) (env : Env) (m : GemmaModel) :
  GemmaModel_init config env = Ok m -> Gemma.config m = config /\ Gemma.env m = env.
Proof.
  unfold GemmaModel_init. intros Hinit.
  apply bind_Ok in Hinit as (ls & _ & Hinit).
  apply bind_Ok in Hinit as (table & _ & Hinit).
  injection Hinit as <-. split; reflexivity.
Qed.

(** A Gemma model built by [from_hf_model_id] has a configuration whose
    device is "meta", whatever the configuration table says. *)
Lemma from_hf_model_id_meta get_model_config model_id env is_tiny (m : GemmaModel) :
  from_hf_model_id get_model_config model_id env is_tiny = Ok m ->
  config_device (Gemma.config m) = "meta".
Proof.
  unfold from_hf_model_id. intros Hm.
  destruct (hf_model_names !! model_id) as [name|]; [|discriminate].
  apply bind_Ok in Hm as (_ & _ & Hm).
  apply bind_Ok in Hm as (args & _ & Hm).
  apply GemmaModel_init_config in Hm as [-> _]. reflexivity.
Qed.

Lemma tiny_model_builds : is_ok (GemmaModel_init tiny_config tiny_env) = true.
Proof. reflexivity. Qed.

(** One decode step at position 1 of a sequence that starts at slot 3 of a
    cache of length 4: both layers are called with end cursor
    (3 + 1) mod 4 = 0, each writes to its own cache once, and the pass
    returns logits of shape (1, 1, vocab_size). *)
Example tiny_forward_calls :
  match GemmaModel_init tiny_config tiny_env with
  | Raise _ => None
  | Ok m =>
      let run := forward_call (tiny_args 1) {| self_ := m; caches := [0; 0]; calls := [] |} in
      Some (shape <$> (match run.1 with Ok t => Some t | Raise _ => None end),
            caches run.2,
            (fun c => (call_layer c, (fun e => elem e [0]) <$> call_end c)) <$> calls run.2)
  end
  = Some (Some [1; 1; 4], [1; 1], [(0, Some 0%Z); (1, Some 0%Z)]).
Proof. vm_compute. reflexivity. Qed.

Lemma freqs_cis_fixed_at_construction_witness :
  exists m table,
    GemmaModel_init tiny_config tiny_env = Ok m
    /\ precompute_freqs_cis 2 (2 * 2) 10000%R = Ok table
    /\ buffers m !! "freqs_cis" = Some table
    /\ buffers (self_ (forward_calls [tiny_args 0; tiny_args 1]
                         {| self_ := m; caches := [0; 0]; calls := [] |}))
         !! "freqs_cis" = Some table.
Proof.
  destruct (GemmaModel_init tiny_config tiny_env) as [m|e] eqn:Hinit.
  - destruct (freqs_cis_fixed_at_construction tiny_config tiny_env m [0; 0]
                [tiny_args 0; tiny_args 1] Hinit) as (table & Htable & Hbuf & Hafter).
    exists m, table. auto.
  - pose proof tiny_model_builds as Hok. rewrite Hinit in Hok. discriminate Hok.
Defined.

End GemmaModelFacts.

(** ** fetch_models.py *)

Module FetchModelsFacts.

Import FetchModels Examples.

#[local] Existing Instance accepting_collaborators.
Local Open Scope Z_scope.

(** The keys of the dict literal are pairwise distinct. *)
Lemma model_id_table_NoDup : NoDup (model_id_table.*1).
Proof. apply (bool_decide_unpack _). vm_compute. exact I. Qed.

Lemma model_id_to_class_lookup repo_id info :
  model_id_to_class !! repo_id = Some info <-> (repo_id, info) ∈ model_id_table.
Proof.
  unfold model_id_to_class. symmetry.
  apply elem_of_list_to_map, model_id_table_NoDup.
Qed.

Example lookup_gemma_2b : model_id_to_class !! "google/gemma-2b" = Some _gemma_2b.
Proof. apply model_id_to_class_lookup. set_solver. Qed.

Example lookup_unknown : model_id_to_class !! "google/gemma-9b" = None.
Proof. vm_compute. reflexivity. Qed.

(** The value [construct_env_data_from_model_id] returns for a model of
    the table. *)
Lemma construct_env_data_known F repo_id info batch_size input_length output_length :
  model_id_to_class !! repo_id = Some info ->
  construct_env_data_from_model_id F repo_id batch_size input_length output_length
  = Ok (set_num_layers
          (set_cache_shape
             {| tokenizer_path := os_path_join (_hf_dir F repo_id) "tokenizer.model";
                checkpoint_path := _hf_dir F repo_id;
                checkpoint_format := "safetensors";
                batch_size := batch_size;
                max_decode_length := output_length;
                max_input_sequence_length := input_length;
                cache_sequence_length :=
                  if 0 <? override_max_cache_length F
                  then override_max_cache_length F
                  else input_length + output_length;
                bf16_enable := true;
                sharding_config_path := "";
                shard_on_batch := false;
                env_n_reps := n_reps info;
                cache_shape := [];
                env_num_layers := 0 |}
             [batch_size; num_kv_heads info;
              if 0 <? override_max_cache_length F
              then override_max_cache_length F
              else input_length + output_length;
              head_dim info])
          (num_layers info)).
Proof.
  intros Hinfo. unfold construct_env_data_from_model_id.
  rewrite Hinfo. reflexivity.
Qed.

Lemma construct_env_data_unknown F repo_id batch_size input_length output_length :
  model_id_to_class !! repo_id = None ->
  construct_env_data_from_model_id F repo_id batch_size input_length output_length
  = Raise AttributeError.
Proof.
  intros Hnone. unfold construct_env_data_from_model_id.
  rewrite Hnone. reflexivity.
Qed.

(** C5. For a repo_id of the supported-model table,
    [construct_env_data_from_model_id] returns environment data whose cache
    sequence length is the override flag when that is strictly positive and
    [input_length + output_length] otherwise, and whose cache shape is
    (batch_size, num_kv_heads, cache length, head_dim) with the kv-head
    count and head dimension of that model. *)
Theorem construct_env_data_cache_shape
    F repo_id info batch_size input_length output_length :
  model_id_to_class !! repo_id = Some info ->
  exists env_data,
    construct_env_data_from_model_id F repo_id batch_size input_length output_length
    = Ok env_data
    /\ (0 < override_max_cache_length F ->
        cache_sequence_length env_data = override_max_cache_length F)
    /\ (override_max_cache_length F <= 0 ->
        cache_sequence_length env_data = input_length + output_length)
    /\ cache_shape env_data
       = [batch_size; num_kv_heads info; cache_sequence_length env_data; head_dim info].
Proof.
  intros Hinfo. eexists. split.
  { apply construct_env_data_known, Hinfo. }
  simpl. repeat split.
  - intros Hpos. apply Z.ltb_lt in Hpos. rewrite Hpos. reflexivity.
  - intros Hnonpos. apply Z.ltb_ge in Hnonpos. rewrite Hnonpos. reflexivity.
Qed.

Lemma construct_env_data_cache_shape_witness :
  exists env_data,
    construct_env_data_from_model_id default_flags "google/gemma-2b" 4 1024 1024
    = Ok env_data
    /\ (0 < override_max_cache_length default_flags ->
        cache_sequence_length env_data = override_max_cache_length default_flags)
    /\ (override_max_cache_length default_flags <= 0 ->
        cache_sequence_length env_data = 1024 + 1024)
    /\ cache_shape env_data
       = [4; num_kv_heads _gemma_2b; cache_sequence_length env_data; head_dim _gemma_2b].
Proof.
  apply (construct_env_data_cache_shape default_flags "google/gemma-2b" _gemma_2b).
  vm_compute. reflexivity.
Defined.

Example construct_env_data_gemma_2b :
  cache_shape <$> (match construct_env_data_from_model_id default_flags
                           "google/gemma-2b" 4 1024 1024 with
                   | Ok e => Some e | Raise _ => None end)
  = Some [4; 1; 2048; 256].
Proof. vm_compute. reflexivity. Qed.

(** C9. [construct_env_data_from_model_id] raises (an [AttributeError],
    from reading a field of the [None] the table lookup returned) exactly
    for the repo_ids that are not keys of [model_id_to_class], and
    returns environment data exactly for the ones that are. *)
Theorem construct_env_data_unknown_model_raises
    F repo_id batch_size input_length output_length :
  (repo_id ∉ dom model_id_to_class <->
   construct_env_data_from_model_id F repo_id batch_size input_length output_length
   = Raise AttributeError)
  /\ (repo_id ∈ dom model_id_to_class <->
      exists env_data,
        construct_env_data_from_model_id F repo_id batch_size input_length output_length
        = Ok env_data).
Proof.
  rewrite not_elem_of_dom, elem_of_dom.
  destruct (model_id_to_class !! repo_id) as [info|] eqn:Hinfo.
  - rewrite (construct_env_data_known _ _ _ _ _ _ Hinfo). split; split.
    + discriminate.
    + discriminate.
    + eauto.
    + eauto.
  - rewrite (construct_env_data_unknown _ _ _ _ _ Hinfo). split; split.
    + reflexivity.
    + reflexivity.
    + intros [? ?]. discriminate.
    + intros [? ?]. discriminate.
Qed.

Example construct_env_data_gemma_9b :
  construct_env_data_from_model_id default_flags "google/gemma-9b" 4 1024 1024
  = Raise AttributeError.
Proof. vm_compute. reflexivity. Qed.

(** *** Loading weights *)

Section LoadingFacts.

Context `{Collaborators}.

Lemma fold_files_flat (so : string -> list (string * StoredTensor)) files init :
  fold_left (fun state_dict file_path => fold_left store (so file_path) state_dict)
            files init
  = fold_left store (file_path ← files; so file_path) init.
Proof.
  revert init. induction files as [|f files IH]; intros init; simpl.
  - reflexivity.
  - rewrite fold_left_app. apply IH.
Qed.

Lemma store_all_empty entries init :
  fold_left store entries init = ∅ <-> entries = [] /\ init = ∅.
Proof.
  revert init. induction entries as [|[key tensor] entries IH]; intros init; simpl.
  - split; [auto | intros [_ ?]; assumption].
  - rewrite IH. split.
    + intros [_ Hemp]. exfalso. revert Hemp. apply insert_non_empty.
    + intros [? _]. discriminate.
Qed.

Lemma store_all_bfloat16 entries init :
  map_Forall (fun _ t => dtype t = bfloat16) init ->
  map_Forall (fun _ t => dtype t = bfloat16) (fold_left store entries init).
Proof.
  revert init. induction entries as [|[key tensor] entries IH]; intros init Hinit; simpl.
  - assumption.
  - apply IH. apply map_Forall_insert_2; [reflexivity | assumption].
Qed.

Lemma _load_weights_unfold directory W :
  _load_weights directory W
  = (if bool_decide (fold_left store (tensors_found W directory) ∅ = ∅)
     then Raise AssertionError
     else Ok (fold_left store (tensors_found W directory) ∅), W).
Proof.
  unfold _load_weights, tensors_found.
  rewrite <- (fold_files_flat (safe_open W)).
  unfold mbind, M_bind, get_state.
  change (fun (state_dict : gmap string StoredTensor) '(key, tensor) =>
            <[key := to tensor bfloat16]> state_dict) with store.
  case_bool_decide; reflexivity.
Qed.

(** C10. [_load_weights] raises an [AssertionError] if and only if no
    tensor is found in any file matching [*.safetensors] in the
    directory; otherwise it returns a non-empty state dictionary all of
    whose tensors have dtype bfloat16, whatever dtype the checkpoint
    stored.  It raises nothing else and leaves the world as it was. *)
Theorem _load_weights_bfloat16_or_AssertionError (directory : string) (W : World) :
  ((_load_weights directory W).1 = Raise AssertionError
   <-> tensors_found W directory = [])
  /\ (tensors_found W directory ≠ [] ->
      exists state_dict : gmap string StoredTensor,
        (_load_weights directory W).1 = Ok state_dict
        /\ state_dict ≠ ∅
        /\ forall key tensor,
             state_dict !! key = Some tensor -> dtype tensor = bfloat16)
  /\ (_load_weights directory W).2 = W.
Proof.
  rewrite _load_weights_unfold. cbn [fst snd].
  case_bool_decide as Hemp.
  - apply store_all_empty in Hemp as [Hnone _].
    split; [|split].
    + split; auto.
    + intros Hsome. contradiction.
    + reflexivity.
  - assert (tensors_found W directory ≠ []) as Hsome.
    { intros Hnone. apply Hemp. apply store_all_empty. auto. }
    split; [|split].
    + split; [discriminate | intros Hnone; contradiction].
    + intros _. eexists. split; [reflexivity|]. split; [assumption|].
      intros key tensor Hkey.
      apply (store_all_bfloat16 (tensors_found W directory) ∅ (map_Forall_empty _)
               key tensor Hkey).
    + reflexivity.
Qed.

(** *** Building a model *)

Lemma in_world_env {A} (f : M World A) (st : IState) :
  env (in_world f st).2 = env st.
Proof. unfold in_world. destruct (f (world st)). reflexivity. Qed.

(** C8. Whenever [instantiate_model_from_repo_id] returns a model, it was
    made in two steps: [from_hf_model_id] of the table's class built its
    structure with the environment's device set to "meta" (for the Gemma
    class, the configuration's device too), with no weights bound; and
    [load_state_dict], called with [assign=True] (and [strict=False]) on
    that structure, bound the weights.  The object returned is the result
    of the second step. *)
Theorem instantiate_model_two_phases (F : Flags) (repo_id : string) (st : IState) :
  let run := instantiate_model_from_repo_id F repo_id st in
  is_ok run.1 = true ->
  exists info structure weights,
    model_id_to_class !! repo_id = Some info
    /\ class_from_hf_model_id (model_class info) repo_id
         (Gemma.set_device (env st) "meta") (internal_use_tiny_model F) = Ok structure
    /\ (forall m, structure = BuiltGemma m ->
          Gemma.config_device (Gemma.config m) = "meta")
    /\ load_state_dict {| built := structure; binding := None |} weights true false
       = run.1
    /\ run.1 = Ok {| built := structure;
                     binding := Some {| bound_weights := weights;
                                        assign := true; strict := false |} |}
    /\ Gemma.device (env run.2) = "meta".
Proof.
  cbv zeta.
  destruct (instantiate_model_from_repo_id F repo_id st) as [r st'] eqn:Hrun.
  cbn [fst snd]. intros Hok.
  unfold instantiate_model_from_repo_id in Hrun.
  rewrite M_bind_run in Hrun. unfold get_state at 1 in Hrun.
  rewrite M_bind_run in Hrun.
  match type of Hrun with
  | context [(if ?c then in_world ?f else mret tt) st] =>
      assert (env ((if c then in_world f else mret tt) st).2 = env st) as Henv0
        by (destruct c; [apply in_world_env | reflexivity]);
      destruct ((if c then in_world f else mret tt) st) as [[[]|e0] st0]
  end.
  2: { injection Hrun as <- <-. discriminate Hok. }
  simpl in Henv0.
  destruct (model_id_to_class !! repo_id) as [info|].
  2: { injection Hrun as <- <-. discriminate Hok. }
  rewrite M_bind_run in Hrun. unfold set_env_device at 1, modify at 1 in Hrun.
  rewrite M_bind_run in Hrun. unfold get_state at 1 in Hrun.
  rewrite M_bind_lift in Hrun. cbn [env] in Hrun. rewrite Henv0 in Hrun.
  destruct (class_from_hf_model_id (model_class info) repo_id
              (Gemma.set_device (env st) "meta") (internal_use_tiny_model F))
    as [structure|e1] eqn:Hbuilt.
  2: { injection Hrun as <- <-. discriminate Hok. }
  rewrite M_bind_run in Hrun.
  match type of Hrun with
  | context [(if ?c then in_world ?f else ?g) ?s] =>
      assert (env ((if c then in_world f else g) s).2 = Gemma.set_device (env st) "meta")
        as Henv1;
      [|destruct ((if c then in_world f else g) s) as [[weights|e2] st1]]
  end.
  { destruct (_ || _).
    - rewrite in_world_env. cbn [env]. reflexivity.
    - rewrite M_bind_run.
      match goal with
      | |- context [in_world ?f ?s] =>
          pose proof (in_world_env f s) as Hw; destruct (in_world f s) as [[w|] sw]
      end; simpl in Hw |- *; [|rewrite Hw; reflexivity].
      unfold lift. simpl. rewrite Hw. reflexivity. }
  2: { injection Hrun as <- <-. discriminate Hok. }
  simpl in Henv1. unfold lift in Hrun. injection Hrun as <- <-.
  exists info, structure, weights.
  split; [reflexivity|]. split; [assumption|]. split.
  { intros m ->. unfold class_from_hf_model_id in Hbuilt.
    destruct (model_class info).
    - apply bind_Ok in Hbuilt as (? & _ & Hbuilt). discriminate.
    - apply bind_Ok in Hbuilt as (? & _ & Hbuilt). discriminate.
    - apply bind_Ok in Hbuilt as (m' & Hm' & Hbuilt). injection Hbuilt as <-.
      apply (GemmaModelFacts.from_hf_model_id_meta _ _ _ _ _ Hm'). }
  split; [reflexivity|]. split.
  - unfold load_state_dict in *. cbn [built] in *.
    destruct (load_state_dict_check structure weights true false) as [[]|];
      [reflexivity | discriminate].
  - rewrite Henv1. reflexivity.
Qed.

End LoadingFacts.

Example hf_dir_gemma_2b :
  _hf_dir default_flags "google/gemma-2b" = "checkpoints/google/gemma-2b/hf_original".
Proof. reflexivity. Qed.

Example _load_weights_gemma_2b :
  match (_load_weights "checkpoints/google/gemma-2b/hf_original" gemma_2b_world).1 with
  | Ok state_dict => Some ((fun '(key, t) => (key, dtype t)) <$> map_to_list state_dict)
  | Raise _ => None
  end = Some [("model.norm.weight", bfloat16)].
Proof. vm_compute. reflexivity. Qed.

Example _load_weights_empty_directory :
  (_load_weights "checkpoints/google/gemma-7b/hf_original" gemma_2b_world).1
  = Raise AssertionError.
Proof. vm_compute. reflexivity. Qed.

Lemma instantiate_model_two_phases_witness :
  let run := instantiate_model_from_repo_id default_flags "google/gemma-2b"
               gemma_2b_state in
  exists info structure weights,
    model_id_to_class !! "google/gemma-2b" = Some info
    /\ class_from_hf_model_id (model_class info) "google/gemma-2b"
         (Gemma.set_device (env gemma_2b_state) "meta")
         (internal_use_tiny_model default_flags) = Ok structure
    /\ (forall m, structure = BuiltGemma m ->
          Gemma.config_device (Gemma.config m) = "meta")
    /\ load_state_dict {| built := structure; binding := None |} weights true false
       = run.1
    /\ run.1 = Ok {| built := structure;
                     binding := Some {| bound_weights := weights;
                                        assign := true; strict := false |} |}
    /\ Gemma.device (env run.2) = "meta".
Proof.
  apply (instantiate_model_two_phases default_flags "google/gemma-2b" gemma_2b_state).
  vm_compute. reflexivity.
Defined.

End FetchModelsFacts.

(** * Further properties *)

(** ** Rotary embeddings *)

Module RotaryProperties.

Import Torch Gemma TorchFacts RotaryFacts Examples Notions.

Lemma in_range_3 (a c d i k l : nat) :
  (i < a)%nat -> (k < c)%nat -> (l < d)%nat -> in_range [a; c; d] [i; k; l] = true.
Proof.
  intros Hi Hk Hl. simpl. rewrite andb_true_r.
  repeat (apply andb_true_iff; split); apply Nat.ltb_lt; assumption.
Qed.

Lemma reshape_for_broadcast_mismatch {A B} (freqs_cis : Tensor A) (x : Tensor B)
    (a b c d : nat) :
  shape x = [a; b; c; d] ->
  shape freqs_cis <> [a; c; d] ->
  reshape_for_broadcast freqs_cis x = Raise AssertionError.
Proof.
  intros Hx Hne. unfold reshape_for_broadcast, shape_at, ndim. rewrite Hx.
  cbn [length Nat.ltb Nat.leb assert mbind result_bind lookup list_lookup].
  unfold shape_eqb. rewrite bool_decide_eq_false_2 by assumption. reflexivity.
Qed.

(** X1. For a 4-dimensional [x], [reshape_for_broadcast] succeeds exactly
    when the table slice has shape (x.shape[0], x.shape[2], x.shape[3]);
    any other shape fails its assertion.  The result has shape
    (x.shape[0], 1, x.shape[2], x.shape[3]) and the elements of the table
    slice. *)
Theorem reshape_for_broadcast_shapes {A B} (freqs_cis : Tensor A) (x : Tensor B)
    (a b c d : nat) :
  shape x = [a; b; c; d] ->
  (shape freqs_cis <> [a; c; d] ->
   reshape_for_broadcast freqs_cis x = Raise AssertionError)
  /\ (shape freqs_cis = [a; c; d] ->
      exists r,
        reshape_for_broadcast freqs_cis x = Ok r
        /\ shape r = [a; 1%nat; c; d]
        /\ forall i k l, (i < a)%nat -> (k < c)%nat -> (l < d)%nat ->
             elem r [i; 0%nat; k; l] = elem freqs_cis [i; k; l]).
Proof.
  intros Hx. split.
  - intros Hne. apply (reshape_for_broadcast_mismatch freqs_cis x a b c d Hx Hne).
  - intros Hf. apply (reshape_for_broadcast_4 freqs_cis x a b c d Hf Hx).
Qed.

Lemma reshape_for_broadcast_shapes_witness :
  exists r,
    reshape_for_broadcast table_2_3_2
      {| shape := [2; 5; 3; 2]; elem := fun _ => 0%Z |} = Ok r
    /\ shape r = [2; 1; 3; 2]
    /\ forall i k l, (i < 2)%nat -> (k < 3)%nat -> (l < 2)%nat ->
         elem r [i; 0%nat; k; l] = elem table_2_3_2 [i; k; l].
Proof.
  apply (proj2 (reshape_for_broadcast_shapes table_2_3_2
                  {| shape := [2; 5; 3; 2]; elem := fun _ => 0%Z |} 2 5 3 2 eq_refl)).
  reflexivity.
Defined.

(** X2. [apply_rotary_emb] raises on a 4-dimensional [x] whose last
    dimension is odd, whatever the table: the two chunks differ in length
    (or there is only one), so they cannot be paired up. *)
Theorem apply_rotary_emb_odd_last_dim {A} `{Arith A}
    (x : Tensor A) (freqs_cis : Tensor (A * A)) (B Sq H0 K : nat) :
  shape x = [B; Sq; H0; (2 * K + 1)%nat] ->
  apply_rotary_emb x freqs_cis = Raise RuntimeError.
Proof.
  intros Hx. unfold apply_rotary_emb.
  destruct (transpose_1_2 x _ _ _ _ Hx) as (xt & -> & Hxt & _). rewrite bind_Ok_l.
  unfold float, chunk, ndim. rewrite Hxt.
  change (wrap_dim (length [B; H0; Sq; (2 * K + 1)%nat]) (-1)) with (Ok (A:=nat) 3%nat).
  rewrite bind_Ok_l. cbn [Nat.eqb]. unfold size. rewrite Hxt.
  cbn [lookup list_lookup default from_option]. unfold Datatypes.id.
  assert ((2 * K + 1 + 2 - 1) / 2 = S K)%nat as ->
    by (symmetry; apply (Nat.div_unique _ 2 _ 0); lia).
  cbn [Nat.eqb]. unfold split, size. rewrite Hxt.
  cbn [lookup list_lookup default from_option]. unfold Datatypes.id.
  destruct K as [|K].
  - change ((2 * 0 + 1 + 1 - 1) / 1)%nat with 1%nat.
    change (Nat.max 1 1) with 1%nat. cbn [seq fmap list_fmap].
    rewrite bind_Ok_l. unfold stack, narrow, ndim. cbn [forallb shape].
    rewrite Hxt.
    change (wrap_dim (S (length (<[3%nat:=Nat.min 1 (2 * 0 + 1 - 0 * 1)]> [B; H0; Sq; (2 * 0 + 1)%nat]))) (-1))
      with (Ok (A:=nat) 4%nat).
    rewrite bind_Ok_l. rewrite bind_Ok_l. reflexivity.
  - assert ((2 * S K + 1 + S (S K) - 1) / S (S K) = 2)%nat as ->
      by (symmetry; apply (Nat.div_unique _ (S (S K)) _ K); lia).
    change (Nat.max 2 1) with 2%nat. cbn [seq fmap list_fmap].
    rewrite bind_Ok_l. unfold stack, narrow. cbn [forallb shape]. rewrite Hxt.
    assert (Nat.min (S (S K)) (2 * S K + 1 - 0 * S (S K)) = S (S K)) as -> by lia.
    assert (Nat.min (S (S K)) (2 * S K + 1 - 1 * S (S K)) = S K) as -> by lia.
    unfold shape_eqb. rewrite bool_decide_eq_false_2; [reflexivity|].
    simpl. intros Heq. injection Heq as Heq. lia.
Qed.

Lemma apply_rotary_emb_odd_last_dim_witness :
  apply_rotary_emb {| shape := [1; 1; 1; 5]; elem := fun _ => 0%R |} quarter_turn
  = Raise RuntimeError.
Proof.
  apply (apply_rotary_emb_odd_last_dim _ quarter_turn 1 1 1 2). reflexivity.
Defined.

(** X3. [apply_rotary_emb] on an [x] of shape (B, S, H, 2K) fails the
    assertion of [reshape_for_broadcast] for every table slice whose shape
    is not (B, S, K). *)
Theorem apply_rotary_emb_wrong_table_shape {A} `{Arith A}
    (x : Tensor A) (freqs_cis : Tensor (A * A)) (B Sq H0 K : nat) :
  shape x = [B; Sq; H0; (2 * K)%nat] ->
  shape freqs_cis <> [B; Sq; K] ->
  apply_rotary_emb x freqs_cis = Raise AssertionError.
Proof.
  intros Hx Hf. replace (2 * K)%nat with (K + K)%nat in Hx by lia.
  unfold apply_rotary_emb.
  destruct (transpose_1_2 x _ _ _ _ Hx) as (xt & -> & Hxt & _). rewrite bind_Ok_l.
  unfold float.
  destruct (chunk_last_4 xt _ _ _ _ Hxt) as (lo & hi & -> & Hlo & Hhi & _).
  rewrite bind_Ok_l.
  destruct (stack_pair_last lo hi _ _ _ _ Hlo Hhi) as (st & -> & Hst & _).
  rewrite bind_Ok_l.
  destruct (view_as_complex_5 st _ _ _ _ Hst) as (x_ & -> & Hx_ & _).
  rewrite bind_Ok_l.
  rewrite (reshape_for_broadcast_mismatch freqs_cis x_ _ _ _ _ Hx_ Hf).
  reflexivity.
Qed.

Lemma apply_rotary_emb_wrong_table_shape_witness :
  apply_rotary_emb x_2_3_2_4 {| shape := [2; 4; 2]; elem := elem table_2_3_2 |}
  = Raise AssertionError.
Proof.
  apply (apply_rotary_emb_wrong_table_shape x_2_3_2_4 _ 2 3 2 2).
  - reflexivity.
  - discriminate.
Defined.

(** The embedding over the reals, element by element. *)
Lemma apply_rotary_emb_elem_R (x : Tensor R) (f : Tensor (R * R)) (B Sq H0 K : nat) :
  shape x = [B; Sq; H0; (K + K)%nat] ->
  shape f = [B; Sq; K] ->
  (0 < B)%nat -> (0 < Sq)%nat -> (0 < H0)%nat ->
  exists out,
    apply_rotary_emb x f = Ok out
    /\ shape out = [B; Sq; H0; (K + K)%nat]
    /\ forall b s h j, (b < B)%nat -> (s < Sq)%nat -> (h < H0)%nat -> (j < K)%nat ->
         elem out [b; s; h; j]
         = (elem x [b; s; h; j] * (elem f [b; s; j]).1
            - elem x [b; s; h; (K + j)%nat] * (elem f [b; s; j]).2)%R
         /\ elem out [b; s; h; (K + j)%nat]
            = (elem x [b; s; h; j] * (elem f [b; s; j]).2
               + elem x [b; s; h; (K + j)%nat] * (elem f [b; s; j]).1)%R.
Proof.
  intros Hx Hf HB HS HH.
  destruct (apply_rotary_emb_elem x f B Sq H0 K Hx Hf HB HS HH)
    as (out & Hout & Hshape & Helem).
  exists out. split; [assumption|]. split; [assumption|].
  intros b s h j Hb Hs Hh Hj.
  destruct (Helem b s h j Hb Hs Hh Hj) as [-> ->]. split; reflexivity.
Qed.

(** X4. [apply_rotary_emb] uses the split-half convention: for [x] of shape
    (B, S, H, 2K) and a table slice of shape (B, S, K) holding
    (cos a, sin a) for an angle [a] per batch row, position and index,
    component [j] of a vector is paired with component [K + j], and the
    pair is turned by the angle at [j]:
    out[j] = x[j] cos a - x[K+j] sin a, out[K+j] = x[j] sin a + x[K+j] cos a.
    The same angle serves every head. *)
Theorem apply_rotary_emb_split_half
    (x : Tensor R) (angle : Tensor R) (freqs_cis : Tensor (R * R)) (B Sq H0 K : nat) :
  shape x = [B; Sq; H0; (2 * K)%nat] ->
  shape angle = [B; Sq; K] ->
  polar (ones_like angle) angle = Ok freqs_cis ->
  (0 < B)%nat -> (0 < Sq)%nat -> (0 < H0)%nat ->
  exists out,
    apply_rotary_emb x freqs_cis = Ok out
    /\ shape out = shape x
    /\ forall b s h j, (b < B)%nat -> (s < Sq)%nat -> (h < H0)%nat -> (j < K)%nat ->
         let a := elem angle [b; s; j] in
         elem out [b; s; h; j]
         = (elem x [b; s; h; j] * cos a - elem x [b; s; h; (K + j)%nat] * sin a)%R
         /\ elem out [b; s; h; (K + j)%nat]
            = (elem x [b; s; h; j] * sin a + elem x [b; s; h; (K + j)%nat] * cos a)%R.
Proof.
  intros Hx Ha Hpolar HB HS HH.
  replace (2 * K)%nat with (K + K)%nat in * by lia.
  unfold polar in Hpolar.
  destruct (binary_same_shape
              (fun a th => (a * cos th, a * sin th)%R) (ones_like angle) angle eq_refl)
    as (f & Hf & Hfshape & Hfelem).
  rewrite Hf in Hpolar. injection Hpolar as <-.
  cbn [shape ones_like tmap] in Hfshape, Hfelem. rewrite Ha in Hfshape, Hfelem.
  destruct (apply_rotary_emb_elem_R x f B Sq H0 K Hx Hfshape HB HS HH)
    as (out & Hout & Hshape & Helem).
  exists out. split; [assumption|]. split; [congruence|].
  intros b s h j Hb Hs Hh Hj. cbv zeta.
  destruct (Helem b s h j Hb Hs Hh Hj) as [-> ->].
  rewrite Hfelem by (apply in_range_3; assumption).
  cbn [elem ones_like tmap fst snd]. split; ring.
Qed.

Lemma apply_rotary_emb_split_half_witness :
  exists freqs_cis out,
    polar (ones_like quarter_angle) quarter_angle = Ok freqs_cis
    /\ apply_rotary_emb x_3_4 freqs_cis = Ok out
    /\ shape out = shape x_3_4
    /\ forall b s h j, (b < 1)%nat -> (s < 1)%nat -> (h < 1)%nat -> (j < 1)%nat ->
         let a := elem quarter_angle [b; s; j] in
         elem out [b; s; h; j]
         = (elem x_3_4 [b; s; h; j] * cos a - elem x_3_4 [b; s; h; (1 + j)%nat] * sin a)%R
         /\ elem out [b; s; h; (1 + j)%nat]
            = (elem x_3_4 [b; s; h; j] * sin a
               + elem x_3_4 [b; s; h; (1 + j)%nat] * cos a)%R.
Proof.
  destruct (binary_same_shape
              (fun a th => (a * cos th, a * sin th)%R)
              (ones_like quarter_angle) quarter_angle eq_refl)
    as (f & Hf & _ & _).
  exists f.
  destruct (apply_rotary_emb_split_half x_3_4 quarter_angle f 1 1 1 1)
    as (out & Hout & Hshape & Helem);
    [reflexivity | reflexivity | exact Hf | lia | lia | lia |].
  exists out. auto.
Defined.

(** X5. A table slice of ones (angle 0) leaves every element of [x] as it
    is. *)
Theorem apply_rotary_emb_identity
    (x : Tensor R) (freqs_cis : Tensor (R * R)) (B Sq H0 K : nat) :
  shape x = [B; Sq; H0; (2 * K)%nat] ->
  shape freqs_cis = [B; Sq; K] ->
  (0 < B)%nat -> (0 < Sq)%nat -> (0 < H0)%nat ->
  (forall idx, in_range [B; Sq; K] idx = true -> elem freqs_cis idx = (1, 0)%R) ->
  exists out,
    apply_rotary_emb x freqs_cis = Ok out
    /\ shape out = shape x
    /\ forall b s h j, (b < B)%nat -> (s < Sq)%nat -> (h < H0)%nat -> (j < 2 * K)%nat ->
         elem out [b; s; h; j] = elem x [b; s; h; j].
Proof.
  intros Hx Hf HB HS HH Hone.
  replace (2 * K)%nat with (K + K)%nat in * by lia.
  destruct (apply_rotary_emb_elem_R x freqs_cis B Sq H0 K Hx Hf HB HS HH)
    as (out & Hout & Hshape & Helem).
  exists out. split; [assumption|]. split; [congruence|].
  intros b s h j Hb Hs Hh Hj.
  destruct (Nat.lt_ge_cases j K) as [Hlo|Hhi].
  - destruct (Helem b s h j Hb Hs Hh Hlo) as [-> _].
    rewrite Hone by (apply in_range_3; assumption). cbn [fst snd]. ring.
  - replace j with (K + (j - K))%nat by lia.
    destruct (Helem b s h (j - K)%nat Hb Hs Hh ltac:(lia)) as [_ ->].
    rewrite Hone by (apply in_range_3; lia). cbn [fst snd]. ring.
Qed.

Lemma apply_rotary_emb_identity_witness :
  exists out,
    apply_rotary_emb x_3_4 {| shape := [1; 1; 1]; elem := fun _ => (1, 0)%R |} = Ok out
    /\ shape out = shape x_3_4
    /\ forall b s h j, (b < 1)%nat -> (s < 1)%nat -> (h < 1)%nat -> (j < 2 * 1)%nat ->
         elem out [b; s; h; j] = elem x_3_4 [b; s; h; j].
Proof.
  apply (apply_rotary_emb_identity x_3_4 _ 1 1 1 1);
    [reflexivity | reflexivity | lia | lia | lia |].
  intros idx _. reflexivity.
Defined.

(** X6. Rotations compose: applying the embedding with table slice [f] and
    then with [g] gives, element for element, what one application with
    the elementwise complex product [f * g] gives. *)
Theorem apply_rotary_emb_compose
    (x : Tensor R) (f g : Tensor (R * R)) (B Sq H0 K : nat) :
  shape x = [B; Sq; H0; (2 * K)%nat] ->
  shape f = [B; Sq; K] ->
  shape g = [B; Sq; K] ->
  (0 < B)%nat -> (0 < Sq)%nat -> (0 < H0)%nat ->
  exists y z fg w,
    apply_rotary_emb x f = Ok y
    /\ apply_rotary_emb y g = Ok z
    /\ binary cmul f g = Ok fg
    /\ apply_rotary_emb x fg = Ok w
    /\ shape z = shape w
    /\ forall b s h j, (b < B)%nat -> (s < Sq)%nat -> (h < H0)%nat -> (j < 2 * K)%nat ->
         elem z [b; s; h; j] = elem w [b; s; h; j].
Proof.
  intros Hx Hf Hg HB HS HH.
  replace (2 * K)%nat with (K + K)%nat in * by lia.
  destruct (apply_rotary_emb_elem_R x f B Sq H0 K Hx Hf HB HS HH)
    as (y & Hy & Hyshape & Hyelem).
  destruct (apply_rotary_emb_elem_R y g B Sq H0 K Hyshape Hg HB HS HH)
    as (z & Hz & Hzshape & Hzelem).
  destruct (binary_same_shape cmul f g ltac:(congruence))
    as (fg & Hfg & Hfgshape & Hfgelem).
  rewrite Hf in Hfgshape, Hfgelem.
  destruct (apply_rotary_emb_elem_R x fg B Sq H0 K Hx Hfgshape HB HS HH)
    as (w & Hw & Hwshape & Hwelem).
  exists y, z, fg, w. repeat (split; [assumption|]). split; [congruence|].
  assert (forall b s h j, (b < B)%nat -> (s < Sq)%nat -> (h < H0)%nat -> (j < K)%nat ->
            elem z [b; s; h; j] = elem w [b; s; h; j]
            /\ elem z [b; s; h; (K + j)%nat] = elem w [b; s; h; (K + j)%nat]) as Hboth.
  { intros b s h j Hb Hs Hh Hj.
    destruct (Hzelem b s h j Hb Hs Hh Hj) as [-> ->].
    destruct (Hwelem b s h j Hb Hs Hh Hj) as [-> ->].
    destruct (Hyelem b s h j Hb Hs Hh Hj) as [-> ->].
    rewrite Hfgelem by (apply in_range_3; assumption).
    unfold cmul. cbn [fst snd add sub mul R_arith]. split; ring. }
  intros b s h j Hb Hs Hh Hj.
  destruct (Nat.lt_ge_cases j K) as [Hlo|Hhi].
  - apply (Hboth b s h j); assumption.
  - replace j with (K + (j - K))%nat by lia. apply (Hboth b s h (j - K)%nat); lia.
Qed.

Lemma apply_rotary_emb_compose_witness :
  exists y z fg w,
    apply_rotary_emb x_3_4 quarter_turn = Ok y
    /\ apply_rotary_emb y quarter_turn = Ok z
    /\ binary cmul quarter_turn quarter_turn = Ok fg
    /\ apply_rotary_emb x_3_4 fg = Ok w
    /\ shape z = shape w
    /\ forall b s h j, (b < 1)%nat -> (s < 1)%nat -> (h < 1)%nat -> (j < 2 * 1)%nat ->
         elem z [b; s; h; j] = elem w [b; s; h; j].
Proof.
  apply (apply_rotary_emb_compose x_3_4 quarter_turn quarter_turn 1 1 1 1);
    [reflexivity | reflexivity | reflexivity | lia | lia | lia].
Defined.

(** X7. Queries and keys rotated with the same unit-modulus table slice
    keep their dot products: for every batch row and position, the dot
    product of a rotated query vector (any head) with a rotated key vector
    (any kv head) is that of the vectors before rotation. *)
Theorem apply_rotary_emb_preserves_dot
    (xq xk : Tensor R) (freqs_cis : Tensor (R * R)) (B Sq Hq Hk K : nat) :
  shape xq = [B; Sq; Hq; (2 * K)%nat] ->
  shape xk = [B; Sq; Hk; (2 * K)%nat] ->
  shape freqs_cis = [B; Sq; K] ->
  (0 < B)%nat -> (0 < Sq)%nat -> (0 < Hq)%nat -> (0 < Hk)%nat ->
  unit_modulus freqs_cis ->
  exists q k,
    apply_rotary_emb xq freqs_cis = Ok q
    /\ apply_rotary_emb xk freqs_cis = Ok k
    /\ forall b s h h', (b < B)%nat -> (s < Sq)%nat -> (h < Hq)%nat -> (h' < Hk)%nat ->
         sum_n (2 * K) (fun j => (elem q [b; s; h; j] * elem k [b; s; h'; j])%R)
         = sum_n (2 * K) (fun j => (elem xq [b; s; h; j] * elem xk [b; s; h'; j])%R).
Proof.
  intros Hxq Hxk Hf HB HS HHq HHk Hunit.
  replace (2 * K)%nat with (K + K)%nat in * by lia.
  destruct (apply_rotary_emb_elem_R xq freqs_cis B Sq Hq K Hxq Hf HB HS HHq)
    as (q & Hq' & _ & Hqelem).
  destruct (apply_rotary_emb_elem_R xk freqs_cis B Sq Hk K Hxk Hf HB HS HHk)
    as (k & Hk' & _ & Hkelem).
  exists q, k. split; [assumption|]. split; [assumption|].
  intros b s h h' Hb Hs Hh Hh'.
  rewrite !sum_n_halves. apply sum_n_ext. intros j Hj.
  rewrite (Nat.add_comm j K).
  destruct (Hqelem b s h j Hb Hs Hh Hj) as [-> ->].
  destruct (Hkelem b s h' j Hb Hs Hh' Hj) as [-> ->].
  pose proof (Hunit [b; s; j]) as Hu. rewrite Hf in Hu.
  specialize (Hu (in_range_3 _ _ _ _ _ _ Hb Hs Hj)).
  set (c := (elem freqs_cis [b; s; j]).1) in *.
  set (sn := (elem freqs_cis [b; s; j]).2) in *.
  set (a := elem xq [b; s; h; j]). set (a' := elem xq [b; s; h; (K + j)%nat]).
  set (d := elem xk [b; s; h'; j]). set (d' := elem xk [b; s; h'; (K + j)%nat]).
  replace ((a * c - a' * sn) * (d * c - d' * sn) + (a * sn + a' * c) * (d * sn + d' * c))%R
    with ((a * d + a' * d') * (c * c + sn * sn))%R by ring.
  rewrite Hu. ring.
Qed.

Lemma apply_rotary_emb_preserves_dot_witness :
  exists q k,
    apply_rotary_emb x_3_4 quarter_turn = Ok q
    /\ apply_rotary_emb x_3_4 quarter_turn = Ok k
    /\ forall b s h h', (b < 1)%nat -> (s < 1)%nat -> (h < 1)%nat -> (h' < 1)%nat ->
         sum_n (2 * 1) (fun j => (elem q [b; s; h; j] * elem k [b; s; h'; j])%R)
         = sum_n (2 * 1) (fun j => (elem x_3_4 [b; s; h; j] * elem x_3_4 [b; s; h'; j])%R).
Proof.
  apply (apply_rotary_emb_preserves_dot x_3_4 x_3_4 quarter_turn 1 1 1 1 1);
    [reflexivity | reflexivity | reflexivity | lia | lia | lia | lia |].
  intros idx _. simpl. lra.
Defined.

(** The table, entry by entry (the angles as they are computed). *)
Lemma precompute_freqs_cis_elem (dim end_ : Z) (theta : R) :
  (0 <= dim)%Z -> (0 <= end_)%Z ->
  exists table,
    precompute_freqs_cis dim end_ theta = Ok table
    /\ shape table = [Z.to_nat end_; Z.to_nat (dim / 2)]
    /\ forall t i, (t < Z.to_nat end_)%nat -> (i < Z.to_nat (dim / 2))%nat ->
         let a := (INR t * (1 / Rpower theta (2 * INR i / IZR dim)))%R in
         elem table [t; i] = (cos a, sin a).
Proof.
  intros Hdim Hend. unfold precompute_freqs_cis.
  rewrite (arange_nonneg 0 dim 2) by lia. rewrite bind_Ok_l.
  unfold slice_to at 1. cbn [shape].
  assert ((dim / 2 <? 0)%Z = false) as -> by (apply Z.ltb_ge; apply Z.div_pos; lia).
  assert (Nat.min (Z.to_nat (dim / 2)) (Z.to_nat ((dim - 0 + 2 - 1) / 2))
          = Z.to_nat (dim / 2)) as ->.
  { apply Nat.min_l. apply Z2Nat.inj_le.
    - apply Z.div_pos; lia.
    - apply Z.div_pos; lia.
    - apply Z.div_le_mono; lia. }
  rewrite bind_Ok_l.
  rewrite (arange_nonneg 0 end_ 1) by lia. rewrite bind_Ok_l.
  replace ((end_ - 0 + 1 - 1) / 1)%Z with end_ by (rewrite Z.div_1_r; lia).
  unfold outer, float, tmap. cbn [shape]. rewrite bind_Ok_l.
  unfold polar, ones_like, tmap. cbn [shape elem].
  match goal with
  | |- context [binary ?op ?a ?b] =>
      destruct (binary_same_shape op a b) as (table & -> & Hshape & Helem);
        [reflexivity|]
  end.
  exists table. split; [reflexivity|]. cbn [shape] in Hshape, Helem.
  split; [exact Hshape|].
  intros t i Ht Hi. cbv zeta.
  rewrite Helem.
  - cbn [elem take drop head default from_option]. unfold Datatypes.id, pow.
    rewrite !Z.add_0_l, Z.mul_1_r, mult_IZR, <- !INR_IZR_INZ.
    replace (INR i * 2)%R with (2 * INR i)%R by ring.
    f_equal; ring.
  - simpl. rewrite andb_true_r. apply andb_true_iff. split; apply Nat.ltb_lt; lia.
Qed.

(** X8. The table is multiplicative in the position: for a base
    [theta > 0], when [t1 + t2] is still a position of the table, the
    entry at [t1 + t2] is the complex product of the entries at [t1] and
    [t2] (the angles add). *)
Theorem precompute_freqs_cis_positions_add (dim end_ : Z) (theta : R) (t1 t2 i : nat) :
  (0 <= dim)%Z ->
  (0 < theta)%R ->
  (t1 + t2 < Z.to_nat end_)%nat ->
  (i < Z.to_nat (dim / 2))%nat ->
  exists table,
    precompute_freqs_cis dim end_ theta = Ok table
    /\ elem table [(t1 + t2)%nat; i] = cmul (elem table [t1; i]) (elem table [t2; i]).
Proof.
  intros Hdim _ Ht Hi.
  destruct (precompute_freqs_cis_elem dim end_ theta Hdim ltac:(lia))
    as (table & Htable & _ & Helem).
  exists table. split; [assumption|].
  rewrite !Helem by lia. unfold cmul. cbn [fst snd add sub mul R_arith].
  rewrite plus_INR, Rmult_plus_distr_r, cos_plus, sin_plus.
  f_equal; ring.
Qed.

Lemma precompute_freqs_cis_positions_add_witness :
  exists table,
    precompute_freqs_cis 4 8 10000 = Ok table
    /\ elem table [(2 + 3)%nat; 1%nat] = cmul (elem table [2%nat; 1%nat]) (elem table [3%nat; 1%nat]).
Proof.
  apply (precompute_freqs_cis_positions_add 4 8 10000 2 3 1); [lia | lra | | ].
  - vm_compute. lia.
  - vm_compute. lia.
Defined.

(** X9. Position 0 is not rotated, and index 0 turns by the position
    itself: for a base [theta > 0], row 0 of the table is all ones, and
    the entry at index 0 of row [t] is (cos t, sin t), the same for every
    base. *)
Theorem precompute_freqs_cis_first_row_and_column (dim end_ : Z) (theta : R) :
  (0 <= dim)%Z -> (0 <= end_)%Z -> (0 < theta)%R ->
  exists table,
    precompute_freqs_cis dim end_ theta = Ok table
    /\ (forall i, (0 < Z.to_nat end_)%nat -> (i < Z.to_nat (dim / 2))%nat ->
          elem table [0%nat; i] = (1, 0)%R)
    /\ (forall t, (t < Z.to_nat end_)%nat -> (0 < Z.to_nat (dim / 2))%nat ->
          elem table [t; 0%nat] = (cos (INR t), sin (INR t))).
Proof.
  intros Hdim Hend _.
  destruct (precompute_freqs_cis_elem dim end_ theta Hdim Hend)
    as (table & Htable & _ & Helem).
  exists table. split; [assumption|]. split.
  - intros i Ht Hi. rewrite Helem by assumption.
    change (INR 0) with 0%R. rewrite Rmult_0_l, cos_0, sin_0. reflexivity.
  - intros t Ht Hi. rewrite Helem by assumption.
    change (INR 0) with 0%R.
    replace (2 * 0 / IZR dim)%R with 0%R by (unfold Rdiv; ring).
    unfold Rpower. rewrite Rmult_0_l, exp_0.
    replace (INR t * (1 / 1))%R with (INR t) by (unfold Rdiv; rewrite Rinv_1; ring).
    reflexivity.
Qed.

Lemma precompute_freqs_cis_first_row_and_column_witness :
  exists table,
    precompute_freqs_cis 4 8 10000 = Ok table
    /\ (forall i, (0 < Z.to_nat 8)%nat -> (i < Z.to_nat (4 / 2))%nat ->
          elem table [0%nat; i] = (1, 0)%R)
    /\ (forall t, (t < Z.to_nat 8)%nat -> (0 < Z.to_nat (4 / 2))%nat ->
          elem table [t; 0%nat] = (cos (INR t), sin (INR t))).
Proof.
  apply (precompute_freqs_cis_first_row_and_column 4 8 10000); [lia | lia | lra].
Defined.

End RotaryProperties.

(** ** RMS normalisation *)

Module RMSNormProperties.

Import Torch Gemma TorchFacts Examples Notions.

Lemma sum_n_scale (n : nat) (c : R) (g : nat -> R) :
  sum_n n (fun j => (c * g j)%R) = (c * sum_n n g)%R.
Proof.
  unfold sum_n. generalize (seq 0 n). intros l. unfold fmap.
  induction l as [|i l IH]; simpl; [ring|]. rewrite IH. ring.
Qed.

Lemma sum_n_squares_nonneg (n : nat) (g : nat -> R) :
  (0 <= sum_n n (fun j => g j * g j))%R.
Proof.
  unfold sum_n. generalize (seq 0 n). intros l. unfold fmap.
  induction l as [|i l IH]; simpl; [lra|]. pose proof (Rle_0_sqr (g i)) as Hsq.
  unfold Rsqr in Hsq. lra.
Qed.

Section Norm.

Context {Cache : Type} `{Backend Cache}.

Lemma RMSNorm__norm_elem (self : RMSNorm) (x : Tensor R) (B Sq D : nat) :
  shape x = [B; Sq; D] ->
  exists y,
    RMSNorm__norm self x = Ok y
    /\ shape y = [B; Sq; D]
    /\ forall b s j, (b < B)%nat -> (s < Sq)%nat -> (j < D)%nat ->
         elem y [b; s; j]
         = (elem x [b; s; j] * (1 / sqrt (mean_square x D b s + eps self)))%R.
Proof.
  intros Hx. unfold RMSNorm__norm, mean_keepdim, pow2, tmap, ndim. cbn [shape].
  rewrite Hx.
  change (wrap_dim (length [B; Sq; D]) (-1)) with (Ok (A:=nat) 2%nat).
  rewrite !bind_Ok_l. unfold binary, rsqrt, add_scalar, tmap. cbn [shape]. rewrite Hx.
  assert (broadcast_shapes [B; Sq; D] (<[2%nat:=1%nat]> [B; Sq; D]) = Ok [B; Sq; D]) as ->.
  { unfold broadcast_shapes. cbn [rev app broadcast_rev mbind result_bind insert list_insert].
    rewrite !Nat.eqb_refl. destruct (D =? 1)%nat; reflexivity. }
  rewrite bind_Ok_l.
  eexists. split; [reflexivity|]. split; [reflexivity|].
  intros b s j Hb Hs Hj. cbn [elem].
  unfold broadcast_index. cbn [length Nat.sub drop zip_with insert list_insert].
  assert (forall n i0, (i0 < n)%nat -> (if (n =? 1)%nat then 0%nat else i0) = i0) as Hsel.
  { intros n i0 Hlt. destruct (n =? 1)%nat eqn:Hn; [|reflexivity].
    apply Nat.eqb_eq in Hn. lia. }
  rewrite !Hsel by assumption. cbn [Nat.eqb].
  unfold size. cbn [shape].
  cbn [lookup list_lookup default from_option insert list_insert]. unfold Datatypes.id.
  reflexivity.
Qed.

Lemma binary_broadcast_last {A B C} (op : A -> B -> C)
    (t : Tensor A) (u : Tensor B) (a b d : nat) :
  shape t = [a; b; d] ->
  shape u = [d] ->
  exists r,
    binary op t u = Ok r
    /\ shape r = [a; b; d]
    /\ forall i j l, (i < a)%nat -> (j < b)%nat -> (l < d)%nat ->
         elem r [i; j; l] = op (elem t [i; j; l]) (elem u [l]).
Proof.
  intros Ht Hu. unfold binary. rewrite Ht, Hu.
  assert (broadcast_shapes [a; b; d] [d] = Ok [a; b; d]) as ->.
  { unfold broadcast_shapes. cbn [rev app broadcast_rev mbind result_bind].
    rewrite Nat.eqb_refl. reflexivity. }
  rewrite bind_Ok_l.
  eexists. split; [reflexivity|]. split; [reflexivity|].
  intros i j l Hi Hj Hl. cbn [elem].
  unfold broadcast_index. cbn [length Nat.sub drop zip_with].
  assert (forall n i0, (i0 < n)%nat -> (if (n =? 1)%nat then 0%nat else i0) = i0) as Hsel.
  { intros n i0 Hlt. destruct (n =? 1)%nat eqn:Hn; [|reflexivity].
    apply Nat.eqb_eq in Hn. lia. }
  rewrite !Hsel by assumption. reflexivity.
Qed.

Lemma RMSNorm_forward_elem (self : RMSNorm) (x : Tensor R) (B Sq D : nat) :
  shape x = [B; Sq; D] ->
  shape (rmsnorm_weight self) = [D] ->
  exists out,
    RMSNorm_forward self x = Ok out
    /\ shape out = [B; Sq; D]
    /\ forall b s j, (b < B)%nat -> (s < Sq)%nat -> (j < D)%nat ->
         elem out [b; s; j]
         = (elem x [b; s; j] * (1 / sqrt (mean_square x D b s + eps self))
            * (if add_unit_offset self
               then 1 + elem (rmsnorm_weight self) [j]
               else elem (rmsnorm_weight self) [j]))%R.
Proof.
  intros Hx Hw. unfold RMSNorm_forward, float, type_as.
  destruct (RMSNorm__norm_elem self x B Sq D Hx) as (y & -> & Hy & Hyelem).
  rewrite bind_Ok_l.
  destruct (add_unit_offset self).
  - destruct (binary_broadcast_last Rmult y
                (tmap (fun w => (1 + w)%R) (rmsnorm_weight self)) B Sq D Hy Hw)
      as (out & -> & Hout & Helem).
    exists out. split; [reflexivity|]. split; [assumption|].
    intros b s j Hb Hs Hj. rewrite Helem, Hyelem by assumption. reflexivity.
  - destruct (binary_broadcast_last Rmult y (rmsnorm_weight self) B Sq D Hy Hw)
      as (out & -> & Hout & Helem).
    exists out. split; [reflexivity|]. split; [assumption|].
    intros b s j Hb Hs Hj. rewrite Helem, Hyelem by assumption. reflexivity.
Qed.

(** X10. [RMSNorm.forward] normalises each vector of the last dimension
    on its own and scales component [j] by the weight at [j]: for [x] of
    shape (B, S, D) and a weight of shape (D),
    out[b,s,j] = x[b,s,j] / sqrt(mean_i x[b,s,i]^2 + eps) * (1 + w[j]),
    with [w[j]] instead of [1 + w[j]] when [add_unit_offset] is off. *)
Theorem RMSNorm_forward_per_vector (self : RMSNorm) (x : Tensor R) (B Sq D : nat) :
  shape x = [B; Sq; D] ->
  shape (rmsnorm_weight self) = [D] ->
  exists out,
    RMSNorm_forward self x = Ok out
    /\ shape out = shape x
    /\ forall b s j, (b < B)%nat -> (s < Sq)%nat -> (j < D)%nat ->
         elem out [b; s; j]
         = (elem x [b; s; j] / sqrt (mean_square x D b s + eps self)
            * (if add_unit_offset self
               then 1 + elem (rmsnorm_weight self) [j]
               else elem (rmsnorm_weight self) [j]))%R.
Proof.
  intros Hx Hw.
  destruct (RMSNorm_forward_elem self x B Sq D Hx Hw) as (out & Hout & Hshape & Helem).
  exists out. split; [assumption|]. split; [congruence|].
  intros b s j Hb Hs Hj. rewrite Helem by assumption.
  unfold Rdiv. rewrite Rmult_1_l. reflexivity.
Qed.

(** X11. A layer as [RMSNorm.__init__] leaves it (unit offset on) whose
    weight is all zeros, the value it is created with, is the plain
    normalisation: [forward] and [_norm] agree on every element. *)
Theorem RMSNorm_forward_zero_weight (dim : Z) (eps_ : R) (device : string)
    (x : Tensor R) (B Sq D : nat) :
  let self := RMSNorm_init dim eps_ device in
  shape x = [B; Sq; D] ->
  shape (rmsnorm_weight self) = [D] ->
  (forall j, (j < D)%nat -> elem (rmsnorm_weight self) [j] = 0%R) ->
  exists out y,
    RMSNorm_forward self x = Ok out
    /\ RMSNorm__norm self x = Ok y
    /\ shape out = shape y
    /\ forall b s j, (b < B)%nat -> (s < Sq)%nat -> (j < D)%nat ->
         elem out [b; s; j] = elem y [b; s; j].
Proof.
  intros self Hx Hw Hzero.
  destruct (RMSNorm_forward_elem self x B Sq D Hx Hw) as (out & Hout & Hshape & Helem).
  destruct (RMSNorm__norm_elem self x B Sq D Hx) as (y & Hy & Hyshape & Hyelem).
  exists out, y. split; [assumption|]. split; [assumption|]. split; [congruence|].
  intros b s j Hb Hs Hj. rewrite Helem, Hyelem by assumption.
  change (add_unit_offset self) with true. cbv iota.
  rewrite Hzero by assumption. ring.
Qed.

(** X12. With a positive [eps], [RMSNorm._norm] returns vectors whose mean
    square is [ms / (ms + eps)], where [ms] is the mean square of the
    input vector: always below 1, and 0 for a zero vector, which is
    divided by [sqrt eps] and not by zero. *)
Theorem RMSNorm__norm_mean_square (self : RMSNorm) (x : Tensor R) (B Sq D : nat) :
  shape x = [B; Sq; D] ->
  (0 < D)%nat ->
  (0 < eps self)%R ->
  exists y,
    RMSNorm__norm self x = Ok y
    /\ shape y = shape x
    /\ forall b s, (b < B)%nat -> (s < Sq)%nat ->
         mean_square y D b s
         = (mean_square x D b s / (mean_square x D b s + eps self))%R
         /\ (0 <= mean_square y D b s < 1)%R.
Proof.
  intros Hx HD Heps.
  destruct (RMSNorm__norm_elem self x B Sq D Hx) as (y & Hy & Hyshape & Hyelem).
  exists y. split; [assumption|]. split; [congruence|].
  intros b s Hb Hs.
  assert (0 < INR D)%R as HDpos by (apply lt_0_INR; assumption).
  assert (0 <= mean_square x D b s)%R as Hms.
  { unfold mean_square. apply Rmult_le_pos.
    - apply (sum_n_squares_nonneg D (fun i => elem x [b; s; i])).
    - left. apply Rinv_0_lt_compat. assumption. }
  assert (sum_n D (fun i => elem x [b; s; i] * elem x [b; s; i])
          = mean_square x D b s * INR D)%R as Hsum
    by (unfold mean_square; field; lra).
  assert (forall j, (j < D)%nat ->
            elem y [b; s; j]
            = (elem x [b; s; j] * (1 / sqrt (mean_square x D b s + eps self)))%R) as Hy_bs
    by (intros j Hj; apply Hyelem; assumption).
  set (ms := mean_square x D b s) in *. clearbody ms.
  assert (mean_square y D b s = ms / (ms + eps self))%R as Heq.
  { unfold mean_square.
    rewrite (sum_n_ext D _
               (fun j => (1 / (ms + eps self)
                          * (elem x [b; s; j] * elem x [b; s; j]))%R)).
    - rewrite sum_n_scale, Hsum. field. lra.
    - intros j Hj. rewrite !Hy_bs by assumption.
      assert (sqrt (ms + eps self) * sqrt (ms + eps self) = ms + eps self)%R as Hsq
        by (apply sqrt_sqrt; lra).
      assert (sqrt (ms + eps self) <> 0)%R as Hne.
      { intros Hz. rewrite Hz in Hsq. lra. }
      replace (1 / (ms + eps self))%R
        with (1 / (sqrt (ms + eps self) * sqrt (ms + eps self)))%R
        by (rewrite Hsq; reflexivity).
      cbv beta. field. assumption. }
  split; [exact Heq|]. rewrite Heq. split.
  - apply Rmult_le_pos; [assumption|]. left. apply Rinv_0_lt_compat. lra.
  - apply (Rmult_lt_reg_r (ms + eps self)); [lra|].
    unfold Rdiv. rewrite Rmult_assoc, Rinv_l by lra. lra.
Qed.

End Norm.

#[local] Existing Instance identity_backend.

Lemma RMSNorm_forward_per_vector_witness :
  let self := RMSNorm_init 4 (1 / 1000000) "cpu" in
  exists out,
    RMSNorm_forward self ones_1_1_4 = Ok out
    /\ shape out = shape ones_1_1_4
    /\ forall b s j, (b < 1)%nat -> (s < 1)%nat -> (j < 4)%nat ->
         elem out [b; s; j]
         = (elem ones_1_1_4 [b; s; j] / sqrt (mean_square ones_1_1_4 4 b s + eps self)
            * (if add_unit_offset self
               then 1 + elem (rmsnorm_weight self) [j]
               else elem (rmsnorm_weight self) [j]))%R.
Proof.
  apply (RMSNorm_forward_per_vector (RMSNorm_init 4 (1 / 1000000) "cpu") ones_1_1_4 1 1 4);
    reflexivity.
Defined.

Lemma RMSNorm_forward_zero_weight_witness :
  let self := RMSNorm_init 4 (1 / 1000000) "cpu" in
  exists out y,
    RMSNorm_forward self ones_1_1_4 = Ok out
    /\ RMSNorm__norm self ones_1_1_4 = Ok y
    /\ shape out = shape y
    /\ forall b s j, (b < 1)%nat -> (s < 1)%nat -> (j < 4)%nat ->
         elem out [b; s; j] = elem y [b; s; j].
Proof.
  apply (RMSNorm_forward_zero_weight 4 (1 / 1000000) "cpu" ones_1_1_4 1 1 4);
    [reflexivity | reflexivity | intros j _; reflexivity].
Defined.

Lemma RMSNorm__norm_mean_square_witness :
  let self := RMSNorm_init 4 (1 / 1000000) "cpu" in
  exists y,
    RMSNorm__norm self ones_1_1_4 = Ok y
    /\ shape y = shape ones_1_1_4
    /\ forall b s, (b < 1)%nat -> (s < 1)%nat ->
         mean_square y 4 b s
         = (mean_square ones_1_1_4 4 b s / (mean_square ones_1_1_4 4 b s + eps self))%R
         /\ (0 <= mean_square y 4 b s < 1)%R.
Proof.
  apply (RMSNorm__norm_mean_square (RMSNorm_init 4 (1 / 1000000) "cpu") ones_1_1_4 1 1 4);
    [reflexivity | lia | simpl; lra].
Defined.

End RMSNormProperties.

(** ** Attention *)

Module AttentionProperties.

Import Torch Gemma TorchFacts Examples.
Local Open Scope Z_scope.

(** X13. A [GemmaAttention] that was constructed is consistent: the query
    width is the group size times the key/value width; the four
    projections have the widths the views in [forward] rely on and no
    bias; they are all quantized or all plain, as the environment's
    weight-quantization switch says; and the kernel is the int8 one
    exactly when kv quantization is on, with the layer id given. *)
Theorem GemmaAttention_init_consistent
    hidden_size num_heads num_kv_heads head_dim device env layer_id self :
  GemmaAttention_init hidden_size num_heads num_kv_heads head_dim device env layer_id
  = Ok self ->
  q_size self = num_queries_per_kv self * kv_size self
  /\ q_size self = Gemma.num_heads self * attn_head_dim self
  /\ kv_size self = Gemma.num_kv_heads self * attn_head_dim self
  /\ (in_features (wq self), out_features (wq self)) = (hidden_size, q_size self)
  /\ (in_features (wk self), out_features (wk self)) = (hidden_size, kv_size self)
  /\ (in_features (wv self), out_features (wv self)) = (hidden_size, kv_size self)
  /\ (in_features (o_proj self), out_features (o_proj self)) = (q_size self, hidden_size)
  /\ Forall (fun l => bias l = false
                      /\ linear_device l = device
                      /\ linear_class l
                         = (if enable_weight_quantization (quant_config env)
                            then WeightOnlyPerChannelQuantizedLinear else TorchLinear))
       [wq self; wk self; wv self; o_proj self]
  /\ attention_kernel self
     = {| kernel_class := if enable_kv_quantization (quant_config env)
                          then Int8KVAttentionKernel else AttentionKernel;
          kernel_env := env; kernel_layer_id := layer_id |}.
Proof.
  unfold GemmaAttention_init, py_mod, py_floordiv. intros Hinit.
  destruct (num_kv_heads =? 0) eqn:Hkv; [discriminate|].
  apply Z.eqb_neq in Hkv. rewrite !bind_Ok_l in Hinit.
  destruct (num_heads mod num_kv_heads =? 0) eqn:Hmod; [|discriminate].
  apply Z.eqb_eq in Hmod. cbn [assert] in Hinit. rewrite !bind_Ok_l in Hinit.
  apply bind_Ok in Hinit as (sc & _ & Hinit). injection Hinit as <-. cbn.
  split.
  { rewrite Z.mul_assoc. f_equal. symmetry. rewrite Z.mul_comm.
    apply Z.div_exact in Hmod; [symmetry; exact Hmod | assumption]. }
  repeat split.
  destruct (enable_weight_quantization (quant_config env));
    repeat constructor.
Qed.

Lemma GemmaAttention_init_consistent_witness :
  exists self,
    GemmaAttention_init 2048 8 1 256 "meta" tiny_env 0 = Ok self
    /\ q_size self = num_queries_per_kv self * kv_size self.
Proof.
  destruct (GemmaAttention_init 2048 8 1 256 "meta" tiny_env 0) as [self|e] eqn:Hinit.
  - exists self. split; [reflexivity|].
    apply (GemmaAttention_init_consistent _ _ _ _ _ _ _ _ Hinit).
  - discriminate Hinit.
Defined.

Section Forward.

Context {Cache : Type} `{Backend Cache}.

(** X14. [GemmaAttention.forward] touches the cache only through the
    attention kernel.  A hidden state that is not 3-dimensional is
    rejected with the cache as it was; in general either the pass failed
    before the kernel and the cache is as it was, or the kernel was called
    once, on the cache as passed in and with the mask, cursors and ragged
    tables as passed in, the cache is as that call left it, and an
    exception of the kernel is the exception of the pass. *)
Theorem GemmaAttention_forward_cache (self : GemmaAttention)
    (hidden_states : FTensor) (freqs_cis : CTensor) (mask : FTensor)
    (start end_ rbi rbk : option ITensor) (cache : Cache) :
  let run := GemmaAttention_forward self hidden_states freqs_cis mask
               start end_ rbi rbk cache in
  (length (shape hidden_states) <> 3%nat -> run = (Raise AssertionError, cache))
  /\ ((is_ok run.1 = false /\ run.2 = cache)
      \/ exists xq xk xv,
           let k := kernel_forward (attention_kernel self) xq xk xv mask cache
                      start end_ rbi rbk in
           run.2 = k.2 /\ forall e, k.1 = Raise e -> run.1 = Raise e).
Proof.
  cbv zeta. unfold GemmaAttention_forward. split.
  { intros Hdim. apply Nat.eqb_neq in Hdim. rewrite M_bind_lift, Hdim. reflexivity. }
  rewrite M_bind_lift.
  destruct (length (shape hidden_states) =? 3)%nat; [|left; split; reflexivity].
  cbn [assert]. rewrite M_bind_lift.
  destruct (shape hidden_states) as [|batch_size [|input_len [|d [|]]]];
    try (left; split; reflexivity).
  repeat (rewrite M_bind_lift;
          match goal with
          | |- context [match ?r with Ok _ => _ | Raise _ => _ end] =>
              destruct r; [|left; split; reflexivity]
          end).
  right. rewrite M_bind_run.
  match goal with
  | |- context [kernel_forward ?K ?q ?k ?v mask cache start end_ rbi rbk] =>
      exists q, k, v;
      destruct (kernel_forward K q k v mask cache start end_ rbi rbk) as [[o|e] cache']
  end; cbn [fst snd].
  - split; [|discriminate].
    repeat (rewrite M_bind_lift;
            match goal with
            | |- context [match ?r with Ok _ => _ | Raise _ => _ end] =>
                destruct r; [|reflexivity]
            end).
    reflexivity.
  - split; [reflexivity|]. intros e' [= <-]. reflexivity.
Qed.

End Forward.

End AttentionProperties.

Module AttentionLayout.

Import Torch Gemma TorchFacts RotaryProperties Examples Notions.

#[local] Existing Instance identity_backend.

(** [t.view(a, -1, n, d)] of a [t] of shape (a, l, n * d) splits the last
    dimension into [n] heads of [d] entries. *)
Lemma infer_size_heads (a l n d : nat) :
  (0 < a)%nat -> (0 < n)%nat -> (0 < d)%nat ->
  infer_size [Z.of_nat a; (-1)%Z; Z.of_nat n; Z.of_nat d] (numel [a; l; (n * d)%nat])
  = Ok [a; l; n; d].
Proof.
  intros Ha Hn Hd. unfold infer_size.
  assert (forall k, (-1 <=? Z.of_nat k)%Z = true) as Hge
    by (intros k; apply Z.leb_le; lia).
  cbn [forallb]. rewrite !Hge. cbn [andb Z.leb Z.compare Pos.compare Pos.compare_cont].
  rewrite filter_cons_True by lia.
  rewrite filter_cons_False by (intros Hne; apply Hne; reflexivity).
  rewrite !filter_cons_True by lia. rewrite filter_nil.
  cbn [length Nat.sub fmap list_fmap numel fold_right]. rewrite !Nat2Z.id.
  assert (a * (l * (n * d * 1)) = l * (a * (n * (d * 1))))%nat as -> by lia.
  assert ((0 <? a * (n * (d * 1)))%nat = true) as -> by (apply Nat.ltb_lt; nia).
  rewrite Nat.Div0.mod_mul. cbn [Nat.eqb andb].
  rewrite Nat.div_mul by nia.
  assert (forall k, (Z.of_nat k =? -1)%Z = false) as Hne
    by (intros k; apply Z.eqb_neq; lia).
  rewrite !Hne. reflexivity.
Qed.

Lemma view_heads {A} (t : Tensor A) (a l n d : nat) :
  shape t = [a; l; (n * d)%nat] ->
  (0 < a)%nat -> (0 < n)%nat -> (0 < d)%nat ->
  exists r,
    view t [Z.of_nat a; (-1)%Z; Z.of_nat n; Z.of_nat d] = Ok r
    /\ shape r = [a; l; n; d]
    /\ forall b s h j, (b < a)%nat -> (s < l)%nat -> (h < n)%nat -> (j < d)%nat ->
         elem r [b; s; h; j] = elem t [b; s; (h * d + j)%nat].
Proof.
  intros Ht Ha Hn Hd. unfold view, reshape. rewrite Ht.
  rewrite infer_size_heads by assumption. rewrite bind_Ok_l.
  eexists. split; [reflexivity|]. split; [reflexivity|].
  intros b s h j Hb Hs Hh Hj. cbn [elem].
  assert (flat_index [a; l; n; d] [b; s; h; j]
          = flat_index [a; l; (n * d)%nat] [b; s; (h * d + j)%nat]) as ->
    by (cbn; lia).
  rewrite unflatten_flat_index; [reflexivity|].
  cbn [in_range]. rewrite andb_true_r.
  repeat (apply andb_true_iff; split); apply Nat.ltb_lt; nia.
Qed.

Section Forward.

Context {Cache : Type} `{Backend Cache}.

(** X27. What [GemmaAttention.forward] hands to the attention kernel.
    For a hidden state of shape (B, L, D), projections that return
    (B, L, heads * head_dim) tensors and a rotary table of shape
    (B, L, head_dim / 2): the queries, keys and values reach the kernel
    in (B, heads, L, head_dim) layout, head [h] being entries
    [h * head_dim ..] of the projection; queries and keys are rotated by
    the table entry of their batch row and position, values are not
    rotated.  The cache is left as the kernel leaves it, and the kernel's
    output goes through [transpose(1, 2)], [view(B, L, -1)] and the
    output projection. *)
Theorem GemmaAttention_forward_kernel_inputs (self : GemmaAttention)
    (hidden_states : FTensor) (freqs_cis : CTensor) (mask : FTensor)
    (start end_ rbi rbk : option ITensor) (cache : Cache)
    (B L D nh nkv K : nat) (q0 k0 v0 : FTensor) :
  shape hidden_states = [B; L; D] ->
  Gemma.num_heads self = Z.of_nat nh ->
  Gemma.num_kv_heads self = Z.of_nat nkv ->
  attn_head_dim self = Z.of_nat (2 * K) ->
  linear_forward (wq self) hidden_states = Ok q0 ->
  linear_forward (wk self) hidden_states = Ok k0 ->
  linear_forward (wv self) hidden_states = Ok v0 ->
  shape q0 = [B; L; (nh * (2 * K))%nat] ->
  shape k0 = [B; L; (nkv * (2 * K))%nat] ->
  shape v0 = [B; L; (nkv * (2 * K))%nat] ->
  shape freqs_cis = [B; L; K] ->
  (0 < B)%nat -> (0 < L)%nat -> (0 < nh)%nat -> (0 < nkv)%nat -> (0 < K)%nat ->
  exists xq xk xv,
    shape xq = [B; nh; L; (2 * K)%nat]
    /\ shape xk = [B; nkv; L; (2 * K)%nat]
    /\ shape xv = [B; nkv; L; (2 * K)%nat]
    /\ (forall b h s j, (b < B)%nat -> (h < nh)%nat -> (s < L)%nat -> (j < K)%nat ->
          let c := (elem freqs_cis [b; s; j]).1 in
          let sn := (elem freqs_cis [b; s; j]).2 in
          let lo := elem q0 [b; s; (h * (2 * K) + j)%nat] in
          let hi := elem q0 [b; s; (h * (2 * K) + (K + j))%nat] in
          elem xq [b; h; s; j] = (lo * c - hi * sn)%R
          /\ elem xq [b; h; s; (K + j)%nat] = (lo * sn + hi * c)%R)
    /\ (forall b h s j, (b < B)%nat -> (h < nkv)%nat -> (s < L)%nat -> (j < K)%nat ->
          let c := (elem freqs_cis [b; s; j]).1 in
          let sn := (elem freqs_cis [b; s; j]).2 in
          let lo := elem k0 [b; s; (h * (2 * K) + j)%nat] in
          let hi := elem k0 [b; s; (h * (2 * K) + (K + j))%nat] in
          elem xk [b; h; s; j] = (lo * c - hi * sn)%R
          /\ elem xk [b; h; s; (K + j)%nat] = (lo * sn + hi * c)%R)
    /\ (forall b h s j, (b < B)%nat -> (h < nkv)%nat -> (s < L)%nat -> (j < 2 * K)%nat ->
          elem xv [b; h; s; j] = elem v0 [b; s; (h * (2 * K) + j)%nat])
    /\ GemmaAttention_forward self hidden_states freqs_cis mask start end_ rbi rbk cache
       = let k := kernel_forward (attention_kernel self) xq xk xv mask cache
                    start end_ rbi rbk in
         (output ← k.1;
          output ← transpose output 1 2;
          output ← view (contiguous output) [Z.of_nat B; Z.of_nat L; (-1)%Z];
          linear_forward (o_proj self) output,
          k.2).
Proof.
  intros Hh Hnh Hnkv Hhd Hq0 Hk0 Hv0 Sq0 Sk0 Sv0 Sf HB HL Hnh0 Hnkv0 HK.
  unfold GemmaAttention_forward. rewrite Hh. cbn [length Nat.eqb assert].
  rewrite !M_bind_lift. rewrite Hq0, M_bind_lift, Hk0, M_bind_lift, Hv0.
  rewrite Hnh, Hnkv, Hhd.
  destruct (view_heads q0 B L nh (2 * K) Sq0 HB Hnh0 ltac:(lia))
    as (q1 & Hq1 & Sq1 & Eq1).
  destruct (view_heads k0 B L nkv (2 * K) Sk0 HB Hnkv0 ltac:(lia))
    as (k1 & Hk1 & Sk1 & Ek1).
  destruct (view_heads v0 B L nkv (2 * K) Sv0 HB Hnkv0 ltac:(lia))
    as (v1 & Hv1 & Sv1 & Ev1).
  rewrite M_bind_lift, Hq1, M_bind_lift, Hk1, M_bind_lift, Hv1.
  unfold apply_sharding.
  replace (2 * K)%nat with (K + K)%nat in * by lia.
  destruct (apply_rotary_emb_elem_R q1 freqs_cis B L nh K Sq1 Sf HB HL Hnh0)
    as (q2 & Hq2 & Sq2 & Eq2).
  destruct (apply_rotary_emb_elem_R k1 freqs_cis B L nkv K Sk1 Sf HB HL Hnkv0)
    as (k2 & Hk2 & Sk2 & Ek2).
  rewrite M_bind_lift, Hq2, M_bind_lift, Hk2.
  destruct (transpose_1_2 k2 _ _ _ _ Sk2) as (k3 & Hk3 & Sk3 & Ek3).
  destruct (transpose_1_2 v1 _ _ _ _ Sv1) as (v3 & Hv3 & Sv3 & Ev3).
  destruct (transpose_1_2 q2 _ _ _ _ Sq2) as (q3 & Hq3 & Sq3 & Eq3).
  rewrite M_bind_lift, Hk3, M_bind_lift, Hv3, M_bind_lift, Hq3.
  exists q3, k3, v3.
  split; [exact Sq3|]. split; [exact Sk3|]. split; [exact Sv3|].
  split; [|split; [|split]].
  - intros b h s j Hb Hh' Hs Hj. cbv zeta. rewrite !Eq3.
    destruct (Eq2 b s h j Hb Hs Hh' Hj) as [-> ->].
    rewrite !Eq1 by lia. replace (h * (K + K) + (K + j))%nat with (h * (K + K) + (K + j))%nat
      by reflexivity. split; reflexivity.
  - intros b h s j Hb Hh' Hs Hj. cbv zeta. rewrite !Ek3.
    destruct (Ek2 b s h j Hb Hs Hh' Hj) as [-> ->].
    rewrite !Ek1 by lia. split; reflexivity.
  - intros b h s j Hb Hh' Hs Hj. rewrite Ev3. apply Ev1; assumption.
  - cbv zeta. rewrite M_bind_run.
    destruct (kernel_forward (attention_kernel self) q3 k3 v3 mask cache start end_ rbi rbk)
      as [[o|e] cache']; cbn [fst snd]; [|reflexivity].
    rewrite bind_Ok_l. rewrite M_bind_lift.
    destruct (transpose o 1 2) as [o1|e1]; [|reflexivity].
    rewrite bind_Ok_l. rewrite M_bind_lift.
    destruct (view (contiguous o1) _) as [o2|e2]; [|reflexivity].
    rewrite bind_Ok_l. rewrite M_bind_lift.
    destruct (linear_forward (o_proj self) o2); reflexivity.
Qed.

End Forward.

Lemma GemmaAttention_init_fields
    hidden_size num_heads num_kv_heads head_dim device env layer_id self :
  GemmaAttention_init hidden_size num_heads num_kv_heads head_dim device env layer_id
  = Ok self ->
  Gemma.num_heads self = num_heads
  /\ Gemma.num_kv_heads self = num_kv_heads
  /\ attn_head_dim self = head_dim
  /\ out_features (wq self) = (num_heads * head_dim)%Z
  /\ out_features (wk self) = (num_kv_heads * head_dim)%Z
  /\ out_features (wv self) = (num_kv_heads * head_dim)%Z.
Proof.
  unfold GemmaAttention_init. intros Hinit.
  apply bind_Ok in Hinit as (r & _ & Hinit). apply bind_Ok in Hinit as (u & _ & Hinit).
  apply bind_Ok in Hinit as (q & _ & Hinit). apply bind_Ok in Hinit as (sc & _ & Hinit).
  injection Hinit as <-. cbn. repeat split.
Qed.

Lemma GemmaAttention_forward_kernel_inputs_witness :
  exists self xq xk xv,
    GemmaAttention_init 4 2 1 2 "cpu" tiny_env 0 = Ok self
    /\ shape xq = [1; 2; 1; 2]%nat
    /\ shape xk = [1; 1; 1; 2]%nat
    /\ shape xv = [1; 1; 1; 2]%nat
    /\ GemmaAttention_forward self ones_1_1_4 quarter_turn ones_1_1_4
         None None None None 0%nat
       = let k := kernel_forward (attention_kernel self) xq xk xv ones_1_1_4 0%nat
                    None None None None in
         (output ← k.1;
          output ← transpose output 1 2;
          output ← view (contiguous output) [1%Z; 1%Z; (-1)%Z];
          linear_forward (o_proj self) output,
          k.2).
Proof.
  destruct (GemmaAttention_init 4 2 1 2 "cpu" tiny_env 0) as [self|e] eqn:Hinit.
  - destruct (GemmaAttention_init_fields _ _ _ _ _ _ _ _ Hinit)
      as (Hnh & Hnkv & Hhd & Hwq & Hwk & Hwv).
    edestruct (GemmaAttention_forward_kernel_inputs self ones_1_1_4 quarter_turn ones_1_1_4
                 None None None None 0%nat 1 1 4 2 1 1)
      as (xq & xk & xv & Sq & Sk & Sv & _ & _ & _ & Hrun);
      [reflexivity | exact Hnh | exact Hnkv | exact Hhd
       | unfold linear_forward, identity_backend; reflexivity
       | unfold linear_forward, identity_backend; reflexivity
       | unfold linear_forward, identity_backend; reflexivity
       | cbn [shape ones_1_1_4 removelast app]; rewrite Hwq; reflexivity
       | cbn [shape ones_1_1_4 removelast app]; rewrite Hwk; reflexivity
       | cbn [shape ones_1_1_4 removelast app]; rewrite Hwv; reflexivity
       | reflexivity | lia | lia | lia | lia | lia |].
    exists self, xq, xk, xv. auto.
  - exfalso. revert Hinit. unfold GemmaAttention_init. cbn. discriminate.
Defined.

End AttentionLayout.

(** ** The model *)

Module ModelProperties.

Import Torch Gemma TorchFacts GemmaAttentionFacts GemmaModelFacts RotaryProperties Examples Notions.

#[local] Existing Instance identity_backend.

(** [precompute_freqs_cis] returns only for a dimension and a length that
    are not negative. *)
Lemma precompute_freqs_cis_Ok_nonneg (dim end_ : Z) (theta : R) (table : CTensor) :
  precompute_freqs_cis dim end_ theta = Ok table -> (0 <= dim)%Z /\ (0 <= end_)%Z.
Proof.
  unfold precompute_freqs_cis, arange. intros Htable.
  cbn [Z.leb Z.compare] in Htable.
  destruct (dim <? 0)%Z eqn:Hdim; [discriminate|].
  rewrite bind_Ok_l in Htable.
  apply bind_Ok in Htable as (ar & _ & Htable).
  destruct (end_ <? 0)%Z eqn:Hend; [discriminate|].
  apply Z.ltb_ge in Hdim, Hend. auto.
Qed.

(** The layers the constructor's loop builds, one per id. *)
Lemma build_layers_Ok (config : GemmaConfig) (env : Env) (ids : list nat)
    (ls : list GemmaDecoderLayer) :
  build_layers config env ids = Ok ls ->
  length ls = length ids
  /\ forall k l, ls !! k = Some l ->
       exists layer_id,
         ids !! k = Some layer_id
         /\ GemmaDecoderLayer_init config env layer_id = Ok l.
Proof.
  revert ls. induction ids as [|i ids IH]; intros ls Hls; cbn [build_layers] in Hls.
  - injection Hls as <-. split; [reflexivity|]. intros k l Hk. discriminate Hk.
  - apply bind_Ok in Hls as (l0 & Hl0 & Hls).
    apply bind_Ok in Hls as (ls0 & Hls0 & Hls). injection Hls as <-.
    destruct (IH ls0 Hls0) as [Hlen Hall]. split; [simpl; congruence|].
    intros [|k] l Hk.
    + injection Hk as <-. exists i. auto.
    + apply Hall. exact Hk.
Qed.

Lemma GemmaModel_init_length (config : GemmaConfig) (env : Env) (m : GemmaModel) :
  GemmaModel_init config env = Ok m ->
  length (layers m) = Z.to_nat (num_hidden_layers config).
Proof.
  unfold GemmaModel_init. intros Hinit.
  apply bind_Ok in Hinit as (ls & Hls & Hinit).
  apply bind_Ok in Hinit as (table & _ & Hinit). injection Hinit as <-.
  cbn [layers register_buffer].
  destruct (build_layers_Ok _ _ _ _ Hls) as [Hlen _].
  rewrite length_seq in Hlen. exact Hlen.
Qed.

(** X15. A [GemmaModel] that was constructed has one decoder layer per
    [num_hidden_layers], in order: layer [i] has an attention kernel with
    layer id [i], attention sizes taken from the configuration, and both
    of its norms, like the final norm, over [hidden_size] with the
    configuration's epsilon.  If it has a layer at all, the number of
    attention heads is a multiple of the non-zero number of key/value
    heads.  Its [freqs_cis] buffer has [2 * max_position_embeddings] rows
    of [head_dim // 2] entries. *)
Theorem GemmaModel_init_structure (config : GemmaConfig) (env : Env) (m : GemmaModel) :
  GemmaModel_init config env = Ok m ->
  length (layers m) = Z.to_nat (num_hidden_layers config)
  /\ (forall i l, layers m !! i = Some l ->
        kernel_layer_id (attention_kernel (self_attn l)) = i
        /\ Gemma.num_heads (self_attn l) = num_attention_heads config
        /\ Gemma.num_kv_heads (self_attn l) = num_key_value_heads config
        /\ attn_head_dim (self_attn l) = head_dim config
        /\ input_layernorm l
           = RMSNorm_init (hidden_size config) (rms_norm_eps config) (config_device config)
        /\ post_attention_layernorm l
           = RMSNorm_init (hidden_size config) (rms_norm_eps config) (config_device config))
  /\ norm m = RMSNorm_init (hidden_size config) (rms_norm_eps config) (config_device config)
  /\ ((0 < num_hidden_layers config)%Z ->
        num_key_value_heads config <> 0%Z
        /\ (num_attention_heads config mod num_key_value_heads config = 0)%Z)
  /\ exists table,
       buffers m !! "freqs_cis" = Some table
       /\ shape table = [Z.to_nat (2 * max_position_embeddings config);
                         Z.to_nat (head_dim config / 2)].
Proof.
  intros Hinit.
  destruct (GemmaModel_init_buffers config env m Hinit) as (table & Htable & Hbuf).
  unfold GemmaModel_init in Hinit.
  apply bind_Ok in Hinit as (ls & Hls & Hinit).
  apply bind_Ok in Hinit as (table' & _ & Hinit). injection Hinit as <-.
  cbn [layers register_buffer norm].
  destruct (build_layers_Ok _ _ _ _ Hls) as [Hlen Hall].
  rewrite length_seq in Hlen.
  assert (forall i l, ls !! i = Some l ->
            exists a, GemmaAttention_init (hidden_size config) (num_attention_heads config)
                        (num_key_value_heads config) (head_dim config)
                        (config_device config) env i = Ok a
                      /\ l = {| self_attn := a;
                                mlp := GemmaMLP_init (hidden_size config)
                                         (intermediate_size config) (config_device config) env;
                                input_layernorm :=
                                  RMSNorm_init (hidden_size config) (rms_norm_eps config)
                                    (config_device config);
                                post_attention_layernorm :=
                                  RMSNorm_init (hidden_size config) (rms_norm_eps config)
                                    (config_device config) |}) as Hlayer.
  { intros i l Hi. destruct (Hall i l Hi) as (layer_id & Hid & Hl).
    apply lookup_seq in Hid as [-> _]. simpl in Hl.
    unfold GemmaDecoderLayer_init in Hl.
    apply bind_Ok in Hl as (a & Ha & Hl). injection Hl as <-. eauto. }
  split; [exact Hlen|]. split; [|split; [reflexivity|split]].
  - intros i l Hi. destruct (Hlayer i l Hi) as (a & Ha & ->). cbn.
    unfold GemmaAttention_init in Ha.
    apply bind_Ok in Ha as (r & _ & Ha). apply bind_Ok in Ha as (? & _ & Ha).
    apply bind_Ok in Ha as (q & _ & Ha). apply bind_Ok in Ha as (sc & _ & Ha).
    injection Ha as <-. cbn. repeat split.
  - intros Hpos.
    destruct (ls !! 0%nat) as [l|] eqn:H0.
    2: { apply lookup_ge_None in H0. lia. }
    destruct (Hlayer 0%nat l H0) as (a & Ha & _).
    destruct (Z.eq_dec (num_key_value_heads config) 0%Z) as [Hkv|Hkv].
    { rewrite Hkv, GemmaAttention_init_zero_kv_heads in Ha. discriminate Ha. }
    split; [assumption|].
    destruct (Z.eq_dec (num_attention_heads config mod num_key_value_heads config)%Z 0%Z)
      as [Hmod|Hmod]; [assumption|].
    rewrite GemmaAttention_init_not_divisible in Ha by assumption. discriminate Ha.
  - exists table. rewrite Hbuf, lookup_singleton_eq. split; [reflexivity|].
    destruct (precompute_freqs_cis_Ok_nonneg _ _ _ _ Htable) as [Hdim Hend].
    destruct (precompute_freqs_cis_elem _ _ (default 10000%R (rope_theta config)) Hdim Hend)
      as (table2 & Htable2 & Hshape & _).
    rewrite Htable in Htable2. injection Htable2 as <-. rewrite Hshape.
    rewrite (Z.mul_comm 2). reflexivity.
Qed.

Lemma GemmaModel_init_structure_witness :
  exists m,
    GemmaModel_init tiny_config tiny_env = Ok m
    /\ length (layers m) = 2%nat
    /\ exists table,
         buffers m !! "freqs_cis" = Some table /\ shape table = [4%nat; 1%nat].
Proof.
  destruct (GemmaModel_init tiny_config tiny_env) as [m|e] eqn:Hinit.
  - destruct (GemmaModel_init_structure tiny_config tiny_env m Hinit)
      as (Hlen & _ & _ & _ & Htable).
    exists m. split; [reflexivity|]. split; [exact Hlen | exact Htable].
  - pose proof tiny_model_builds as Hok. rewrite Hinit in Hok. discriminate Hok.
Defined.

Section Forward.

Context {Cache : Type} `{Backend Cache}.

(** The multi-indices of a shape are those in range. *)
Lemma elem_of_indices (s idx : list nat) :
  idx ∈ indices s <-> in_range s idx = true.
Proof.
  revert idx. induction s as [|n s IH]; intros idx; cbn [indices in_range].
  - rewrite list_elem_of_singleton. destruct idx; split; congruence.
  - rewrite list_elem_of_bind. split.
    + intros (i & Hidx & Hi). apply list_elem_of_fmap in Hidx as (idx' & -> & Hidx').
      apply elem_of_seq in Hi. apply andb_true_iff. split.
      * apply Nat.ltb_lt. lia.
      * apply IH, Hidx'.
    + destruct idx as [|i idx']; [discriminate|].
      intros [Hi Hidx']%andb_true_iff. apply Nat.ltb_lt in Hi.
      exists i. split.
      * apply list_elem_of_fmap. exists idx'. split; [reflexivity | apply IH, Hidx'].
      * apply elem_of_seq. lia.
Qed.

(** Indexing with a position outside the rows raises. *)
Lemma index_out_of_range {A} (t : Tensor A) (ix : ITensor) (idx : list nat) :
  in_range (shape ix) idx = true ->
  wrap_index (default 0%nat (head (shape t))) (elem ix idx) = None ->
  index t ix = Raise IndexError.
Proof.
  intros Hidx Hwrap. unfold index.
  destruct (shape t) as [|n s']; [reflexivity|]. cbn in Hwrap.
  destruct (forallb _ _) eqn:Hall; [|reflexivity].
  rewrite forallb_forall in Hall.
  specialize (Hall idx). rewrite <- list_elem_of_In, elem_of_indices in Hall.
  specialize (Hall Hidx). rewrite Hwrap in Hall.
  apply bool_decide_eq_true in Hall. destruct Hall as [? [=]].
Qed.

(** X16. A model accepts positions inside its table only: if some entry
    of [input_pos] is at or beyond [2 * max_position_embeddings] (or below
    its negative), the forward pass of a constructed model raises
    [IndexError] before any layer is called, and the model, the caches
    and the record of calls are as they were. *)
Theorem GemmaModel_forward_position_out_of_range
    (config : GemmaConfig) (env : Env) (m : GemmaModel) (st : State)
    (tokens input_pos : ITensor) (mask : FTensor)
    (start rbi rbk : option ITensor) (bsz seqlen : nat) (idx : list nat) :
  GemmaModel_init config env = Ok m ->
  self_ st = m ->
  shape tokens = [bsz; seqlen] ->
  in_range (shape input_pos) idx = true ->
  (elem input_pos idx < - (2 * max_position_embeddings config)
   \/ 2 * max_position_embeddings config <= elem input_pos idx)%Z ->
  GemmaModel_forward tokens input_pos mask start rbi rbk st = (Raise IndexError, st).
Proof.
  intros Hinit Hself Htokens Hidx Hpos.
  destruct (GemmaModel_init_buffers config env m Hinit) as (table & Htable & Hbuf).
  destruct (precompute_freqs_cis_Ok_nonneg _ _ _ _ Htable) as [Hdim Hend].
  destruct (precompute_freqs_cis_elem _ _ (default 10000%R (rope_theta config)) Hdim Hend)
    as (table2 & Htable2 & Hshape & _).
  rewrite Htable in Htable2. injection Htable2 as <-.
  unfold GemmaModel_forward.
  rewrite M_bind_run. unfold get_state at 1.
  rewrite M_bind_lift, Htokens. rewrite M_bind_run. unfold get_buffer at 1.
  rewrite Hself, Hbuf, lookup_singleton_eq.
  rewrite M_bind_lift.
  rewrite (index_out_of_range table input_pos idx Hidx); [reflexivity|].
  rewrite Hshape. cbn [head default from_option]. unfold Datatypes.id, wrap_index.
  assert (Z.of_nat (Z.to_nat (max_position_embeddings config * 2))
          = (2 * max_position_embeddings config)%Z) as -> by lia.
  destruct Hpos as [Hlow|Hhigh].
  - assert ((0 <=? elem input_pos idx)%Z = false) as -> by lia.
    assert ((- (2 * max_position_embeddings config) <=? elem input_pos idx)%Z = false)
      as -> by lia.
    reflexivity.
  - assert ((elem input_pos idx <? 2 * max_position_embeddings config)%Z = false)
      as -> by lia.
    assert ((elem input_pos idx <? 0)%Z = false) as -> by lia.
    rewrite !andb_false_r. reflexivity.
Qed.

(** *** The caches *)

Lemma with_cache_caches {A} (i : nat) (f : M Cache A) (st : State) :
  length (caches (with_cache i f st).2) = length (caches st)
  /\ (forall j, j <> i -> caches (with_cache i f st).2 !! j = caches st !! j)
  /\ (is_ok (with_cache i f st).1 = true -> (i < length (caches st))%nat).
Proof.
  unfold with_cache. destruct (caches st !! i) as [cache|] eqn:Hi.
  - destruct (f cache) as [r cache']. cbn [fst snd caches].
    rewrite length_insert. split; [reflexivity|]. split.
    + intros j Hj. apply list_lookup_insert_ne. congruence.
    + intros _. apply lookup_lt_is_Some. eauto.
  - cbn. split; [reflexivity|]. split; [reflexivity | discriminate].
Qed.

Lemma forward_layers_caches (self : GemmaModel) (ids : list nat)
    (hidden_states : FTensor) (freqs_cis : CTensor) (mask : FTensor)
    (start end_ rbi rbk : option ITensor) (st : State) :
  let run := forward_layers self ids hidden_states freqs_cis mask start end_ rbi rbk st in
  length (caches run.2) = length (caches st)
  /\ (forall j, j ∉ ids -> caches run.2 !! j = caches st !! j)
  /\ (is_ok run.1 = true ->
      forall i, i ∈ ids -> (i < length (caches st))%nat /\ (i < length (layers self))%nat).
Proof.
  revert hidden_states st.
  induction ids as [|i ids IH]; intros hidden_states st; cbn [forward_layers].
  - cbn. split; [reflexivity|]. split; [reflexivity|].
    intros _ i Hi. apply elem_of_nil in Hi. contradiction.
  - cbv zeta. destruct (layers self !! i) as [layer|] eqn:Hlayer.
    2: { cbn. split; [reflexivity|]. split; [reflexivity | discriminate]. }
    rewrite M_bind_run.
    destruct (with_cache_caches i (mret tt) st) as (Hlen0 & Hframe0 & Hok0).
    assert (caches (with_cache i (mret tt) st).2 = caches st) as Hsame0.
    { unfold with_cache. destruct (caches st !! i) as [cache|] eqn:Hi; [|reflexivity].
      cbn. apply list_insert_id. exact Hi. }
    destruct (with_cache i (mret tt) st) as [[[]|e0] st0]; cbn [fst snd] in *.
    2: { split; [assumption|]. split; [intros; rewrite Hsame0; reflexivity | discriminate]. }
    rewrite M_bind_run, log_call_run. cbv beta iota.
    rewrite M_bind_run.
    match goal with
    | |- context [with_cache i ?f ?s] =>
        destruct (with_cache_caches i f s) as (Hlen1 & Hframe1 & Hok1);
        destruct (with_cache i f s) as [[h1|e1] st1]
    end; cbn [fst snd caches] in *.
    + specialize (IH h1 st1). cbv zeta in IH. destruct IH as (Hlen2 & Hframe2 & Hok2).
      split; [congruence|]. split.
      * intros j Hj. apply not_elem_of_cons in Hj as [Hji Hj].
        rewrite Hframe2, Hframe1, Hsame0 by assumption. reflexivity.
      * intros Hok k Hk. apply elem_of_cons in Hk as [->|Hk].
        -- split; [apply Hok0; reflexivity | apply lookup_lt_is_Some; eauto].
        -- destruct (Hok2 Hok k Hk) as [Hk1 Hk2]. split; [|assumption].
           rewrite Hlen1, Hsame0 in Hk1. exact Hk1.
    + split; [congruence|]. split; [|discriminate].
      intros j Hj. apply not_elem_of_cons in Hj as [Hji Hj].
      rewrite Hframe1, Hsame0 by assumption. reflexivity.
Qed.

(** What a forward pass does to the caches, in terms of its loop. *)
Lemma GemmaModel_forward_caches (tokens input_pos : ITensor) (mask : FTensor)
    (start rbi rbk : option ITensor) (st : State) :
  let run := GemmaModel_forward tokens input_pos mask start rbi rbk st in
  length (caches run.2) = length (caches st)
  /\ (forall j, (length (layers (self_ st)) <= j)%nat ->
        caches run.2 !! j = caches st !! j)
  /\ (is_ok run.1 = true -> (length (layers (self_ st)) <= length (caches st))%nat).
Proof.
  cbv zeta.
  destruct (GemmaModel_forward tokens input_pos mask start rbi rbk st) as [r st'] eqn:Hrun.
  cbn [fst snd].
  assert (forall e, (r, st') = (Raise e, st) ->
            length (caches st') = length (caches st)
            /\ (forall j, (length (layers (self_ st)) <= j)%nat ->
                  caches st' !! j = caches st !! j)
            /\ (is_ok r = true -> (length (layers (self_ st)) <= length (caches st))%nat))
    as Hearly.
  { intros e [= -> ->]. split; [reflexivity|]. split; [reflexivity | discriminate]. }
  unfold GemmaModel_forward in Hrun.
  rewrite M_bind_run in Hrun. unfold get_state at 1 in Hrun.
  rewrite M_bind_lift in Hrun.
  destruct (shape tokens) as [|bsz [|seqlen [|]]];
    try (symmetry in Hrun; apply (Hearly _ Hrun)).
  rewrite M_bind_run in Hrun. unfold get_buffer at 1 in Hrun.
  destruct (buffers (self_ st) !! "freqs_cis") as [table|];
    [|symmetry in Hrun; apply (Hearly _ Hrun)].
  rewrite M_bind_lift in Hrun. destruct (index table input_pos) as [f1|];
    [|symmetry in Hrun; apply (Hearly _ Hrun)].
  rewrite M_bind_lift in Hrun. destruct (reshape f1 _) as [f2|];
    [|symmetry in Hrun; apply (Hearly _ Hrun)].
  rewrite M_bind_lift in Hrun.
  destruct (embedding_forward (embedder (self_ st)) tokens) as [h0|];
    [|symmetry in Hrun; apply (Hearly _ Hrun)].
  rewrite M_bind_lift in Hrun.
  destruct (end_cursor (self_ st) start input_pos) as [end_|];
    [|symmetry in Hrun; apply (Hearly _ Hrun)].
  clear Hearly.
  rewrite M_bind_run in Hrun.
  match type of Hrun with
  | context [forward_layers ?m ?ids ?h ?f ?k ?s ?e ?a ?b ?st0] =>
      destruct (forward_layers_caches m ids h f k s e a b st0) as (Hlen & Hframe & Hok);
      destruct (forward_layers m ids h f k s e a b st0) as [[h1|] st1]
  end; cbn [fst snd] in *.
  2: { injection Hrun as <- <-. split; [assumption|]. split; [|discriminate].
       intros j Hj. apply Hframe. rewrite elem_of_seq. lia. }
  assert (length (layers (self_ st)) <= length (caches st))%nat as Hle.
  { destruct (length (layers (self_ st))) as [|n] eqn:Hn; [lia|].
    destruct (Hok eq_refl n) as [Hn1 _]; [apply elem_of_seq; lia | lia]. }
  assert (forall j, (length (layers (self_ st)) <= j)%nat ->
            caches st1 !! j = caches st !! j) as Hframe'.
  { intros j Hj. apply Hframe. rewrite elem_of_seq. lia. }
  assert (st' = st1) as ->.
  { revert Hrun.
    repeat (rewrite M_bind_lift;
            match goal with
            | |- context [match ?r with Ok _ => _ | Raise _ => _ end] =>
                destruct r; [|intros [= _ <-]; reflexivity]
            end).
    intros [= _ <-]. reflexivity. }
  auto.
Qed.

(** X17. A forward pass keeps the list of caches at its length and
    leaves every cache beyond the model's layers as it was, whether it
    returns or raises: layer [i] is given [caches[i]] and no other. *)
Theorem GemmaModel_forward_surplus_caches (tokens input_pos : ITensor) (mask : FTensor)
    (start rbi rbk : option ITensor) (st : State) (j : nat) :
  let run := GemmaModel_forward tokens input_pos mask start rbi rbk st in
  length (caches run.2) = length (caches st)
  /\ ((length (layers (self_ st)) <= j)%nat -> caches run.2 !! j = caches st !! j).
Proof.
  cbv zeta.
  destruct (GemmaModel_forward_caches tokens input_pos mask start rbi rbk st)
    as (Hlen & Hframe & _).
  split; [exact Hlen | apply Hframe].
Qed.

(** X18. With fewer caches than layers a forward pass never returns. *)
Theorem GemmaModel_forward_too_few_caches (tokens input_pos : ITensor) (mask : FTensor)
    (start rbi rbk : option ITensor) (st : State) :
  (length (caches st) < length (layers (self_ st)))%nat ->
  is_ok (GemmaModel_forward tokens input_pos mask start rbi rbk st).1 = false.
Proof.
  intros Hfew.
  destruct (GemmaModel_forward_caches tokens input_pos mask start rbi rbk st)
    as (_ & _ & Hok).
  destruct (is_ok _); [|reflexivity]. specialize (Hok eq_refl). lia.
Qed.

(** *** The arguments of the layers *)

Lemma forward_layers_args (self : GemmaModel) (ids : list nat)
    (hidden_states : FTensor) (freqs_cis : CTensor) (mask : FTensor)
    (start end_ rbi rbk : option ITensor) (st : State) :
  let run := forward_layers self ids hidden_states freqs_cis mask start end_ rbi rbk st in
  exists new_calls,
    calls run.2 = calls st ++ new_calls
    /\ Forall (fun c => call_freqs_cis c = freqs_cis
                        /\ call_mask c = mask
                        /\ call_ragged_batch_index c = rbi
                        /\ call_ragged_block_index c = rbk
                        /\ call_cache c = call_layer c) new_calls.
Proof.
  revert hidden_states st.
  induction ids as [|i ids IH]; intros hidden_states st; cbn [forward_layers].
  - exists []. cbn. rewrite app_nil_r. auto.
  - cbv zeta. destruct (layers self !! i) as [layer|].
    2: { exists []. cbn. rewrite app_nil_r. auto. }
    rewrite M_bind_run.
    destruct (with_cache_frame i (mret tt) st) as [_ Hcalls0].
    destruct (with_cache i (mret tt) st) as [[[]|e0] st0]; cbn [fst snd] in *.
    2: { exists []. rewrite app_nil_r. auto. }
    rewrite M_bind_run, log_call_run. cbv beta iota.
    rewrite M_bind_run.
    match goal with
    | |- context [with_cache i ?f ?s] =>
        destruct (with_cache_frame i f s) as [_ Hcalls1];
        destruct (with_cache i f s) as [[h1|e1] st1]
    end; cbn [fst snd calls] in *.
    + specialize (IH h1 st1). cbv zeta in IH. destruct IH as (rest & Hcalls2 & Hall).
      eexists (_ :: rest). split.
      * rewrite Hcalls2, Hcalls1, Hcalls0, <- app_assoc. reflexivity.
      * constructor; [cbn; auto 6 | assumption].
    + eexists [_]. split.
      * rewrite Hcalls1, Hcalls0. reflexivity.
      * constructor; [cbn; auto 6 | constructor].
Qed.

Lemma in_range_unflatten (s : list nat) (q : nat) :
  (q < numel s)%nat -> in_range s (unflatten s q) = true.
Proof.
  revert q. induction s as [|n s IH]; intros q Hq; cbn [unflatten in_range].
  - reflexivity.
  - cbn [numel fold_right] in Hq. fold (numel s) in Hq.
    assert (0 < numel s)%nat as Hpos by nia.
    apply andb_true_iff. split.
    + apply Nat.ltb_lt. apply Nat.Div0.div_lt_upper_bound. lia.
    + apply IH. apply Nat.mod_upper_bound. lia.
Qed.

Lemma length_unflatten (s : list nat) (q : nat) : length (unflatten s q) = length s.
Proof. revert q. induction s as [|n s IH]; intros q; cbn; [|rewrite IH]; reflexivity. Qed.

Lemma numel_app_last (s : list nat) (K : nat) : numel (s ++ [K]) = (numel s * K)%nat.
Proof.
  induction s as [|n s IH]; cbn [app numel fold_right].
  - lia.
  - fold (numel (s ++ [K])). fold (numel s). rewrite IH. lia.
Qed.

Lemma unflatten_app_last (s : list nat) (K q k : nat) :
  (k < K)%nat -> (q < numel s)%nat ->
  unflatten (s ++ [K]) (q * K + k) = unflatten s q ++ [k].
Proof.
  intros Hk. revert q. induction s as [|n s IH]; intros q Hq; cbn [app unflatten].
  - cbn [numel fold_right] in *. rewrite Nat.div_1_r.
    assert (q = 0)%nat as -> by lia. reflexivity.
  - cbn [numel fold_right] in Hq. fold (numel s) in Hq.
    assert (0 < numel s)%nat as Hpos by nia.
    rewrite numel_app_last.
    assert ((q * K + k) / (numel s * K) = q / numel s)%nat as ->.
    { rewrite (Nat.mul_comm (numel s) K), <- Nat.Div0.div_div.
      rewrite Nat.div_add_l by lia. rewrite (Nat.div_small k K) by lia.
      rewrite Nat.add_0_r. reflexivity. }
    assert ((q * K + k) mod (numel s * K) = (q mod numel s) * K + k)%nat as ->.
    { rewrite (Nat.mul_comm (numel s) K), Nat.Div0.mod_mul_r.
      rewrite Nat.div_add_l by lia. rewrite (Nat.div_small k K) by lia.
      rewrite Nat.add_0_r.
      rewrite (Nat.add_comm (q * K) k), Nat.Div0.mod_add, (Nat.mod_small k K) by lia.
      lia. }
    rewrite IH; [reflexivity|]. apply Nat.mod_upper_bound. lia.
Qed.

Lemma infer_size_last_3 (a b m n : nat) :
  (0 < a * b)%nat ->
  n = (a * b * m)%nat ->
  infer_size [Z.of_nat a; Z.of_nat b; (-1)%Z] n = Ok [a; b; m].
Proof.
  intros Hpos ->. unfold infer_size.
  assert (forall k, (-1 <=? Z.of_nat k)%Z = true) as Hge
    by (intros k; apply Z.leb_le; lia).
  cbn [forallb]. rewrite !Hge. cbn [andb Z.leb Z.compare Pos.compare Pos.compare_cont].
  rewrite !filter_cons_True by lia.
  rewrite filter_cons_False by (intros Hne; apply Hne; reflexivity).
  rewrite filter_nil.
  cbn [length Nat.sub fmap list_fmap numel fold_right]. rewrite !Nat2Z.id.
  assert (a * (b * 1) = a * b)%nat as -> by lia.
  assert ((0 <? a * b)%nat = true) as -> by (apply Nat.ltb_lt; assumption).
  rewrite Nat.mul_comm, Nat.Div0.mod_mul. cbn [Nat.eqb andb].
  rewrite Nat.div_mul by lia.
  assert (forall k, (Z.of_nat k =? -1)%Z = false) as Hne
    by (intros k; apply Z.eqb_neq; lia).
  rewrite !Hne. reflexivity.
Qed.

(** The rows of a table picked by an index tensor, laid out as
    (bsz, seqlen, K). *)
Lemma index_reshape_rows {A} (table : Tensor A) (ix : ITensor) (n K bsz seqlen : nat)
    (rows r : Tensor A) :
  shape table = [n; K] ->
  numel (shape ix) = (bsz * seqlen)%nat ->
  index table ix = Ok rows ->
  reshape rows [Z.of_nat bsz; Z.of_nat seqlen; (-1)%Z] = Ok r ->
  shape r = [bsz; seqlen; K]
  /\ forall b s k, (b < bsz)%nat -> (s < seqlen)%nat -> (k < K)%nat ->
       exists row,
         wrap_index n (elem ix (unflatten (shape ix) (b * seqlen + s))) = Some row
         /\ elem r [b; s; k] = elem table [row; k].
Proof.
  intros Htable Hnumel Hrows Hr. unfold index in Hrows. rewrite Htable in Hrows.
  destruct (forallb _ _) eqn:Hall; [|discriminate]. injection Hrows as <-.
  rewrite forallb_forall in Hall.
  unfold reshape in Hr. cbn [shape] in Hr.
  destruct (Nat.eq_dec (bsz * seqlen) 0) as [Hzero|Hpos].
  - (* no position at all *)
    assert (infer_size [Z.of_nat bsz; Z.of_nat seqlen; (-1)%Z] (numel (shape ix ++ [K]))
            = Raise RuntimeError) as Hinf.
    { unfold infer_size.
      assert (forall k, (-1 <=? Z.of_nat k)%Z = true) as Hge
        by (intros k; apply Z.leb_le; lia).
      cbn [forallb]. rewrite !Hge.
      cbn [andb Z.leb Z.compare Pos.compare Pos.compare_cont].
      rewrite !filter_cons_True by lia.
      rewrite filter_cons_False by (intros Hne; apply Hne; reflexivity).
      rewrite filter_nil.
      cbn [length Nat.sub fmap list_fmap numel fold_right]. rewrite !Nat2Z.id.
      assert (bsz * (seqlen * 1) = 0)%nat as -> by lia. reflexivity. }
    rewrite Hinf in Hr. discriminate Hr.
  - rewrite (infer_size_last_3 bsz seqlen K) in Hr
      by (rewrite ?numel_app_last; lia).
    rewrite bind_Ok_l in Hr. injection Hr as <-. cbn [shape elem].
    split; [reflexivity|]. intros b s k Hb Hs Hk.
    assert (b * (seqlen * (K * 1)) + (s * (K * 1) + (k * 1 + 0))
            = (b * seqlen + s) * K + k)%nat as -> by lia.
    rewrite unflatten_app_last by (try assumption; rewrite Hnumel; nia).
    set (pidx := unflatten (shape ix) (b * seqlen + s)).
    assert (in_range (shape ix) pidx = true) as Hin.
    { apply in_range_unflatten. rewrite Hnumel. nia. }
    specialize (Hall pidx). rewrite <- list_elem_of_In, elem_of_indices in Hall.
    specialize (Hall Hin). apply bool_decide_eq_true in Hall as [row Hrow].
    exists row. split; [exact Hrow|].
    unfold ndim.
    rewrite take_app_length' by (symmetry; apply length_unflatten).
    rewrite drop_app_length' by (symmetry; apply length_unflatten).
    rewrite Hrow. reflexivity.
Qed.

(** X19. What a forward pass hands to the decoder layers besides the
    cursors: position (b, s) of every layer's rotary table is the row of
    the model's [freqs_cis] table picked by the entry of [input_pos] for
    that position (its [b * seqlen + s]-th entry in row-major order,
    negative entries counting from the end of the table); the mask and
    the ragged-attention tables are passed on as given; and layer [i]
    gets [caches[i]]. *)
Theorem GemmaModel_forward_layer_arguments (tokens input_pos : ITensor) (mask : FTensor)
    (start rbi rbk : option ITensor) (st : State)
    (table : CTensor) (n K bsz seqlen : nat) :
  shape tokens = [bsz; seqlen] ->
  buffers (self_ st) !! "freqs_cis" = Some table ->
  shape table = [n; K] ->
  numel (shape input_pos) = (bsz * seqlen)%nat ->
  let run := GemmaModel_forward tokens input_pos mask start rbi rbk st in
  exists new_calls,
    calls run.2 = calls st ++ new_calls
    /\ forall c, c ∈ new_calls ->
         call_mask c = mask
         /\ call_ragged_batch_index c = rbi
         /\ call_ragged_block_index c = rbk
         /\ call_cache c = call_layer c
         /\ shape (call_freqs_cis c) = [bsz; seqlen; K]
         /\ forall b s k, (b < bsz)%nat -> (s < seqlen)%nat -> (k < K)%nat ->
              exists row,
                wrap_index n (elem input_pos (unflatten (shape input_pos) (b * seqlen + s)))
                = Some row
                /\ elem (call_freqs_cis c) [b; s; k] = elem table [row; k].
Proof.
  intros Htokens Hbuf Htable Hnumel. cbv zeta.
  destruct (GemmaModel_forward tokens input_pos mask start rbi rbk st) as [r st'] eqn:Hrun.
  cbn [fst snd].
  assert (forall e, (r, st') = (Raise e, st) ->
            exists new_calls : list LayerCall,
              calls st' = calls st ++ new_calls
              /\ forall c, c ∈ new_calls ->
                   call_mask c = mask
                   /\ call_ragged_batch_index c = rbi
                   /\ call_ragged_block_index c = rbk
                   /\ call_cache c = call_layer c
                   /\ shape (call_freqs_cis c) = [bsz; seqlen; K]
                   /\ forall b s k, (b < bsz)%nat -> (s < seqlen)%nat -> (k < K)%nat ->
                        exists row,
                          wrap_index n
                            (elem input_pos (unflatten (shape input_pos) (b * seqlen + s)))
                          = Some row
                          /\ elem (call_freqs_cis c) [b; s; k] = elem table [row; k])
    as Hearly.
  { intros e [= -> ->]. exists []. rewrite app_nil_r. split; [reflexivity|].
    intros c Hc. apply elem_of_nil in Hc. contradiction. }
  unfold GemmaModel_forward in Hrun.
  rewrite M_bind_run in Hrun. unfold get_state at 1 in Hrun.
  rewrite M_bind_lift, Htokens in Hrun.
  rewrite M_bind_run in Hrun. unfold get_buffer at 1 in Hrun. rewrite Hbuf in Hrun.
  rewrite M_bind_lift in Hrun. destruct (index table input_pos) as [f1|] eqn:Hf1;
    [|symmetry in Hrun; apply (Hearly _ Hrun)].
  rewrite M_bind_lift in Hrun. destruct (reshape f1 _) as [f2|] eqn:Hf2;
    [|symmetry in Hrun; apply (Hearly _ Hrun)].
  rewrite M_bind_lift in Hrun.
  destruct (embedding_forward (embedder (self_ st)) tokens) as [h0|];
    [|symmetry in Hrun; apply (Hearly _ Hrun)].
  rewrite M_bind_lift in Hrun.
  destruct (end_cursor (self_ st) start input_pos) as [end_|];
    [|symmetry in Hrun; apply (Hearly _ Hrun)].
  clear Hearly.
  rewrite M_bind_run in Hrun.
  match type of Hrun with
  | context [forward_layers ?m ?ids ?h ?f ?k ?s ?e ?a ?b ?st0] =>
      destruct (forward_layers_args m ids h f k s e a b st0) as (new_calls & Hcalls & Hall);
      destruct (forward_layers m ids h f k s e a b st0) as [[h1|] st1]
  end; cbn [fst snd] in *.
  - assert (st' = st1) as ->.
    { revert Hrun.
      repeat (rewrite M_bind_lift;
              match goal with
              | |- context [match ?r with Ok _ => _ | Raise _ => _ end] =>
                  destruct r; [|intros [= _ <-]; reflexivity]
              end).
      intros [= _ <-]. reflexivity. }
    exists new_calls. split; [exact Hcalls|].
    intros c Hc. rewrite Forall_forall in Hall.
    destruct (Hall c Hc) as (-> & Hm & Hb & Hk & Hcache).
    destruct (index_reshape_rows table input_pos n K bsz seqlen f1 f2
                Htable Hnumel Hf1 Hf2) as [Hshape Helem].
    auto 10.
  - injection Hrun as <- <-.
    exists new_calls. split; [exact Hcalls|].
    intros c Hc. rewrite Forall_forall in Hall.
    destruct (Hall c Hc) as (-> & Hm & Hb & Hk & Hcache).
    destruct (index_reshape_rows table input_pos n K bsz seqlen f1 f2
                Htable Hnumel Hf1 Hf2) as [Hshape Helem].
    auto 10.
Qed.

End Forward.

Lemma GemmaModel_forward_position_out_of_range_witness :
  exists m,
    GemmaModel_init tiny_config tiny_env = Ok m
    /\ let st := {| self_ := m; caches := [0%nat; 0%nat]; calls := [] |} in
       forward_call (tiny_args 4) st = (Raise IndexError, st).
Proof.
  destruct (GemmaModel_init tiny_config tiny_env) as [m|e] eqn:Hinit.
  - exists m. split; [reflexivity|]. cbv zeta.
    apply (GemmaModel_forward_position_out_of_range tiny_config tiny_env m _
             (arg_tokens (tiny_args 4)) (arg_input_pos (tiny_args 4)) _ _ _ _
             1%nat 1%nat [0%nat] Hinit).
    + reflexivity.
    + reflexivity.
    + reflexivity.
    + right. cbn. lia.
  - pose proof tiny_model_builds as Hok. rewrite Hinit in Hok. discriminate Hok.
Defined.

Lemma GemmaModel_forward_too_few_caches_witness :
  exists m,
    GemmaModel_init tiny_config tiny_env = Ok m
    /\ is_ok (forward_call (tiny_args 1)
                {| self_ := m; caches := [0%nat]; calls := [] |}).1 = false.
Proof.
  destruct (GemmaModel_init tiny_config tiny_env) as [m|e] eqn:Hinit.
  - exists m. split; [reflexivity|].
    apply GemmaModel_forward_too_few_caches. cbn [caches self_ length].
    rewrite (GemmaModel_init_length _ _ _ Hinit). cbn. lia.
  - pose proof tiny_model_builds as Hok. rewrite Hinit in Hok. discriminate Hok.
Defined.

Lemma GemmaModel_forward_layer_arguments_witness :
  exists m table,
    GemmaModel_init tiny_config tiny_env = Ok m
    /\ buffers m !! "freqs_cis" = Some table
    /\ let run := forward_call (tiny_args 1)
                    {| self_ := m; caches := [0%nat; 0%nat]; calls := [] |} in
       exists new_calls,
         calls run.2 = [] ++ new_calls
         /\ forall c, c ∈ new_calls ->
              call_mask c = arg_mask (tiny_args 1)
              /\ call_ragged_batch_index c = None
              /\ call_ragged_block_index c = None
              /\ call_cache c = call_layer c
              /\ shape (call_freqs_cis c) = [1%nat; 1%nat; 1%nat]
              /\ forall b s k, (b < 1)%nat -> (s < 1)%nat -> (k < 1)%nat ->
                   exists row,
                     wrap_index 4
                       (elem (arg_input_pos (tiny_args 1))
                          (unflatten (shape (arg_input_pos (tiny_args 1))) (b * 1 + s)))
                     = Some row
                     /\ elem (call_freqs_cis c) [b; s; k] = elem table [row; k].
Proof.
  destruct (GemmaModel_init tiny_config tiny_env) as [m|e] eqn:Hinit.
  - destruct (GemmaModel_init_buffers tiny_config tiny_env m Hinit)
      as (table & Htable & Hbuf).
    destruct (precompute_freqs_cis_elem 2 (2 * 2) 10000%R ltac:(lia) ltac:(lia))
      as (table2 & Htable2 & Hshape & _).
    change (precompute_freqs_cis (head_dim tiny_config)
              (max_position_embeddings tiny_config * 2)
              (default 10000%R (rope_theta tiny_config)))
      with (precompute_freqs_cis 2 (2 * 2) 10000%R) in Htable.
    rewrite Htable in Htable2. injection Htable2 as <-.
    exists m, table. split; [reflexivity|].
    assert (buffers m !! "freqs_cis" = Some table) as Hlookup
      by (rewrite Hbuf; apply lookup_singleton_eq).
    split; [exact Hlookup|].
    apply (GemmaModel_forward_layer_arguments
             (arg_tokens (tiny_args 1)) (arg_input_pos (tiny_args 1)) _ _ _ _
             {| self_ := m; caches := [0%nat; 0%nat]; calls := [] |}
             table 4 1 1 1).
    + reflexivity.
    + exact Hlookup.
    + exact Hshape.
    + reflexivity.
  - pose proof tiny_model_builds as Hok. rewrite Hinit in Hok. discriminate Hok.
Defined.

End ModelProperties.

(** ** Fetching and loading *)

Module LoadingProperties.

Import FetchModels FetchModelsFacts Examples Notions.

#[local] Existing Instance accepting_collaborators.

Section Loading.

Context `{Collaborators}.

(** What [store] leaves under a key after a run over [entries]: the
    converted tensor of the key's last entry, or what was there before. *)
Lemma store_all_lookup (entries : list (string * StoredTensor))
    (init : gmap string StoredTensor) (key : string) (t : StoredTensor) :
  fold_left store entries init !! key = Some t
  <-> (exists before t0 after,
         entries = before ++ (key, t0) :: after
         /\ (key ∉ after.*1)
         /\ t = to t0 bfloat16)
      \/ ((key ∉ entries.*1) /\ init !! key = Some t).
Proof.
  revert init. induction entries as [|[k0 t0] rest IH]; intros init.
  - cbn. split.
    + intros Hinit. right. split; [apply not_elem_of_nil | exact Hinit].
    + intros [(before & t1 & after & Heq & _)|[_ Hinit]]; [|exact Hinit].
      destruct before; discriminate Heq.
  - cbn [fold_left store]. rewrite IH. split.
    + intros [(before & t1 & after & -> & Hafter & ->)|[Hrest Hlook]].
      * left. exists ((k0, t0) :: before), t1, after. auto.
      * destruct (decide (k0 = key)) as [->|Hne].
        -- rewrite lookup_insert_eq in Hlook. injection Hlook as <-.
           left. exists [], t0, rest. auto.
        -- rewrite lookup_insert_ne in Hlook by assumption.
           right. split; [|exact Hlook].
           rewrite fmap_cons. apply not_elem_of_cons. cbn. split; [congruence | exact Hrest].
    + intros [(before & t1 & after & Heq & Hafter & ->)|[Hnot Hlook]].
      * destruct before as [|x before].
        -- cbn in Heq. injection Heq as <- <- <-. right. split; [exact Hafter|].
           apply lookup_insert_eq.
        -- cbn in Heq. injection Heq as <- ->. left. exists before, t1, after. auto.
      * rewrite fmap_cons in Hnot. apply not_elem_of_cons in Hnot as [Hne Hnot].
        cbn in Hne. right. split; [exact Hnot|].
        rewrite lookup_insert_ne by congruence. exact Hlook.
Qed.

(** X20. The state dictionary [_load_weights] returns has exactly the
    keys met in the files of the directory, and under each key the
    bfloat16 conversion of the last tensor met with that key: when a key
    occurs in several files, or several times in one, the later one
    wins. *)
Theorem _load_weights_last_occurrence (directory : string) (W : World)
    (state_dict : gmap string StoredTensor) :
  (_load_weights directory W).1 = Ok state_dict ->
  forall key t,
    state_dict !! key = Some t
    <-> exists before t0 after,
          tensors_found W directory = before ++ (key, t0) :: after
          /\ (key ∉ after.*1)
          /\ t = to t0 bfloat16.
Proof.
  rewrite _load_weights_unfold. cbn [fst].
  case_bool_decide; [discriminate|]. intros [= <-] key t.
  rewrite store_all_lookup. split.
  - intros [Hfound|[_ Hinit]]; [exact Hfound|].
    rewrite lookup_empty in Hinit. discriminate Hinit.
  - intros Hfound. left. exact Hfound.
Qed.

(** The loop of [_make_random_model_weights], from any point on. *)
Lemma random_weights_loop (entries : list (string * (list nat * DType)))
    (acc : M World (gmap string StoredTensor))
    (W W0 : World) (d0 : gmap string StoredTensor) :
  acc W = (Ok d0, W0) ->
  exists d,
    fold_left (fun acc '(key, (val_shape, val_dtype)) =>
        result ← acc;
        W ← get_state;
        let new_weights :=
          {| dtype := val_dtype; data := rand val_shape val_dtype (rng W) |} in
        _ ← modify next_rng;
        mret (<[key := new_weights]> result))
      entries acc W
    = (Ok d, fresh_world W0 (length entries))
    /\ (forall key, is_Some (d !! key) <-> key ∈ entries.*1 \/ is_Some (d0 !! key))
    /\ (forall key t, d !! key = Some t ->
          (exists k val_shape val_dtype,
             entries !! k = Some (key, (val_shape, val_dtype))
             /\ t = {| dtype := val_dtype;
                       data := rand val_shape val_dtype (rng W0 + k) |})
          \/ d0 !! key = Some t).
Proof.
  revert acc W0 d0. induction entries as [|[key0 [sh0 dt0]] rest IH]; intros acc W0 d0 Hacc.
  - exists d0. cbn [fold_left length]. split; [|split].
    + rewrite Hacc. unfold fresh_world. rewrite Nat.add_0_r. destruct W0; reflexivity.
    + intros key. rewrite fmap_nil, elem_of_nil. tauto.
    + intros key t Ht. right. exact Ht.
  - cbn [fold_left].
    match goal with
    | |- context [fold_left ?f rest ?acc1 W] =>
        destruct (IH acc1 (next_rng W0)
                    (<[key0 := {| dtype := dt0; data := rand sh0 dt0 (rng W0) |}]> d0))
          as (d & Hrun & Hkeys & Hvals)
    end.
    { rewrite M_bind_run, Hacc. reflexivity. }
    exists d. split; [|split].
    + etransitivity; [exact Hrun|].
      unfold fresh_world, next_rng. cbn [length rng glob path_exists
        safe_open environ stdout]. f_equal. f_equal. lia.
    + intros key. rewrite Hkeys, fmap_cons, elem_of_cons. cbn [fst].
      destruct (decide (key0 = key)) as [->|Hne].
      * rewrite lookup_insert_eq. split; [auto | eauto].
      * rewrite lookup_insert_ne by assumption.
        split; [intros [?|?]; auto | intros [[->|?]|?]; [contradiction | auto | auto]].
    + intros key t Ht. destruct (Hvals key t Ht) as [(k & sh & dt & Hk & ->)|Hprev].
      * left. exists (S k), sh, dt. split; [exact Hk|].
        cbn [next_rng rng].
        replace (rng W0 + S k) with (S (rng W0) + k) by lia. reflexivity.
      * destruct (decide (key0 = key)) as [->|Hne].
        -- rewrite lookup_insert_eq in Hprev. injection Hprev as <-.
           left. exists 0%nat, sh0, dt0. split; [reflexivity|].
           rewrite Nat.add_0_r. reflexivity.
        -- rewrite lookup_insert_ne in Hprev by assumption. right. exact Hprev.
Qed.

Lemma random_weights_run (model : BuiltModel) (W : World) :
  exists weights,
    _make_random_model_weights model W
    = (Ok weights, fresh_world W (length (state_dict model))).
Proof.
  unfold _make_random_model_weights.
  destruct (random_weights_loop (state_dict model) (mret ∅) W W ∅ eq_refl)
    as (d & Hrun & _). eauto.
Qed.


(** *** Downloading *)

(** X22. [_hf_download] first creates the directory; if that raises,
    nothing is downloaded.  Otherwise it makes one download, of the
    model's safetensors, json and tokenizer files into that directory,
    with the explicit token if it is not empty, else the environment's
    HF_TOKEN if that is set and not empty, else [True].  Whatever the
    download returns or raises is what [_hf_download] returns or raises:
    no exception is swallowed or replaced, and the only thing added is
    the two-line login hint printed when the hub answers 401. *)
Theorem _hf_download_outcome (repo_id dest_directory : string)
    (hf_token : option string) (W : World) :
  let run := _hf_download repo_id dest_directory hf_token W in
  match makedirs dest_directory W with
  | (Raise e, W1) => run = (Raise e, W1)
  | (Ok _, W1) =>
      let download :=
        snapshot_download repo_id dest_directory (chosen_token hf_token W1)
          ["model*.safetensors"; "*.json"; "*.model"] W1 in
      run.1 = download.1
      /\ (download.1 = Raise (HTTPError 401) -> run.2 = login_hint download.2)
      /\ (download.1 <> Raise (HTTPError 401) -> run.2 = download.2)
  end.
Proof.
  cbv zeta. unfold _hf_download. rewrite M_bind_run.
  destruct (makedirs dest_directory W) as [[[]|e] W1]; [|reflexivity].
  unfold reraising_HTTPError. rewrite M_bind_run. unfold get_state.
  cbv beta iota zeta.
  assert ((match
             (if match hf_token with
                 | Some s => String.eqb s ""
                 | None => true
                 end
              then environ W1 !! "HF_TOKEN" else hf_token)
           with
           | Some s => if String.eqb s "" then TokenTrue else TokenStr s
           | None => TokenTrue
           end) = chosen_token hf_token W1) as ->.
  { unfold chosen_token. destruct hf_token as [[|c s]|]; cbn.
    - destruct (environ W1 !! "HF_TOKEN") as [[|c s]|]; reflexivity.
    - reflexivity.
    - destruct (environ W1 !! "HF_TOKEN") as [[|c s]|]; reflexivity. }
  destruct (snapshot_download repo_id dest_directory (chosen_token hf_token W1) _ W1)
    as [[[]|e] W2]; cbn [fst snd].
  - split; [reflexivity|]. split; [discriminate | reflexivity].
  - destruct e; try (split; [reflexivity|]; split; [discriminate | reflexivity]).
    split; [reflexivity|]. split.
    + intros [= ->]. reflexivity.
    + intros Hne. destruct (status_code =? 401)%Z eqn:Hcode; [|reflexivity].
      apply Z.eqb_eq in Hcode. subst. contradiction.
Qed.

(** *** Building a model *)

Lemma in_world_run {A} (f : M World A) (st : IState) :
  in_world f st = ((f (world st)).1, {| world := (f (world st)).2; env := env st |}).
Proof. unfold in_world. destruct (f (world st)). reflexivity. Qed.

(** X23. A repo id that is not in the table never yields a model, and
    the environment object is left as it was (its device is not set).
    The id is looked up only after the download step: when no download
    is needed the call raises [AssertionError] and changes nothing, and
    when one is needed it is attempted first. *)
Theorem instantiate_model_unknown_repo (F : Flags) (repo_id : string) (st : IState) :
  model_id_to_class !! repo_id = None ->
  let run := instantiate_model_from_repo_id F repo_id st in
  is_ok run.1 = false
  /\ env run.2 = env st
  /\ (needs_download F repo_id (world st) = false -> run = (Raise AssertionError, st))
  /\ (needs_download F repo_id (world st) = true ->
      let download :=
        _hf_download repo_id (_hf_dir F repo_id) (Some (hf_token F)) (world st) in
      world run.2 = download.2
      /\ run.1 = match download.1 with
                 | Ok _ => Raise AssertionError
                 | Raise e => Raise e
                 end).
Proof.
  intros Hnone. cbv zeta.
  destruct (instantiate_model_from_repo_id F repo_id st) as [r st'] eqn:Hrun.
  cbn [fst snd].
  unfold instantiate_model_from_repo_id in Hrun.
  rewrite M_bind_run in Hrun. unfold get_state at 1 in Hrun.
  rewrite M_bind_run in Hrun.
  fold (needs_download F repo_id (world st)) in Hrun.
  rewrite Hnone in Hrun.
  destruct (needs_download F repo_id (world st)).
  - rewrite in_world_run in Hrun.
    destruct (_hf_download repo_id (_hf_dir F repo_id) (Some (hf_token F)) (world st))
      as [[[]|e] W1]; cbn [fst snd] in Hrun |- *;
      injection Hrun as <- <-; cbn;
      (split; [reflexivity|]; split; [reflexivity|]; split; [discriminate | auto]).
  - injection Hrun as <- <-. destruct st. cbn.
    split; [reflexivity|]. split; [reflexivity|]. split; [reflexivity | discriminate].
Qed.

Lemma fresh_world_0 (W : World) : fresh_world W 0 = W.
Proof. unfold fresh_world. rewrite Nat.add_0_r. destruct W; reflexivity. Qed.

(** X24. When the random-weights switch is on, or the model's directory
    exists and holds a safetensors file, [instantiate_model_from_repo_id]
    does not go to the hub: nothing is created, downloaded or printed,
    whether the call returns or raises.  The world is then as it was,
    except that the random generator has advanced when random weights
    were made; with both testing switches off it is exactly as it was. *)
Theorem instantiate_model_without_download (F : Flags) (repo_id : string) (st : IState) :
  needs_download F repo_id (world st) = false ->
  let run := instantiate_model_from_repo_id F repo_id st in
  (exists n, world run.2 = fresh_world (world st) n)
  /\ (internal_use_random_weights F = false ->
      internal_use_tiny_model F = false ->
      world run.2 = world st).
Proof.
  intros Hlocal. cbv zeta.
  destruct (instantiate_model_from_repo_id F repo_id st) as [r st'] eqn:Hrun.
  cbn [fst snd].
  assert (forall (r0 : result ModelObject) e0,
            (r, st') = (r0, {| world := world st; env := e0 |}) ->
            (exists n, world st' = fresh_world (world st) n)
            /\ (internal_use_random_weights F = false ->
                internal_use_tiny_model F = false ->
                world st' = world st)) as Hsame.
  { intros r0 e0 [= -> ->]. cbn [world]. split; [|reflexivity].
    exists 0%nat. symmetry. apply fresh_world_0. }
  unfold instantiate_model_from_repo_id in Hrun.
  rewrite M_bind_run in Hrun. unfold get_state at 1 in Hrun.
  rewrite M_bind_run in Hrun.
  fold (needs_download F repo_id (world st)) in Hrun.
  rewrite Hlocal in Hrun. cbn [mret M_ret] in Hrun.
  destruct (model_id_to_class !! repo_id) as [info|].
  2: { symmetry in Hrun. destruct st as [W0 e0]. apply (Hsame _ _ Hrun). }
  rewrite M_bind_run in Hrun. unfold set_env_device at 1, modify at 1 in Hrun.
  rewrite M_bind_run in Hrun. unfold get_state at 1 in Hrun.
  rewrite M_bind_lift in Hrun. cbn [env world] in Hrun.
  destruct (class_from_hf_model_id (model_class info) repo_id
              (Gemma.set_device (env st) "meta") (internal_use_tiny_model F))
    as [structure|e1].
  2: { symmetry in Hrun. apply (Hsame _ _ Hrun). }
  rewrite M_bind_run in Hrun. cbn [built] in Hrun.
  destruct (internal_use_random_weights F || internal_use_tiny_model F) eqn:Hflags.
  - rewrite in_world_run in Hrun. cbn [world env] in Hrun.
    destruct (random_weights_run structure (world st))
      as (weights & Hweights).
    rewrite Hweights in Hrun. cbn [fst snd] in Hrun.
    unfold lift in Hrun. injection Hrun as <- <-. cbn [world]. split; [eauto|].
    intros Hr Ht. rewrite Hr, Ht in Hflags. discriminate Hflags.
  - rewrite M_bind_run, in_world_run, _load_weights_unfold in Hrun.
    cbn [fst snd world env] in Hrun.
    case_bool_decide.
    + symmetry in Hrun. apply (Hsame _ _ Hrun).
    + unfold lift in Hrun.
      destruct (convert_hf_weights structure _) as [weights|e2];
        symmetry in Hrun; apply (Hsame _ _ Hrun).
Qed.

End Loading.

Lemma _load_weights_last_occurrence_witness :
  exists state_dict,
    (_load_weights "checkpoints/google/gemma-2b/hf_original" gemma_2b_world).1
    = Ok state_dict
    /\ forall key t,
         state_dict !! key = Some t
         <-> exists before t0 after,
               tensors_found gemma_2b_world "checkpoints/google/gemma-2b/hf_original"
               = before ++ (key, t0) :: after
               /\ (key ∉ after.*1)
               /\ t = to t0 bfloat16.
Proof.
  destruct (_load_weights "checkpoints/google/gemma-2b/hf_original" gemma_2b_world).1
    as [state_dict|e] eqn:Hload.
  - exists state_dict. split; [reflexivity|].
    apply (_load_weights_last_occurrence _ _ _ Hload).
  - vm_compute in Hload. discriminate Hload.
Defined.

Lemma instantiate_model_unknown_repo_witness :
  let run := instantiate_model_from_repo_id default_flags "google/gemma-9b"
               gemma_2b_state in
  is_ok run.1 = false /\ env run.2 = env gemma_2b_state.
Proof.
  destruct (instantiate_model_unknown_repo default_flags "google/gemma-9b" gemma_2b_state)
    as (Hfail & Henv & _).
  - vm_compute. reflexivity.
  - split; [exact Hfail | exact Henv].
Defined.

Lemma instantiate_model_without_download_witness :
  let run := instantiate_model_from_repo_id default_flags "google/gemma-2b"
               gemma_2b_state in
  world run.2 = world gemma_2b_state.
Proof.
  destruct (instantiate_model_without_download default_flags "google/gemma-2b"
              gemma_2b_state) as [_ Hsame].
  - vm_compute. reflexivity.
  - apply Hsame; reflexivity.
Defined.

(** *** The table and the Gemma class *)

(** X25. The repo ids the table maps to the Gemma class are exactly the
    ids [GemmaModel.from_hf_model_id] knows: for a Gemma entry of the
    table the assertion on the model name does not fail, and no other id
    gets past it. *)
Theorem gemma_repo_ids_agree (repo_id : string) :
  is_Some (Gemma.hf_model_names !! repo_id)
  <-> exists info,
        model_id_to_class !! repo_id = Some info /\ model_class info = GemmaModel.
Proof.
  split.
  - intros [name Hname]. unfold Gemma.hf_model_names in Hname.
    apply elem_of_list_to_map_2 in Hname.
    repeat (apply elem_of_cons in Hname as [[= -> ->]|Hname];
            [eexists; split; [vm_compute; reflexivity | reflexivity]|]).
    apply elem_of_nil in Hname. contradiction.
  - intros (info & Hinfo & Hclass).
    apply model_id_to_class_lookup in Hinfo. unfold model_id_table in Hinfo.
    repeat (apply elem_of_cons in Hinfo as [[= -> ->]|Hinfo];
            [first [discriminate Hclass | vm_compute; eauto]|]).
    apply elem_of_nil in Hinfo. contradiction.
Qed.

(** *** Directories *)

Lemma append_inj_r (a b c : string) : a +:+ b = a +:+ c -> b = c.
Proof.
  induction a as [|ch a IH]; cbn; [auto|]. intros [= Heq]. apply IH, Heq.
Qed.

Lemma os_path_join_relative (a b : string) :
  startswith b "/" = false ->
  os_path_join a b
  = a +:+ (if String.eqb a "" || endswith a "/" then "" else "/") +:+ b.
Proof.
  intros Hrel. unfold os_path_join. rewrite Hrel.
  destruct (String.eqb a "" || endswith a "/"); reflexivity.
Qed.

(** X26. The directory of the original checkpoint and the directory of
    the int8 conversion are the entries [hf_original] and
    [converted_int8] of the model's directory, joined to it the same
    way, and they are never the same directory. *)
Theorem _hf_dir_and__int_dir (F : Flags) (repo_id : string) :
  exists sep,
    (sep = "" \/ sep = "/")
    /\ _hf_dir F repo_id = _model_dir F repo_id +:+ sep +:+ "hf_original"
    /\ _int_dir F repo_id = _model_dir F repo_id +:+ sep +:+ "converted_int8"
    /\ _hf_dir F repo_id <> _int_dir F repo_id.
Proof.
  unfold _hf_dir, _int_dir.
  rewrite !os_path_join_relative by reflexivity.
  destruct (String.eqb (_model_dir F repo_id) "" || endswith (_model_dir F repo_id) "/").
  - exists "". split; [auto|]. split; [reflexivity|]. split; [reflexivity|].
    intros Heq. apply append_inj_r in Heq. discriminate Heq.
  - exists "/". split; [auto|]. split; [reflexivity|]. split; [reflexivity|].
    intros Heq. apply append_inj_r in Heq. discriminate Heq.
Qed.

End LoadingProperties.

Module TinyModelProperties.

Import FetchModels FetchModelsFacts Examples Notions.

#[local] Existing Instance accepting_collaborators.

Section Loading.

Context `{Collaborators}.

(** X28. The Gemma class ignores [is_tiny]: [GemmaModel.from_hf_model_id]
    builds the model of the full configuration whatever the switch says.
    So for a Gemma repo id and random weights,
    [instantiate_model_from_repo_id] does the same with
    [internal_use_tiny_model] on as with it off. *)
Theorem instantiate_gemma_ignores_tiny_model (F : Flags) (repo_id : string)
    (info : ModelInfo) (st : IState) :
  model_id_to_class !! repo_id = Some info ->
  model_class info = GemmaModel ->
  internal_use_random_weights F = true ->
  (forall env, class_from_hf_model_id (model_class info) repo_id env true
               = class_from_hf_model_id (model_class info) repo_id env false)
  /\ instantiate_model_from_repo_id (with_tiny_model F true) repo_id st
     = instantiate_model_from_repo_id (with_tiny_model F false) repo_id st.
Proof.
  intros Hinfo Hclass Hrandom.
  assert (forall env, class_from_hf_model_id (model_class info) repo_id env true
                      = class_from_hf_model_id (model_class info) repo_id env false)
    as Hsame by (intros env0; rewrite Hclass; reflexivity).
  split; [exact Hsame|].
  unfold instantiate_model_from_repo_id, with_tiny_model, _hf_dir, _model_dir.
  cbn [working_dir hf_token internal_use_random_weights internal_use_tiny_model].
  rewrite Hrandom, Hinfo. cbn [negb andb orb].
  unfold class_from_hf_model_id, Gemma.from_hf_model_id. rewrite Hclass.
  reflexivity.
Qed.

End Loading.

Lemma instantiate_gemma_ignores_tiny_model_witness :
  instantiate_model_from_repo_id
    (with_tiny_model
       {| working_dir := "checkpoints"; hf_token := "";
          internal_use_random_weights := true; internal_use_tiny_model := false;
          override_max_cache_length := -1 |} true)
    "google/gemma-2b" gemma_2b_state
  = instantiate_model_from_repo_id
      (with_tiny_model
         {| working_dir := "checkpoints"; hf_token := "";
            internal_use_random_weights := true; internal_use_tiny_model := false;
            override_max_cache_length := -1 |} false)
      "google/gemma-2b" gemma_2b_state.
Proof.
  apply (instantiate_gemma_ignores_tiny_model _ "google/gemma-2b" _gemma_2b gemma_2b_state).
  - apply lookup_gemma_2b.
  - reflexivity.
  - reflexivity.
Defined.

End TinyModelProperties.
